(** * Shrishay Foundation backend: media usage tracking and content lifecycle

    A shallow embedding of the Express/Mongoose backend:
    - [models/Media.js], [models/Event.js], [models/Blog.js]: documents,
      schema methods and the [pre('save')] / [pre(/^find/)] hooks;
    - [middleware/validateRequest.js] with the Joi schemas of
      [validators/event.validator.js] and [validators/blog.validator.js];
    - [controllers/event.controller.js], [controllers/blog.controller.js]
      and [controllers/media.controller.js].

    The MongoDB collections are finite maps from [_id] to documents, a
    request handler is a function from the database (and the request's inputs,
    including the clock value it reads) to a result: either the new database
    with the JSON response, or the error thrown to the error handler. *)

From stdpp Require Import gmap strings list pretty.

Open Scope string_scope.
Open Scope list_scope.
Open Scope stdpp_scope.

(** ** JavaScript values *)

(** An [ObjectId] is a 12-byte value; [toString()] is its injective 24-digit
    hexadecimal rendering, so comparing [a.toString() !== b.toString()] is
    comparing the values. Dates are milliseconds since the epoch, as
    [Date.now()] returns them. *)
Abbreviation ObjectId := N.
Abbreviation Timestamp := N.

(** Values found in a request body (parsed JSON) or in the object handed to
    [Object.assign]; [VId] is an [ObjectId] instance such as [req.user._id]. *)
#[warnings="-register-all"]
Inductive JsVal : Type :=
| VNull
| VBool (b : bool)
| VNum (n : Z)
| VStr (s : string)
| VArr (l : list JsVal)
| VObj (o : list (string * JsVal))
| VId (i : ObjectId).

(** A plain object: its own enumerable properties in insertion order. *)
Abbreviation Obj := (list (string * JsVal)).

Definition keys (o : Obj) : list string := o.*1.

Fixpoint objGet (k : string) (o : Obj) : option JsVal :=
  match o with
  | [] => None
  | (k', v) :: o' => if decide (k' = k) then Some v else objGet k o'
  end.

(** [{...o, k: v}]: an existing property keeps its position and takes the new
    value, a new property is appended. *)
Fixpoint objSet (k : string) (v : JsVal) (o : Obj) : Obj :=
  match o with
  | [] => [(k, v)]
  | (k', v') :: o' =>
      if decide (k' = k) then (k, v) :: o' else (k', v') :: objSet k v o'
  end.

(** ** Errors and results *)

Inductive Error : Type :=
| ApiError (statusCode : nat) (message : string)
    (* [throw new ApiError(statusCode, message)] in a controller *)
| JoiRejected
    (* the 400 'Validation failed' response of [validateRequest] *)
| ValidationError
    (* Mongoose rejects [save()]: cast, required or maxlength failure *)
| DuplicateKey (index : string).
    (* MongoDB E11000 on a unique index *)

Inductive Result (A : Type) : Type :=
| Ok (a : A)
| Err (e : Error).
Arguments Ok {A} a.
Arguments Err {A} e.

Definition bind {A B} (r : Result A) (k : A → Result B) : Result B :=
  match r with
  | Ok a => k a
  | Err e => Err e
  end.

Global Instance Result_bind : MBind Result := λ A B k r, bind r k.
Global Instance Result_ret : MRet Result := λ A a, Ok a.

Definition orThrow {A} (o : option A) (e : Error) : Result A :=
  match o with
  | Some a => Ok a
  | None => Err e
  end.

Definition isOk {A} (r : Result A) : bool :=
  match r with Ok _ => true | Err _ => false end.

(** ** ObjectId strings *)

Definition hexDigit (c : Ascii.ascii) : option N :=
  let n := Ascii.N_of_ascii c in
  if decide (48 ≤ n ≤ 57)%N then Some (n - 48)%N
  else if decide (97 ≤ n ≤ 102)%N then Some (n - 87)%N
  else if decide (65 ≤ n ≤ 70)%N then Some (n - 55)%N
  else None.

Fixpoint parseHex (acc : N) (s : string) : option N :=
  match s with
  | EmptyString => Some acc
  | String c s' =>
      match hexDigit c with
      | Some d => parseHex (16 * acc + d)%N s'
      | None => None
      end
  end.

(** [Joi.string().hex().length(24)], and Mongoose's cast of such a string to
    an [ObjectId]. *)
Definition parseObjectId (s : string) : option ObjectId :=
  if decide (String.length s = 24%nat) then parseHex 0 s else None.

(** ** Media model ([models/Media.js]) *)

Inductive ModelName : Type := EventModel | BlogModel.

(** One element of [usedIn]: [{ model, modelId, field }]. The [_id] Mongoose
    gives every array subdocument is left out: two usage entries are compared
    by these three fields, as [addUsage], [removeUsage] and the [$pull]
    conditions do. *)
Record Usage : Type := {
  model : ModelName;
  modelId : ObjectId;
  field : string
}.

Record Media : Type := {
  path : string;
  thumbnail : option string;
  usedIn : list Usage;
  m_isDeleted : bool;
  m_deletedAt : option Timestamp
}.

Global Instance ModelName_eq_dec : EqDecision ModelName.
Proof. solve_decision. Defined.
Global Instance Usage_eq_dec : EqDecision Usage.
Proof. solve_decision. Defined.
Global Instance Media_eq_dec : EqDecision Media.
Proof. solve_decision. Defined.

Definition setUsedIn (us : list Usage) (m : Media) : Media :=
  {| path := path m; thumbnail := thumbnail m; usedIn := us;
     m_isDeleted := m_isDeleted m; m_deletedAt := m_deletedAt m |}.

(** [u.model === model && u.modelId.toString() === modelId.toString() &&
    u.field === field] *)
Definition sameUsage (mo : ModelName) (id : ObjectId) (f : string) (u : Usage) : Prop :=
  model u = mo ∧ modelId u = id ∧ field u = f.

(** The [$pull] condition [{ model, modelId }] of the delete handlers. *)
Definition sameEntity (mo : ModelName) (id : ObjectId) (u : Usage) : Prop :=
  model u = mo ∧ modelId u = id.

Global Instance sameUsage_dec mo id f u : Decision (sameUsage mo id f u).
Proof. unfold sameUsage. apply _. Defined.
Global Instance sameEntity_dec mo id u : Decision (sameEntity mo id u).
Proof. unfold sameEntity. apply _. Defined.

Module MediaModel.

(** [mediaSchema.virtual('isInUse')]: [usedIn && usedIn.length > 0]. *)
Definition isInUse (m : Media) : bool :=
  match usedIn m with [] => false | _ :: _ => true end.

(** [mediaSchema.methods.addUsage]; the [save()] that follows writes the
    document back and is done by the caller of this function. *)
Definition addUsage (mo : ModelName) (id : ObjectId) (f : string) (m : Media) : Media :=
  let usage := {| model := mo; modelId := id; field := f |} in
  let exists_ := bool_decide (Exists (sameUsage mo id f) (usedIn m)) in
  if negb exists_ then setUsedIn (usedIn m ++ [usage]) m else m.

(** [mediaSchema.methods.removeUsage]. *)
Definition removeUsage (mo : ModelName) (id : ObjectId) (f : string) (m : Media) : Media :=
  setUsedIn (filter (λ u, ¬ sameUsage mo id f u) (usedIn m)) m.

Definition softDelete (now : Timestamp) (m : Media) : Media :=
  {| path := path m; thumbnail := thumbnail m; usedIn := usedIn m;
     m_isDeleted := true; m_deletedAt := Some now |}.

Definition restore (m : Media) : Media :=
  {| path := path m; thumbnail := thumbnail m; usedIn := usedIn m;
     m_isDeleted := false; m_deletedAt := None |}.

(** Update operators of the controllers: [{ $push: { usedIn: u } }] appends,
    [{ $pull: { usedIn: cond } }] removes every element matching [cond]. *)
Definition push (u : Usage) (m : Media) : Media :=
  setUsedIn (usedIn m ++ [u]) m.

Definition pull (P : Usage → Prop) `{∀ u, Decision (P u)} (m : Media) : Media :=
  setUsedIn (filter (λ u, ¬ P u) (usedIn m)) m.

(** [mediaSchema.pre(/^find/)] adds [{ isDeleted: { $ne: true } }] to every
    query whose operation name starts with "find" ([find], [findOne],
    [findOneAndUpdate], ...) unless the option [includeDeleted] is set.
    [findById] runs as [findOne], [findByIdAndUpdate] as
    [findOneAndUpdate]: both see only documents that are not soft-deleted. *)
Definition findById (ms : gmap N Media) (id : ObjectId) : option Media :=
  match ms !! id with
  | Some m => if m_isDeleted m then None else Some m
  | None => None
  end.

(** [Media.findByIdAndUpdate(id, update)]: no match, no change. *)
Definition findByIdAndUpdate (id : ObjectId) (f : Media → Media)
    (ms : gmap N Media) : gmap N Media :=
  match findById ms id with
  | Some m => <[id := f m]> ms
  | None => ms
  end.

(** [Media.updateMany({ _id: { $in: ids } }, update)]: the operation name
    does not start with "find", the hook above does not run, and every
    stored document whose id is listed is updated once. *)
Definition updateMany (ids : list ObjectId) (f : Media → Media)
    (ms : gmap N Media) : gmap N Media :=
  map_imap (λ k m, Some (if decide (k ∈ ids) then f m else m)) ms.

End MediaModel.

(** ** Content documents ([models/Event.js], [models/Blog.js]) *)

Inductive Status : Type := draft | published | archived.

Global Instance Status_eq_dec : EqDecision Status.
Proof. solve_decision. Defined.

(** An Event or Blog document. [video] and [author] are paths of the Blog
    schema only. The remaining declared paths (description, time, location,
    datetime, type, seoTitle, seoDescription, tags, dateDay, dateMonth for an
    Event; excerpt, content, category, isFeatured, videoUrl, seoTitle,
    seoDescription, tags, readTime for a Blog) carry no logic of the handlers
    below and are kept by name in [details]. The [createdAt]/[updatedAt]
    stamps of [timestamps: true] are left out. *)
Record Content : Type := {
  title : string;
  slug : option string;
  status : Status;
  heroImage : option ObjectId;
  gallery : list ObjectId;
  video : option ObjectId;
  author : option ObjectId;
  publishedAt : option Timestamp;
  views : Z;
  createdBy : option ObjectId;
  updatedBy : option ObjectId;
  isDeleted : bool;
  deletedAt : option Timestamp;
  details : Obj
}.

Definition set_title v c := Build_Content v (slug c) (status c) (heroImage c) (gallery c) (video c) (author c) (publishedAt c) (views c) (createdBy c) (updatedBy c) (isDeleted c) (deletedAt c) (details c).
Definition set_slug v c := Build_Content (title c) v (status c) (heroImage c) (gallery c) (video c) (author c) (publishedAt c) (views c) (createdBy c) (updatedBy c) (isDeleted c) (deletedAt c) (details c).
Definition set_status v c := Build_Content (title c) (slug c) v (heroImage c) (gallery c) (video c) (author c) (publishedAt c) (views c) (createdBy c) (updatedBy c) (isDeleted c) (deletedAt c) (details c).
Definition set_heroImage v c := Build_Content (title c) (slug c) (status c) v (gallery c) (video c) (author c) (publishedAt c) (views c) (createdBy c) (updatedBy c) (isDeleted c) (deletedAt c) (details c).
Definition set_gallery v c := Build_Content (title c) (slug c) (status c) (heroImage c) v (video c) (author c) (publishedAt c) (views c) (createdBy c) (updatedBy c) (isDeleted c) (deletedAt c) (details c).
Definition set_video v c := Build_Content (title c) (slug c) (status c) (heroImage c) (gallery c) v (author c) (publishedAt c) (views c) (createdBy c) (updatedBy c) (isDeleted c) (deletedAt c) (details c).
Definition set_author v c := Build_Content (title c) (slug c) (status c) (heroImage c) (gallery c) (video c) v (publishedAt c) (views c) (createdBy c) (updatedBy c) (isDeleted c) (deletedAt c) (details c).
Definition set_publishedAt v c := Build_Content (title c) (slug c) (status c) (heroImage c) (gallery c) (video c) (author c) v (views c) (createdBy c) (updatedBy c) (isDeleted c) (deletedAt c) (details c).
Definition set_views v c := Build_Content (title c) (slug c) (status c) (heroImage c) (gallery c) (video c) (author c) (publishedAt c) v (createdBy c) (updatedBy c) (isDeleted c) (deletedAt c) (details c).
Definition set_createdBy v c := Build_Content (title c) (slug c) (status c) (heroImage c) (gallery c) (video c) (author c) (publishedAt c) (views c) v (updatedBy c) (isDeleted c) (deletedAt c) (details c).
Definition set_updatedBy v c := Build_Content (title c) (slug c) (status c) (heroImage c) (gallery c) (video c) (author c) (publishedAt c) (views c) (createdBy c) v (isDeleted c) (deletedAt c) (details c).
Definition set_isDeleted v c := Build_Content (title c) (slug c) (status c) (heroImage c) (gallery c) (video c) (author c) (publishedAt c) (views c) (createdBy c) (updatedBy c) v (deletedAt c) (details c).
Definition set_deletedAt v c := Build_Content (title c) (slug c) (status c) (heroImage c) (gallery c) (video c) (author c) (publishedAt c) (views c) (createdBy c) (updatedBy c) (isDeleted c) v (details c).
Definition set_details v c := Build_Content (title c) (slug c) (status c) (heroImage c) (gallery c) (video c) (author c) (publishedAt c) (views c) (createdBy c) (updatedBy c) (isDeleted c) (deletedAt c) v.

(** Library functions the models call and whose code is not part of the
    repository: [slugify(title, { lower: true, strict: true, remove: ... })]
    of the slugify package, and the [trim] setter of a Mongoose string path
    ([String.prototype.trim]). *)
Class Externals : Type := {
  slugify : string → string;
  trim : string → string
}.

(** What distinguishes the two schemas. *)
Record Schema : Type := {
  modelName : ModelName;
  detailPaths : list string;      (* declared paths kept in [details] *)
  requiredDetails : list string;  (* those of them that are [required] *)
  defaultDetails : Obj;           (* their [default] values *)
  blogPaths : bool                (* [video], [author]; [heroImage] and
                                     [author] are [required] *)
}.

Definition eventSchema : Schema := {|
  modelName := EventModel;
  detailPaths := ["description"; "time"; "location"; "datetime"; "dateDay";
                  "dateMonth"; "type"; "seoTitle"; "seoDescription"; "tags"];
  requiredDetails := ["description"; "time"; "location"; "datetime"];
  defaultDetails := [("type", VStr "normal")];
  blogPaths := false
|}.

Definition blogSchema : Schema := {|
  modelName := BlogModel;
  detailPaths := ["excerpt"; "content"; "category"; "isFeatured"; "videoUrl";
                  "seoTitle"; "seoDescription"; "tags"; "readTime"];
  requiredDetails := ["excerpt"; "content"; "category"];
  defaultDetails := [("isFeatured", VBool false)];
  blogPaths := true
|}.

(** *** A document being edited: change tracking *)

(** A hydrated document: its current values, whether it is new, and the paths
    marked modified. *)
Record Editing : Type := {
  doc : Content;
  isNew : bool;
  modified : list string
}.

Definition isModified (p : string) (ed : Editing) : bool :=
  bool_decide (p ∈ modified ed).

(** [new Model()]: the schema defaults, nothing set yet. *)
Definition newDoc (S : Schema) : Editing := {|
  doc := {| title := ""; slug := None; status := draft; heroImage := None;
            gallery := []; video := None; author := None; publishedAt := None;
            views := 0; createdBy := None; updatedBy := None;
            isDeleted := false; deletedAt := None;
            details := defaultDetails S |};
  isNew := true;
  modified := []
|}.

(** A document loaded by a query. *)
Definition hydrate (c : Content) : Editing :=
  {| doc := c; isNew := false; modified := [] |}.

(** [doc.path = value]: the new value is stored; the path is marked modified
    when the document is new or the value differs from the current one. *)
Definition assign {A} `{EqDecision A} (p : string) (get : Content → A)
    (set : A → Content → Content) (v : A) (ed : Editing) : Editing :=
  {| doc := set v (doc ed);
     isNew := isNew ed;
     modified := if isNew ed || negb (bool_decide (get (doc ed) = v))
                 then p :: modified ed else modified ed |}.

(** Casts of the schema types, for the shape of value each path is given by
    the handlers and by validated request bodies. A value of another shape
    is reported as a cast failure ([None]), which makes [save()] reject. *)
Definition castString (v : JsVal) : option string :=
  match v with VStr s => Some s | _ => None end.

Definition castStatus (v : JsVal) : option Status :=
  match v with
  | VStr "draft" => Some draft
  | VStr "published" => Some published
  | VStr "archived" => Some archived
  | _ => None
  end.

Definition castObjectId (v : JsVal) : option (option ObjectId) :=
  match v with
  | VNull => Some None
  | VId i => Some (Some i)
  | VStr s => Some <$> parseObjectId s
  | _ => None
  end.

Definition castObjectIds (v : JsVal) : option (list ObjectId) :=
  match v with
  | VArr l => mapM (λ x, match x with
                         | VId i => Some i
                         | VStr s => parseObjectId s
                         | _ => None
                         end) l
  | _ => None
  end.

Definition castDate (v : JsVal) : option (option Timestamp) :=
  match v with
  | VNull => Some None
  | VNum n => if decide (0 ≤ n)%Z then Some (Some (Z.to_N n)) else None
  | _ => None
  end.

Definition castNumber (v : JsVal) : option Z :=
  match v with VNum n => Some n | _ => None end.

Definition castBoolean (v : JsVal) : option bool :=
  match v with VBool b => Some b | _ => None end.

(** [doc[k] = v] for a property [k] of the object given to [Object.assign]
    or to the model constructor. A key that is not a path of the schema is
    ignored (strict mode). *)
Definition docSet `{!Externals} (S : Schema) (k : string) (v : JsVal)
    (ed : Editing) : option Editing :=
  if decide (k = "title") then
    s ← castString v; Some (assign k title set_title (trim s) ed)
  else if decide (k = "slug") then
    s ← castString v; Some (assign k slug set_slug (Some s) ed)
  else if decide (k = "status") then
    s ← castStatus v; Some (assign k status set_status s ed)
  else if decide (k = "heroImage") then
    i ← castObjectId v; Some (assign k heroImage set_heroImage i ed)
  else if decide (k = "gallery") then
    l ← castObjectIds v; Some (assign k gallery set_gallery l ed)
  else if decide (k = "video") then
    if blogPaths S then
      i ← castObjectId v; Some (assign k video set_video i ed)
    else Some ed
  else if decide (k = "author") then
    if blogPaths S then
      i ← castObjectId v; Some (assign k author set_author i ed)
    else Some ed
  else if decide (k = "publishedAt") then
    t ← castDate v; Some (assign k publishedAt set_publishedAt t ed)
  else if decide (k = "views") then
    n ← castNumber v; Some (assign k views set_views n ed)
  else if decide (k = "createdBy") then
    i ← castObjectId v; Some (assign k createdBy set_createdBy i ed)
  else if decide (k = "updatedBy") then
    i ← castObjectId v; Some (assign k updatedBy set_updatedBy i ed)
  else if decide (k = "isDeleted") then
    b ← castBoolean v; Some (assign k isDeleted set_isDeleted b ed)
  else if decide (k = "deletedAt") then
    t ← castDate v; Some (assign k deletedAt set_deletedAt t ed)
  else if decide (k ∈ detailPaths S) then
    (* stored as given; recorded as modified whenever it is set *)
    Some {| doc := set_details (objSet k v (details (doc ed))) (doc ed);
            isNew := isNew ed; modified := k :: modified ed |}
  else Some ed.

(** [Object.assign(doc, o)]: the properties of [o] are set in order. *)
Fixpoint objectAssign `{!Externals} (S : Schema) (o : Obj) (ed : Editing)
    : option Editing :=
  match o with
  | [] => Some ed
  | (k, v) :: o' => ed' ← docSet S k v ed; objectAssign S o' ed'
  end.

(** *** Hooks, validation and [save()] *)

(** The [pre('save')] hook. [eventSchema.pre('save')] and
    [blogSchema.pre('save')] have the same slug and [publishedAt] blocks; the
    block between them (display fields from [datetime] for an Event, reading
    time from [content] for a Blog) writes only to paths kept in [details]
    and is left out. [Date.now()] and [new Date()] both read [now]. *)
Definition preSave `{!Externals} (now : Timestamp) (ed : Editing) : Editing :=
  let ed1 :=
    if isModified "title" ed then
      (* this.slug = slugify(this.title, ...); this.slug = `${this.slug}-${Date.now()}` *)
      assign "slug" slug set_slug
        (Some (slugify (title (doc ed)) +:+ "-" +:+ pretty now)) ed
    else ed in
  if isModified "status" ed1
     && bool_decide (status (doc ed1) = published)
     && bool_decide (publishedAt (doc ed1) = None)
  then assign "publishedAt" publishedAt set_publishedAt (Some now) ed1
  else ed1.

(** Built-in validation, which Mongoose runs before the [pre('save')] hooks,
    for the validators the schemas declare on the paths above: [required]
    and [maxlength] of the title, [required] of the listed paths. *)
Definition validate (S : Schema) (ed : Editing) : bool :=
  let d := doc ed in
  negb (bool_decide (title d = ""))
  && bool_decide (String.length (title d) ≤ 200)%nat
  && forallb (λ p, bool_decide (is_Some (objGet p (details d)))) (requiredDetails S)
  && (negb (blogPaths S)
      || (bool_decide (is_Some (heroImage d)) && bool_decide (is_Some (author d)))).

(** The unique index on [slug]: another document of the collection holds
    the same slug. *)
Definition slugTaken (coll : gmap N Content) (id : ObjectId) (s : option string) : bool :=
  bool_decide (map_Exists (λ k c, k ≠ id ∧ slug c = s) coll).

(** [doc.save()]: validation, the hook, then the write of the modified
    paths. The slug index is checked when the document is inserted or its
    slug is written; inserting under an [_id] already present violates the
    primary index. *)
Definition save `{!Externals} (S : Schema) (now : Timestamp)
    (coll : gmap N Content) (id : ObjectId) (ed : Editing)
    : Result (gmap N Content * Content) :=
  if negb (validate S ed) then Err ValidationError
  else
    let ed' := preSave now ed in
    let d := doc ed' in
    if isNew ed && bool_decide (is_Some (coll !! id)) then Err (DuplicateKey "_id")
    else if (isNew ed || isModified "slug" ed') && slugTaken coll id (slug d)
    then Err (DuplicateKey "slug")
    else Ok (<[id := d]> coll, d).

(** [schema.methods.softDelete] and [schema.methods.restore], the same for
    Event and Blog. *)
Definition softDelete `{!Externals} (S : Schema) (now : Timestamp)
    (coll : gmap N Content) (id : ObjectId) (ed : Editing) :=
  let ed1 := assign "isDeleted" isDeleted set_isDeleted true ed in
  let ed2 := assign "deletedAt" deletedAt set_deletedAt (Some now) ed1 in
  save S now coll id ed2.

Definition restore `{!Externals} (S : Schema) (now : Timestamp)
    (coll : gmap N Content) (id : ObjectId) (ed : Editing) :=
  let ed1 := assign "isDeleted" isDeleted set_isDeleted false ed in
  let ed2 := assign "deletedAt" deletedAt set_deletedAt None ed1 in
  save S now coll id ed2.

(** [schema.pre(/^find/)]: soft-deleted documents are hidden from every find
    query unless the option [includeDeleted] is set. *)
Definition visible (includeDeleted : bool) (c : Content) : bool :=
  includeDeleted || negb (isDeleted c).

(** [Model.findById(id)], with [.setOptions({ includeDeleted })]. *)
Definition findById (coll : gmap N Content) (id : ObjectId)
    (includeDeleted : bool) : option Content :=
  match coll !! id with
  | Some c => if visible includeDeleted c then Some c else None
  | None => None
  end.

(** [Model.findOne({ slug, status: 'published' })]. *)
Definition findOneBySlug (coll : gmap N Content) (s : string)
    : option (ObjectId * Content) :=
  head (filter (λ kc, slug kc.2 = Some s ∧ status kc.2 = published
                      ∧ isDeleted kc.2 = false) (map_to_list coll)).

(** [Model.create(data)]: a new document under a freshly generated [_id],
    every property of [data] set, then saved. A cast failure makes [save()]
    reject. *)
Definition create `{!Externals} (S : Schema) (now : Timestamp)
    (coll : gmap N Content) (newId : ObjectId) (data : Obj) :=
  ed ← orThrow (objectAssign S data (newDoc S)) ValidationError;
  save S now coll newId ed.

(** ** Request validation ([middleware/validateRequest.js], [validators/]) *)

Inductive JoiSchemaName : Type := EventCreate | EventUpdate | BlogCreate | BlogUpdate.

(** The Joi rules of the keys that are kept in [details]; their code belongs
    to the Joi package. *)
Class JoiRules : Type := joiDetail : JoiSchemaName → string → JsVal → bool.

Record JoiKey : Type := {
  keyName : string;
  rule : JsVal → bool;
  required : bool;
  default : option JsVal
}.

Record JoiObject : Type := {
  declared : list JoiKey;
  minKeys : nat
}.

(** [Joi.string().max(n)]: a non-empty string of at most [n] characters. *)
Definition joiStringMax (n : nat) (v : JsVal) : bool :=
  match v with
  | VStr s => negb (bool_decide (s = "")) && bool_decide (String.length s ≤ n)%nat
  | _ => false
  end.

(** [Joi.string().valid('draft', 'published', 'archived')]. *)
Definition joiStatus (v : JsVal) : bool := bool_decide (is_Some (castStatus v)).

(** [Joi.string().hex().length(24)], with or without [.allow(null)]. *)
Definition joiObjectId (allowNull : bool) (v : JsVal) : bool :=
  match v with
  | VStr s => bool_decide (is_Some (parseObjectId s))
  | VNull => allowNull
  | _ => false
  end.

(** [Joi.array().items(Joi.string().hex().length(24))]. *)
Definition joiObjectIds (v : JsVal) : bool :=
  match v with
  | VArr l => forallb (joiObjectId false) l
  | _ => false
  end.

Definition optional (k : string) (r : JsVal → bool) : JoiKey :=
  {| keyName := k; rule := r; required := false; default := None |}.
Definition requiredKey (k : string) (r : JsVal → bool) : JoiKey :=
  {| keyName := k; rule := r; required := true; default := None |}.
Definition withDefault (k : string) (r : JsVal → bool) (d : JsVal) : JoiKey :=
  {| keyName := k; rule := r; required := false; default := Some d |}.

Module EventValidator.
Definition createSchema `{!JoiRules} : JoiObject := {|
  declared := [
    requiredKey "title" (joiStringMax 200);
    requiredKey "description" (joiDetail EventCreate "description");
    requiredKey "time" (joiDetail EventCreate "time");
    requiredKey "location" (joiDetail EventCreate "location");
    requiredKey "datetime" (joiDetail EventCreate "datetime");
    withDefault "type" (joiDetail EventCreate "type") (VStr "normal");
    withDefault "status" joiStatus (VStr "draft");
    optional "heroImage" (joiObjectId false);
    optional "gallery" joiObjectIds;
    optional "seoTitle" (joiDetail EventCreate "seoTitle");
    optional "seoDescription" (joiDetail EventCreate "seoDescription");
    optional "tags" (joiDetail EventCreate "tags") ];
  minKeys := 0 |}.

Definition updateSchema `{!JoiRules} : JoiObject := {|
  declared := [
    optional "title" (joiStringMax 200);
    optional "description" (joiDetail EventUpdate "description");
    optional "time" (joiDetail EventUpdate "time");
    optional "location" (joiDetail EventUpdate "location");
    optional "datetime" (joiDetail EventUpdate "datetime");
    optional "type" (joiDetail EventUpdate "type");
    optional "status" joiStatus;
    optional "heroImage" (joiObjectId true);
    optional "gallery" joiObjectIds;
    optional "seoTitle" (joiDetail EventUpdate "seoTitle");
    optional "seoDescription" (joiDetail EventUpdate "seoDescription");
    optional "tags" (joiDetail EventUpdate "tags") ];
  minKeys := 1 |}.
End EventValidator.

Module BlogValidator.
Definition createSchema `{!JoiRules} : JoiObject := {|
  declared := [
    requiredKey "title" (joiStringMax 200);
    requiredKey "excerpt" (joiDetail BlogCreate "excerpt");
    requiredKey "content" (joiDetail BlogCreate "content");
    requiredKey "category" (joiDetail BlogCreate "category");
    withDefault "isFeatured" (joiDetail BlogCreate "isFeatured") (VBool false);
    withDefault "status" joiStatus (VStr "draft");
    requiredKey "heroImage" (joiObjectId false);
    optional "gallery" joiObjectIds;
    optional "video" (joiObjectId true);
    optional "videoUrl" (joiDetail BlogCreate "videoUrl");
    optional "seoTitle" (joiDetail BlogCreate "seoTitle");
    optional "seoDescription" (joiDetail BlogCreate "seoDescription");
    optional "tags" (joiDetail BlogCreate "tags") ];
  minKeys := 0 |}.

Definition updateSchema `{!JoiRules} : JoiObject := {|
  declared := [
    optional "title" (joiStringMax 200);
    optional "excerpt" (joiDetail BlogUpdate "excerpt");
    optional "content" (joiDetail BlogUpdate "content");
    optional "category" (joiDetail BlogUpdate "category");
    optional "isFeatured" (joiDetail BlogUpdate "isFeatured");
    optional "status" joiStatus;
    optional "heroImage" (joiObjectId false);
    optional "gallery" joiObjectIds;
    optional "video" (joiObjectId true);
    optional "videoUrl" (joiDetail BlogUpdate "videoUrl");
    optional "seoTitle" (joiDetail BlogUpdate "seoTitle");
    optional "seoDescription" (joiDetail BlogUpdate "seoDescription");
    optional "tags" (joiDetail BlogUpdate "tags") ];
  minKeys := 1 |}.
End BlogValidator.

Definition declaredNames (sch : JoiObject) : list string := keyName <$> declared sch.

Fixpoint ruleOf (ks : list JoiKey) (k : string) (v : JsVal) : bool :=
  match ks with
  | [] => false
  | jk :: ks' => if decide (keyName jk = k) then rule jk v else ruleOf ks' k v
  end.

(** A key that is absent and has a default gets it. *)
Definition fillDefault (o : Obj) (jk : JoiKey) : Obj :=
  match default jk with
  | Some d => if decide (keyName jk ∈ keys o) then o else o ++ [(keyName jk, d)]
  | None => o
  end.

(** [schema.validate(body, { abortEarly: false, stripUnknown: true })]:
    properties that are not declared are removed, every remaining property
    must satisfy its rule, every required key must be present, defaults are
    filled in, and [.min(n)] counts the properties of the result. The
    conversions Joi applies to accepted values concern [details] only and
    are left out. [None] is a validation error. *)
Definition joiValidate (sch : JoiObject) (body : Obj) : option Obj :=
  let stripped := filter (λ kv, kv.1 ∈ declaredNames sch) body in
  if forallb (λ kv, ruleOf (declared sch) kv.1 kv.2) stripped
     && forallb (λ jk, negb (required jk) || bool_decide (keyName jk ∈ keys stripped))
                (declared sch)
  then
    let value := foldl fillDefault stripped (declared sch) in
    if decide (minKeys sch ≤ length value)%nat then Some value else None
  else None.

(** [validateRequest(schema)]: on success [req.body] is replaced by the
    validated value and the next handler runs. *)
Definition validateRequest (sch : JoiObject) (body : Obj) : Result Obj :=
  orThrow (joiValidate sch body) JoiRejected.

(** ** The database and the responses *)

Record DB : Type := {
  events : gmap N Content;
  blogs : gmap N Content;
  media : gmap N Media
}.

(** [res.status(code).json({ status: 'success', message, data })]. The
    [populate] calls that precede it replace media ids by the referenced
    documents in the response only; the response carries the saved document
    as it is stored. *)
Record Response : Type := {
  code : nat;
  message : string;
  data : option Content
}.

Definition usage (mo : ModelName) (id : ObjectId) (f : string) : Usage :=
  {| model := mo; modelId := id; field := f |}.

(** [[a, b, ...l].filter(Boolean)] for optional ids [a], [b]. *)
Definition definedIds (os : list (option ObjectId)) (l : list ObjectId) : list ObjectId :=
  omap id os ++ l.

(** JavaScript truthiness, for [!blogData.heroImage]. *)
Definition truthy (v : option JsVal) : bool :=
  match v with
  | None | Some VNull | Some (VBool false) | Some (VStr "") => false
  | Some (VNum n) => negb (bool_decide (n = 0%Z))
  | Some _ => true
  end.

(** An [if (c) { ... }] and an [if (o) { ... }] around a statement that
    updates the media collection. *)
Definition when {A} (c : bool) (f : A → A) (a : A) : A :=
  if c then f a else a.

Definition whenSome {A B} (o : option B) (f : B → A → A) (a : A) : A :=
  match o with
  | Some b => f b a
  | None => a
  end.

Global Arguments when : simpl never.
Global Arguments whenSome : simpl never.

(** ** Event controller ([controllers/event.controller.js]) *)

Section Controllers.
Context `{!Externals}.

(** [createEvent]; [newId] is the [_id] generated for the new document. *)
Definition createEvent (db : DB) (body : Obj) (user newId : ObjectId)
    (now : Timestamp) : Result (DB * Response) :=
  let eventData := objSet "updatedBy" (VId user) (objSet "createdBy" (VId user) body) in
  '(events', event) ← create eventSchema now (events db) newId eventData;
  let ms := media db in
  let ms :=
    whenSome (heroImage event)
      (λ h, MediaModel.findByIdAndUpdate h
              (MediaModel.push (usage EventModel newId "heroImage"))) ms in
  let ms :=
    when (bool_decide (0 < length (gallery event))%nat)
      (MediaModel.updateMany (gallery event) (MediaModel.push (usage EventModel newId "gallery"))) ms in
  Ok ({| events := events'; blogs := blogs db; media := ms |},
      {| code := 201; message := "Event created successfully"; data := Some event |}).

(** [updateEvent]. *)
Definition updateEvent (db : DB) (id : ObjectId) (body : Obj) (user : ObjectId)
    (now : Timestamp) : Result (DB * Response) :=
  event0 ← orThrow (findById (events db) id false) (ApiError 404 "Event not found");
  (* Store old media IDs for cleanup *)
  let oldHeroImage := heroImage event0 in
  let oldGallery := gallery event0 in
  (* Object.assign(event, { ...req.body, updatedBy }); await event.save() *)
  ed ← orThrow (objectAssign eventSchema (objSet "updatedBy" (VId user) body)
                  (hydrate event0)) ValidationError;
  '(events', event) ← save eventSchema now (events db) id ed;
  let ms := media db in
  (* Remove old hero image reference if changed *)
  let ms :=
    whenSome oldHeroImage
      (λ a, when (bool_decide (heroImage event ≠ Some a))
              (MediaModel.findByIdAndUpdate a
                 (MediaModel.pull (sameUsage EventModel id "heroImage")))) ms in
  (* Add new hero image reference *)
  let ms :=
    whenSome (heroImage event)
      (λ b, when (bool_decide (oldHeroImage ≠ Some b))
              (MediaModel.findByIdAndUpdate b
                 (MediaModel.push (usage EventModel id "heroImage")))) ms in
  (* Update gallery references *)
  let newGallery := gallery event in
  let removedImages := filter (λ i, i ∉ newGallery) oldGallery in
  let addedImages := filter (λ i, i ∉ oldGallery) newGallery in
  let ms :=
    when (bool_decide (0 < length removedImages)%nat)
      (MediaModel.updateMany removedImages (MediaModel.pull (sameUsage EventModel id "gallery"))) ms in
  let ms :=
    when (bool_decide (0 < length addedImages)%nat)
      (MediaModel.updateMany addedImages (MediaModel.push (usage EventModel id "gallery"))) ms in
  Ok ({| events := events'; blogs := blogs db; media := ms |},
      {| code := 200; message := "Event updated successfully"; data := Some event |}).

(** [deleteEvent] (soft delete). *)
Definition deleteEvent (db : DB) (id : ObjectId) (now : Timestamp)
    : Result (DB * Response) :=
  event0 ← orThrow (findById (events db) id false) (ApiError 404 "Event not found");
  '(events', event) ← softDelete eventSchema now (events db) id (hydrate event0);
  (* Remove media usage references *)
  let mediaIds := definedIds [heroImage event] (gallery event) in
  let ms :=
    when (bool_decide (0 < length mediaIds)%nat)
      (MediaModel.updateMany mediaIds (MediaModel.pull (sameEntity EventModel id))) (media db) in
  Ok ({| events := events'; blogs := blogs db; media := ms |},
      {| code := 200; message := "Event deleted successfully"; data := None |}).

(** [restoreEvent]. *)
Definition restoreEvent (db : DB) (id : ObjectId) (now : Timestamp)
    : Result (DB * Response) :=
  event0 ← orThrow (findById (events db) id true) (ApiError 404 "Event not found");
  if negb (isDeleted event0) then Err (ApiError 400 "Event is not deleted")
  else
    '(events', event) ← restore eventSchema now (events db) id (hydrate event0);
    (* Restore media usage references *)
    let ms := media db in
    let ms :=
      whenSome (heroImage event)
        (λ h, MediaModel.findByIdAndUpdate h
                (MediaModel.push (usage EventModel id "heroImage"))) ms in
    let ms :=
      when (bool_decide (0 < length (gallery event))%nat)
        (MediaModel.updateMany (gallery event) (MediaModel.push (usage EventModel id "gallery"))) ms in
    Ok ({| events := events'; blogs := blogs db; media := ms |},
        {| code := 200; message := "Event restored successfully"; data := Some event |}).

(** [getEvent]; [admin] is [req.user && req.user.role === 'admin']. *)
Definition getEvent (db : DB) (id : ObjectId) (admin : bool) (now : Timestamp)
    : Result (DB * Response) :=
  event0 ← orThrow (findById (events db) id false) (ApiError 404 "Event not found");
  if negb (bool_decide (status event0 = published)) && negb admin
  then Err (ApiError 403 "Access denied")
  else if bool_decide (status event0 = published) then
    (* event.views += 1; await event.save() *)
    let ed := assign "views" views set_views (views event0 + 1)%Z (hydrate event0) in
    '(events', event) ← save eventSchema now (events db) id ed;
    Ok ({| events := events'; blogs := blogs db; media := media db |},
        {| code := 200; message := ""; data := Some event |})
  else Ok (db, {| code := 200; message := ""; data := Some event0 |}).

(** [getEventBySlug]. *)
Definition getEventBySlug (db : DB) (s : string) (now : Timestamp)
    : Result (DB * Response) :=
  '(id, event0) ← orThrow (findOneBySlug (events db) s) (ApiError 404 "Event not found");
  let ed := assign "views" views set_views (views event0 + 1)%Z (hydrate event0) in
  '(events', event) ← save eventSchema now (events db) id ed;
  Ok ({| events := events'; blogs := blogs db; media := media db |},
      {| code := 200; message := ""; data := Some event |}).

(** ** Blog controller ([controllers/blog.controller.js]) *)

(** [createBlog]. *)
Definition createBlog (db : DB) (body : Obj) (user newId : ObjectId)
    (now : Timestamp) : Result (DB * Response) :=
  let blogData :=
    objSet "updatedBy" (VId user)
      (objSet "createdBy" (VId user) (objSet "author" (VId user) body)) in
  (* Validate required hero image *)
  if negb (truthy (objGet "heroImage" blogData))
  then Err (ApiError 400 "Hero image is required")
  else
    '(blogs', blog) ← create blogSchema now (blogs db) newId blogData;
    let ms := media db in
    let ms :=
      whenSome (heroImage blog)
        (λ h, MediaModel.findByIdAndUpdate h
                (MediaModel.push (usage BlogModel newId "heroImage"))) ms in
    let ms :=
      when (bool_decide (0 < length (gallery blog))%nat)
        (MediaModel.updateMany (gallery blog) (MediaModel.push (usage BlogModel newId "gallery"))) ms in
    let ms :=
      whenSome (video blog)
        (λ v, MediaModel.findByIdAndUpdate v
                (MediaModel.push (usage BlogModel newId "video"))) ms in
    Ok ({| events := events db; blogs := blogs'; media := ms |},
        {| code := 201; message := "Blog created successfully"; data := Some blog |}).

(** [updateBlog]. *)
Definition updateBlog (db : DB) (id : ObjectId) (body : Obj) (user : ObjectId)
    (now : Timestamp) : Result (DB * Response) :=
  blog0 ← orThrow (findById (blogs db) id false) (ApiError 404 "Blog not found");
  let oldHeroImage := heroImage blog0 in
  let oldGallery := gallery blog0 in
  let oldVideo := video blog0 in
  ed ← orThrow (objectAssign blogSchema (objSet "updatedBy" (VId user) body)
                  (hydrate blog0)) ValidationError;
  '(blogs', blog) ← save blogSchema now (blogs db) id ed;
  let ms := media db in
  (* Hero image *)
  let ms :=
    whenSome oldHeroImage
      (λ a, when (bool_decide (heroImage blog ≠ Some a))
              (MediaModel.findByIdAndUpdate a
                 (MediaModel.pull (sameUsage BlogModel id "heroImage")))) ms in
  let ms :=
    whenSome (heroImage blog)
      (λ b, when (bool_decide (oldHeroImage ≠ Some b))
              (MediaModel.findByIdAndUpdate b
                 (MediaModel.push (usage BlogModel id "heroImage")))) ms in
  (* Gallery *)
  let newGallery := gallery blog in
  let removedImages := filter (λ i, i ∉ newGallery) oldGallery in
  let addedImages := filter (λ i, i ∉ oldGallery) newGallery in
  let ms :=
    when (bool_decide (0 < length removedImages)%nat)
      (MediaModel.updateMany removedImages (MediaModel.pull (sameUsage BlogModel id "gallery"))) ms in
  let ms :=
    when (bool_decide (0 < length addedImages)%nat)
      (MediaModel.updateMany addedImages (MediaModel.push (usage BlogModel id "gallery"))) ms in
  (* Video *)
  let ms :=
    whenSome oldVideo
      (λ a, when (bool_decide (video blog ≠ Some a))
              (MediaModel.findByIdAndUpdate a
                 (MediaModel.pull (sameUsage BlogModel id "video")))) ms in
  let ms :=
    whenSome (video blog)
      (λ b, when (bool_decide (oldVideo ≠ Some b))
              (MediaModel.findByIdAndUpdate b
                 (MediaModel.push (usage BlogModel id "video")))) ms in
  Ok ({| events := events db; blogs := blogs'; media := ms |},
      {| code := 200; message := "Blog updated successfully"; data := Some blog |}).

(** [deleteBlog] (soft delete). *)
Definition deleteBlog (db : DB) (id : ObjectId) (now : Timestamp)
    : Result (DB * Response) :=
  blog0 ← orThrow (findById (blogs db) id false) (ApiError 404 "Blog not found");
  '(blogs', blog) ← softDelete blogSchema now (blogs db) id (hydrate blog0);
  let mediaIds := definedIds [heroImage blog; video blog] (gallery blog) in
  let ms :=
    when (bool_decide (0 < length mediaIds)%nat)
      (MediaModel.updateMany mediaIds (MediaModel.pull (sameEntity BlogModel id))) (media db) in
  Ok ({| events := events db; blogs := blogs'; media := ms |},
      {| code := 200; message := "Blog deleted successfully"; data := None |}).

(** [restoreBlog]. The three usage updates are started together and awaited
    with [Promise.all]; each is a single-document operator on the store, and
    they are applied here in the order in which they are issued. *)
Definition restoreBlog (db : DB) (id : ObjectId) (now : Timestamp)
    : Result (DB * Response) :=
  blog0 ← orThrow (findById (blogs db) id true) (ApiError 404 "Blog not found");
  if negb (isDeleted blog0) then Err (ApiError 400 "Blog is not deleted")
  else
    '(blogs', blog) ← restore blogSchema now (blogs db) id (hydrate blog0);
    let ms := media db in
    let ms :=
      whenSome (heroImage blog)
        (λ h, MediaModel.findByIdAndUpdate h
                (MediaModel.push (usage BlogModel id "heroImage"))) ms in
    let ms :=
      when (bool_decide (0 < length (gallery blog))%nat)
        (MediaModel.updateMany (gallery blog) (MediaModel.push (usage BlogModel id "gallery"))) ms in
    let ms :=
      whenSome (video blog)
        (λ v, MediaModel.findByIdAndUpdate v
                (MediaModel.push (usage BlogModel id "video"))) ms in
    Ok ({| events := events db; blogs := blogs'; media := ms |},
        {| code := 200; message := "Blog restored successfully"; data := Some blog |}).

(** [getBlog] and [getBlogBySlug]. *)
Definition getBlog (db : DB) (id : ObjectId) (admin : bool) (now : Timestamp)
    : Result (DB * Response) :=
  blog0 ← orThrow (findById (blogs db) id false) (ApiError 404 "Blog not found");
  if negb (bool_decide (status blog0 = published)) && negb admin
  then Err (ApiError 403 "Access denied")
  else if bool_decide (status blog0 = published) then
    let ed := assign "views" views set_views (views blog0 + 1)%Z (hydrate blog0) in
    '(blogs', blog) ← save blogSchema now (blogs db) id ed;
    Ok ({| events := events db; blogs := blogs'; media := media db |},
        {| code := 200; message := ""; data := Some blog |})
  else Ok (db, {| code := 200; message := ""; data := Some blog0 |}).

Definition getBlogBySlug (db : DB) (s : string) (now : Timestamp)
    : Result (DB * Response) :=
  '(id, blog0) ← orThrow (findOneBySlug (blogs db) s) (ApiError 404 "Blog not found");
  let ed := assign "views" views set_views (views blog0 + 1)%Z (hydrate blog0) in
  '(blogs', blog) ← save blogSchema now (blogs db) id ed;
  Ok ({| events := events db; blogs := blogs'; media := media db |},
      {| code := 200; message := ""; data := Some blog |}).

(** ** Media controller ([controllers/media.controller.js]) *)

(** [deleteMedia]. [unlink p] tells whether [deleteFile(p)] of
    [config/multer.js] resolves, that is whether [fs.unlink] reports no error
    other than [ENOENT]. A failure to remove the thumbnail is swallowed by
    [.catch(() => {})]. *)
Definition deleteMedia (unlink : string → bool) (db : DB) (id : ObjectId)
    : Result (DB * Response) :=
  m ← orThrow (MediaModel.findById (media db) id) (ApiError 404 "Media not found");
  (* Check if media is in use *)
  if MediaModel.isInUse m
  then Err (ApiError 400 "Cannot delete media that is currently in use")
  else if unlink (path m) then
    (* await media.deleteOne() *)
    Ok ({| events := events db; blogs := blogs db; media := delete id (media db) |},
        {| code := 200; message := "Media deleted successfully"; data := None |})
  else Err (ApiError 500 "Failed to delete media file").

(** ** Routes ([routes/event.routes.js], [routes/blog.routes.js]) *)

Context `{!JoiRules}.

(** [router.post('/', validateRequest(createSchema), createEvent)]. *)
Definition postEvent (db : DB) (body : Obj) (user newId : ObjectId)
    (now : Timestamp) : Result (DB * Response) :=
  value ← validateRequest EventValidator.createSchema body;
  createEvent db value user newId now.

(** [router.patch('/:id', validateRequest(updateSchema), updateEvent)]. *)
Definition patchEvent (db : DB) (id : ObjectId) (body : Obj) (user : ObjectId)
    (now : Timestamp) : Result (DB * Response) :=
  value ← validateRequest EventValidator.updateSchema body;
  updateEvent db id value user now.

Definition postBlog (db : DB) (body : Obj) (user newId : ObjectId)
    (now : Timestamp) : Result (DB * Response) :=
  value ← validateRequest BlogValidator.createSchema body;
  createBlog db value user newId now.

Definition patchBlog (db : DB) (id : ObjectId) (body : Obj) (user : ObjectId)
    (now : Timestamp) : Result (DB * Response) :=
  value ← validateRequest BlogValidator.updateSchema body;
  updateBlog db id value user now.

(** *** The server as a state machine *)

(** A request that reaches a content handler, with what the handler reads
    from its environment: the authenticated user, the generated [_id], the
    clock. The caller of the admin routes has passed [authenticate] and
    [authorize('admin')]. *)
Inductive Request : Type :=
| PostEvent (body : Obj) (user newId : ObjectId) (now : Timestamp)
| PatchEvent (id : ObjectId) (body : Obj) (user : ObjectId) (now : Timestamp)
| DeleteEvent (id : ObjectId) (now : Timestamp)
| RestoreEvent (id : ObjectId) (now : Timestamp)
| GetEvent (id : ObjectId) (admin : bool) (now : Timestamp)
| GetEventBySlug (s : string) (now : Timestamp)
| PostBlog (body : Obj) (user newId : ObjectId) (now : Timestamp)
| PatchBlog (id : ObjectId) (body : Obj) (user : ObjectId) (now : Timestamp)
| DeleteBlog (id : ObjectId) (now : Timestamp)
| RestoreBlog (id : ObjectId) (now : Timestamp)
| GetBlog (id : ObjectId) (admin : bool) (now : Timestamp)
| GetBlogBySlug (s : string) (now : Timestamp)
| DeleteMedia (unlink : string → bool) (id : ObjectId).

Definition handle (db : DB) (r : Request) : Result (DB * Response) :=
  match r with
  | PostEvent body user newId now => postEvent db body user newId now
  | PatchEvent id body user now => patchEvent db id body user now
  | DeleteEvent id now => deleteEvent db id now
  | RestoreEvent id now => restoreEvent db id now
  | GetEvent id admin now => getEvent db id admin now
  | GetEventBySlug s now => getEventBySlug db s now
  | PostBlog body user newId now => postBlog db body user newId now
  | PatchBlog id body user now => patchBlog db id body user now
  | DeleteBlog id now => deleteBlog db id now
  | RestoreBlog id now => restoreBlog db id now
  | GetBlog id admin now => getBlog db id admin now
  | GetBlogBySlug s now => getBlogBySlug db s now
  | DeleteMedia unlink id => deleteMedia unlink db id
  end.

(** The database after a request: a request that fails leaves it as it
    was (every handler above writes only after its last check). *)
Definition step (db : DB) (r : Request) : DB :=
  match handle db r with
  | Ok (db', _) => db'
  | Err _ => db
  end.

Definition run (db : DB) (rs : list Request) : DB := foldl step db rs.

End Controllers.

(** ** Error kinds

    The error kinds of the interface description, as the handlers signal
    them: by the status code of the [ApiError] and, for the two kinds that
    share status 400, by the message. A violation of a unique index is a
    conflict. *)
Inductive ErrorKind : Type :=
  NotFound | InvalidState | InUse | Conflict | Forbidden | Invalid | Failure.

Definition errorKind (e : Error) : ErrorKind :=
  match e with
  | ApiError 404 _ => NotFound
  | ApiError 400 "Event is not deleted" => InvalidState
  | ApiError 400 "Blog is not deleted" => InvalidState
  | ApiError 400 "Cannot delete media that is currently in use" => InUse
  | ApiError 403 _ => Forbidden
  | ApiError 409 _ => Conflict
  | DuplicateKey _ => Conflict
  | ApiError 400 _ => Invalid
  | JoiRejected => Invalid
  | ValidationError => Invalid
  | ApiError _ _ => Failure
  end.

(** ** Sample data

    A concrete instantiation of the library functions and small databases,
    used to run the handlers on explicit inputs. *)

Definition sampleExternals : Externals :=
  {| slugify := λ s, s; trim := λ s, s |}.

Definition sampleRules : JoiRules := λ _ _ _, true.

Definition sampleMedia (us : list Usage) (deleted : bool) : Media :=
  {| path := "/uploads/images/photo.png"; thumbnail := None; usedIn := us;
     m_isDeleted := deleted; m_deletedAt := if deleted then Some 1%N else None |}.

Definition sampleEvent (hero : option ObjectId) (gal : list ObjectId)
    (st : Status) (deleted : bool) : Content :=
  {| title := "Charity Gala"; slug := Some "charity-gala-1000"; status := st;
     heroImage := hero; gallery := gal; video := None; author := None;
     publishedAt := None; views := 0; createdBy := Some 7%N;
     updatedBy := Some 7%N; isDeleted := deleted;
     deletedAt := if deleted then Some 1500%N else None;
     details := [("type", VStr "normal"); ("description", VStr "Annual gala");
                 ("time", VStr "8:00 am - 12:30 pm"); ("location", VStr "Hall");
                 ("datetime", VNum 1700000000000)] |}.

Definition sampleBlog (hero : option ObjectId) (gal : list ObjectId)
    (vid : option ObjectId) (st : Status) (deleted : bool) : Content :=
  {| title := "Field notes"; slug := Some "field-notes-1000"; status := st;
     heroImage := hero; gallery := gal; video := vid; author := Some 7%N;
     publishedAt := None; views := 0; createdBy := Some 7%N;
     updatedBy := Some 7%N; isDeleted := deleted;
     deletedAt := if deleted then Some 1500%N else None;
     details := [("isFeatured", VBool false); ("excerpt", VStr "Notes");
                 ("content", VStr "Text"); ("category", VStr "news")] |}.

(** Asset 161 is the hero image of event 1, asset 162 is in its gallery,
    asset 163 is unused. *)
Definition galaDb : DB := {|
  events := {[ 1%N := sampleEvent (Some 161%N) [162%N] draft false ]};
  blogs := ∅;
  media := {[ 161%N := sampleMedia [usage EventModel 1 "heroImage"] false;
              162%N := sampleMedia [usage EventModel 1 "gallery"] false;
              163%N := sampleMedia [] false ]}
|}.

(** The same event after a soft delete: its usage entries are gone. *)
Definition deletedGalaDb : DB := {|
  events := {[ 1%N := sampleEvent (Some 161%N) [162%N] draft true ]};
  blogs := ∅;
  media := {[ 161%N := sampleMedia [] false;
              162%N := sampleMedia [] false;
              163%N := sampleMedia [] false ]}
|}.


(** Blog 2 with hero image 161, gallery asset 162 and video 164. *)
Definition notesDb : DB := {|
  events := ∅;
  blogs := {[ 2%N := sampleBlog (Some 161%N) [162%N] (Some 164%N) draft false ]};
  media := {[ 161%N := sampleMedia [usage BlogModel 2 "heroImage"] false;
              162%N := sampleMedia [usage BlogModel 2 "gallery"] false;
              163%N := sampleMedia [] false;
              164%N := sampleMedia [usage BlogModel 2 "video"] false ]}
|}.

Definition deletedNotesDb : DB := {|
  events := ∅;
  blogs := {[ 2%N := sampleBlog (Some 161%N) [162%N] (Some 164%N) draft true ]};
  media := {[ 161%N := sampleMedia [] false;
              162%N := sampleMedia [] false;
              164%N := sampleMedia [] false ]}
|}.

Definition galaBody : Obj :=
  [("title", VStr "Charity Gala"); ("description", VStr "Annual gala");
   ("time", VStr "8:00 am - 12:30 pm"); ("location", VStr "Hall");
   ("datetime", VNum 1700000000000);
   ("heroImage", VStr "0000000000000000000000a1")].

Definition emptyGalleryDb : DB := {|
  events := ∅; blogs := ∅;
  media := {[ 161%N := sampleMedia [] false; 163%N := sampleMedia [] false ]} |}.

Definition emptyDb : DB := {|
  events := ∅; blogs := ∅; media := {[ 161%N := sampleMedia [] false ]} |}.

(** The error a result carries, if any. *)
Definition thrown {A} (r : Result A) : option Error :=
  match r with Ok _ => None | Err e => Some e end.

(** ** Invariant I1 on one asset

    The media fields of a document, and the usage entries the entity must
    have on asset [m] when it is live: one for every field that holds [m]. *)
Definition eventFields (c : Content) : list (string * list ObjectId) :=
  [("heroImage", option_list (heroImage c)); ("gallery", gallery c)].

Definition blogFields (c : Content) : list (string * list ObjectId) :=
  [("heroImage", option_list (heroImage c)); ("gallery", gallery c);
   ("video", option_list (video c))].

Definition expectedUsages (mo : ModelName) (id : ObjectId)
    (fields : list (string * list ObjectId)) (m : ObjectId) : list Usage :=
  omap (λ fi, if decide (m ∈ fi.2) then Some (usage mo id fi.1) else None) fields.

(** The entries of entity [id] in [usedIn] are the expected ones, each once. *)
Definition tracksEntity (mo : ModelName) (id : ObjectId)
    (fields : list (string * list ObjectId)) (m : ObjectId) (med : Media) : Prop :=
  filter (sameEntity mo id) (usedIn med) ≡ₚ expectedUsages mo id fields m.

(** The assets a document references. *)
Definition eventRefs (c : Content) : list ObjectId :=
  definedIds [heroImage c] (gallery c).

Definition blogRefs (c : Content) : list ObjectId :=
  definedIds [heroImage c; video c] (gallery c).

(** ** Persistence of [publishedAt]

    Every document of [coll] that has a publication date is still in
    [coll'] with the same date. *)
Definition keepsPublishedAt (coll coll' : gmap N Content) : Prop :=
  ∀ k c t, coll !! k = Some c → publishedAt c = Some t →
           ∃ c', coll' !! k = Some c' ∧ publishedAt c' = Some t.

(** The string of a status, as a request body carries it. *)
Definition statusName (s : Status) : string :=
  match s with
  | draft => "draft"
  | published => "published"
  | archived => "archived"
  end.

(** A PATCH body that sets the status and nothing else. *)
Definition statusBody (s : Status) : Obj := [("status", VStr (statusName s))].

(** A PATCH body that moves the hero image to asset 163. *)
Definition heroBody : Obj := [("heroImage", VStr "0000000000000000000000a3")].

(** A PATCH body that also names fields the update schema does not declare. *)
Definition sneakyBody : Obj :=
  [("status", VStr "published"); ("views", VNum 1000); ("isDeleted", VBool true);
   ("publishedAt", VNum 5); ("slug", VStr "chosen-slug"); ("createdBy", VNull)].

(** Event 1 published at time 2000. *)
Definition publishedGalaDb : DB := {|
  events := {[ 1%N := set_publishedAt (Some 2000%N)
                        (sampleEvent (Some 161%N) [162%N] published false) ]};
  blogs := ∅;
  media := {[ 161%N := sampleMedia [usage EventModel 1 "heroImage"] false;
              162%N := sampleMedia [usage EventModel 1 "gallery"] false;
              163%N := sampleMedia [] false ]}
|}.

(** * More of the code: hooks, uploads, listings *)

(** ** [eventSchema.pre('save')]: the display fields of the date *)

Module EventHook.

Definition suffix : list string := ["th"; "st"; "nd"; "rd"].

(** [suffix[i]] for a number [i]: [undefined] unless [i] is an index. *)
Definition suffixAt (i : Z) : option string :=
  if decide (0 ≤ i)%Z then suffix !! Z.to_nat i else None.

(** [suffix[(v - 20) % 10] || suffix[v] || suffix[0]] with [v = day % 100].
    The remainder [%] takes the sign of the dividend; every element of
    [suffix] is a non-empty string, so [||] moves on exactly at
    [undefined]. *)
Definition ordinalSuffix (day : Z) : string :=
  let v := Z.rem day 100 in
  match suffixAt (Z.rem (v - 20) 10) with
  | Some s => s
  | None =>
      match suffixAt v with
      | Some s => s
      | None => match suffixAt 0 with Some s => s | None => "" end
      end
  end.

(** [this.dateDay = day + (...)], for [day = date.getDate()]. *)
Definition dateDay (day : Z) : string := pretty day +:+ ordinalSuffix day.

End EventHook.

(** ** [blogSchema.pre('save')]: the reading time *)

Module BlogHook.

(** A character is a code unit below 256; of the characters [\s] matches,
    these are the ones in that range: tab, line feed, vertical tab, form
    feed, carriage return, space, no-break space. *)
Definition isSpace (c : Ascii.ascii) : bool :=
  bool_decide (Ascii.N_of_ascii c ∈ [9; 10; 11; 12; 13; 32; 160]%N).

(** [content.split(/\s+/)]: the pieces between the maximal runs of white
    space. [cur] is the piece being read, [inRun] tells that the previous
    character was white space. A run at the start or at the end of the
    string has an empty piece on its outer side, and the empty string
    splits into one empty piece. *)
Fixpoint splitGo (inRun : bool) (cur : string) (s : string) : list string :=
  match s with
  | EmptyString => [cur]
  | String c s' =>
      if isSpace c then
        if inRun then splitGo true "" s' else cur :: splitGo true "" s'
      else splitGo false (cur +:+ String c "") s'
  end.

Definition split (s : string) : list string := splitGo false "" s.

(** [const wordCount = this.content.split(/\s+/).length;
     this.readTime = Math.ceil(wordCount / 200);] *)
Definition wordCount (content : string) : nat := length (split content).

Definition readTime (content : string) : nat := (wordCount content + 199) `div` 200.

End BlogHook.

(** Every character of [s] satisfies [p]. *)
Fixpoint allChars (p : Ascii.ascii → bool) (s : string) : bool :=
  match s with
  | EmptyString => true
  | String c s' => p c && allChars p s'
  end.


(** ** Uploads ([config/multer.js]) *)

Module Multer.
Import Stdlib.Strings.Ascii.

(** [path.extname], [path.basename] of Node's [path] module and
    [String.prototype.toLowerCase]. *)
Class PathLib : Type := {
  extname : string → string;
  basename : string → string → string;
  toLowerCase : string → string
}.

(** The character class [[a-z0-9]]. *)
Definition isLowerAlnum (c : Ascii.ascii) : bool :=
  let n := Ascii.N_of_ascii c in
  bool_decide (97 ≤ n ≤ 122)%N || bool_decide (48 ≤ n ≤ 57)%N.

(** [.replace(/[^a-z0-9]/g, '-')]. *)
Fixpoint replaceUnsafe (s : string) : string :=
  match s with
  | EmptyString => EmptyString
  | String c s' => String (if isLowerAlnum c then c else "-"%char) (replaceUnsafe s')
  end.

(** [storage.filename]; [now] is [Date.now()] and [random] is
    [Math.round(Math.random() * 1E9)]. *)
Definition filename `{!PathLib} (now : Timestamp) (random : N) (originalname : string)
    : string :=
  let uniqueSuffix := pretty now +:+ "-" +:+ pretty random in
  let ext := extname originalname in
  let name :=
    String.substring 0 50 (replaceUnsafe (toLowerCase (basename originalname ext))) in
  name +:+ "-" +:+ uniqueSuffix +:+ ext.

(** [s.split(',')]. *)
Fixpoint splitComma (cur : string) (s : string) : list string :=
  match s with
  | EmptyString => [cur]
  | String c s' =>
      if decide (c = ","%char) then cur :: splitComma "" s'
      else splitComma (cur +:+ String c "") s'
  end.

Definition defaultImageTypes : list string :=
  ["image/jpeg"; "image/png"; "image/gif"; "image/webp"].

Definition defaultVideoTypes : list string :=
  ["video/mp4"; "video/mpeg"; "video/quicktime"; "video/x-msvideo"].

(** [process.env.X?.split(',') || [...]]: the default when the variable is
    not set. *)
Definition typesOf (env : option string) (dflt : list string) : list string :=
  match env with
  | Some s => splitComma "" s
  | None => dflt
  end.

(** [fileFilter]: [true] accepts the file, [false] is the "Invalid file
    type" error. The two arguments are the environment variables
    [ALLOWED_IMAGE_TYPES] and [ALLOWED_VIDEO_TYPES]. *)
Definition fileFilter (envImages envVideos : option string) (mimetype : string) : bool :=
  let allowedImageTypes := typesOf envImages defaultImageTypes in
  let allowedVideoTypes := typesOf envVideos defaultVideoTypes in
  let allowedTypes := allowedImageTypes ++ allowedVideoTypes in
  bool_decide (mimetype ∈ allowedTypes).

(** [file.mimetype.startsWith('video/')], which chooses the upload folder
    in [storage.destination] and the type and URL in [uploadFiles]. *)
Definition isVideo (mimetype : string) : bool := String.prefix "video/" mimetype.

(** A character [storage.filename] lets through: [[a-z0-9]] or the dash
    that replaces every other one. *)
Definition isSafe (c : ascii) : bool := isLowerAlnum c || bool_decide (c = "-"%char).

(** A decimal digit. *)
Definition isDigit (c : ascii) : bool :=
  bool_decide (48 ≤ Ascii.N_of_ascii c ≤ 57)%N.

End Multer.

(** ** Listings ([getEvents], [getBlogs], [getCategories], [getMedia]) *)

(** The [status] of a validated query string: ['all'] or one of the three
    states. *)
Inductive StatusFilter : Type := AllStatuses | OnlyStatus (s : Status).

Global Instance StatusFilter_eq_dec : EqDecision StatusFilter.
Proof. solve_decision. Defined.

(** The conditions the list handlers put into the [query] object. *)
Inductive Cond : Type :=
| StatusIs (s : Status)                           (* [query.status = s] *)
| TypeIs (t : string)                             (* [query.type = t] *)
| DatetimeBetween (from to : option Timestamp)    (* [{ $gte: from, $lte: to }] *)
| SearchAny (paths : list string) (re : string)   (* [$or] of [{ $regex: re, $options: 'i' }] *)
| TagsIn (l : list string)                        (* [query.tags = { $in: l }] *)
| CategoryLike (re : string)                      (* [{ $regex: re, $options: 'i' }] *)
| FeaturedIs (b : bool).                          (* [query.isFeatured = b] *)

(** The conditions [getMedia] and [deleteUnusedMedia] use. *)
Inductive MediaCond : Type :=
| MediaTypeIs (t : string)    (* [query.type = t] *)
| Unused.                     (* [$or: [{ usedIn: { $size: 0 } }, { usedIn: { $exists: false } }]] *)

(** What the database does and the code does not show: matching a document
    against a condition on the paths kept in [details] (and the regular
    expressions), and ordering the result of a query by a sort key. A
    sorted result holds the same documents; the same query on the same
    collection gives the same order. *)
Class QueryEngine : Type := {
  detailHolds : Cond → Content → bool;
  mediaTypeHolds : string → Media → bool;
  sortContent : string → list (ObjectId * Content) → list (ObjectId * Content);
  sortMedia : string → list (ObjectId * Media) → list (ObjectId * Media);
  sortContent_perm : ∀ key l, sortContent key l ≡ₚ l;
  sortMedia_perm : ∀ key l, sortMedia key l ≡ₚ l
}.

Definition holds `{!QueryEngine} (q : Cond) (c : Content) : bool :=
  match q with
  | StatusIs s => bool_decide (status c = s)
  | _ => detailHolds q c
  end.

Definition mediaHolds `{!QueryEngine} (q : MediaCond) (m : Media) : bool :=
  match q with
  | MediaTypeIs t => mediaTypeHolds t m
  | Unused => bool_decide (usedIn m = [])
  end.

(** [Model.find(query).sort(key)]: the [pre(/^find/)] hook adds
    [isDeleted: { $ne: true }] to the conditions. *)
Definition findContent `{!QueryEngine} (coll : gmap N Content) (query : list Cond)
    (key : string) : list (ObjectId * Content) :=
  sortContent key
    (filter (λ kc, isDeleted kc.2 = false ∧ forallb (λ q, holds q kc.2) query = true)
            (map_to_list coll)).

(** [Model.countDocuments(query)]: the operation name does not start with
    "find", the hook does not run, and soft-deleted documents are counted. *)
Definition countContent `{!QueryEngine} (coll : gmap N Content) (query : list Cond) : nat :=
  length (filter (λ kc : ObjectId * Content, forallb (λ q, holds q kc.2) query = true)
                 (map_to_list coll)).

Definition findMedia `{!QueryEngine} (ms : gmap N Media) (query : list MediaCond)
    (key : string) : list (ObjectId * Media) :=
  sortMedia key
    (filter (λ km, m_isDeleted km.2 = false ∧ forallb (λ q, mediaHolds q km.2) query = true)
            (map_to_list ms)).

Definition countMedia `{!QueryEngine} (ms : gmap N Media) (query : list MediaCond) : nat :=
  length (filter (λ km : ObjectId * Media, forallb (λ q, mediaHolds q km.2) query = true)
                 (map_to_list ms)).

(** [Math.ceil(a / b)] for a count [a] and a positive [b]. *)
Definition ceilDiv (a b : Z) : Z := (- ((- a) `div` b))%Z.

(** The [pagination] object of a list response. *)
Record Pagination : Type := {
  pg_page : Z;
  pg_limit : Z;
  pg_total : Z;
  pg_pages : Z;
  pg_hasMore : bool
}.

Record Listing (A : Type) : Type := {
  items : list A;
  pagination : Pagination
}.
Arguments items {A} _.
Arguments pagination {A} _.

(** [.skip((page - 1) * limit).limit(parseInt(limit))] on a query result; a
    validated [page] is at least 1 and a validated [limit] is between 1 and
    100. *)
Definition pageOf {A} (page limit : Z) (l : list A) : list A :=
  let skip := ((page - 1) * limit)%Z in
  take (Z.to_nat limit) (drop (Z.to_nat skip) l).

(** [{ page: parseInt(page), limit: parseInt(limit), total,
       pages: Math.ceil(total / limit), hasMore: page * limit < total }]. *)
Definition paginationOf (page limit : Z) (total : nat) : Pagination :=
  {| pg_page := page; pg_limit := limit; pg_total := Z.of_nat total;
     pg_pages := ceilDiv (Z.of_nat total) limit;
     pg_hasMore := bool_decide (page * limit < Z.of_nat total)%Z |}.

(** [req.query] of [GET /events] after [validateQuery(querySchema)]. *)
Record EventQuery : Type := {
  eq_page : Z;
  eq_limit : Z;
  eq_status : StatusFilter;
  eq_type : option string;
  eq_search : option string;
  eq_tags : option string;
  eq_from : option Timestamp;
  eq_to : option Timestamp;
  eq_sort : string
}.

(** [req.query] of [GET /blogs]; [bq_featured] is the value the handler
    compares with the string ['true']. *)
Record BlogQuery : Type := {
  bq_page : Z;
  bq_limit : Z;
  bq_status : StatusFilter;
  bq_category : option string;
  bq_featured : option JsVal;
  bq_search : option string;
  bq_tags : option string;
  bq_sort : string
}.

(** [req.query] of [GET /media]; [mq_unused] is the value the handler
    compares with the string ['true']. *)
Record MediaQuery : Type := {
  mq_page : Z;
  mq_limit : Z;
  mq_type : option string;
  mq_unused : JsVal;
  mq_sort : string
}.

(** [v === s] for a string [s]: strict equality, no conversion. *)
Definition isString (v : JsVal) (s : string) : bool :=
  match v with
  | VStr s' => bool_decide (s' = s)
  | _ => false
  end.


(** [if (s) { ... }] for an optional string: absent and empty are falsy. *)
Definition whenGiven {A} (o : option string) (f : string → A) : list A :=
  match o with
  | Some s => if decide (s = "") then [] else [f s]
  | None => []
  end.

Section Listings.
Context `{!Externals} `{!QueryEngine}.

(** The status condition shared by [getEvents] and [getBlogs]: an admin
    sees the status asked for (any, for ['all']), everybody else sees
    published entries only. *)
Definition statusConds (admin : bool) (st : StatusFilter) : list Cond :=
  match st with
  | OnlyStatus s => if admin then [StatusIs s] else [StatusIs published]
  | AllStatuses => if admin then [] else [StatusIs published]
  end.

(** [tags.split(',').map(tag => tag.trim())]. *)
Definition tagArray (tags : string) : list string := trim <$> Multer.splitComma "" tags.

(** The [query] object [getEvents] builds; [admin] is
    [req.user?.role === 'admin']. *)
Definition eventConds (admin : bool) (q : EventQuery) : list Cond :=
  statusConds admin (eq_status q)
  ++ whenGiven (eq_type q) TypeIs
  ++ (if bool_decide (is_Some (eq_from q) ∨ is_Some (eq_to q))
      then [DatetimeBetween (eq_from q) (eq_to q)] else [])
  ++ whenGiven (eq_search q) (SearchAny ["title"; "description"; "location"])
  ++ whenGiven (eq_tags q) (λ tags, TagsIn (tagArray tags)).

(** [getEvents]. *)
Definition getEvents (db : DB) (admin : bool) (q : EventQuery)
    : Listing (ObjectId * Content) :=
  let query := eventConds admin q in
  let found := pageOf (eq_page q) (eq_limit q) (findContent (events db) query (eq_sort q)) in
  let total := countContent (events db) query in
  {| items := found; pagination := paginationOf (eq_page q) (eq_limit q) total |}.

(** The [query] object [getBlogs] builds. *)
Definition blogConds (admin : bool) (q : BlogQuery) : list Cond :=
  statusConds admin (bq_status q)
  ++ whenGiven (bq_category q) CategoryLike
  ++ (match bq_featured q with
      | Some featured => [FeaturedIs (isString featured "true")]
      | None => []
      end)
  ++ whenGiven (bq_search q) (SearchAny ["title"; "excerpt"; "content"])
  ++ whenGiven (bq_tags q) (λ tags, TagsIn (tagArray tags)).

(** [getBlogs]. *)
Definition getBlogs (db : DB) (admin : bool) (q : BlogQuery)
    : Listing (ObjectId * Content) :=
  let query := blogConds admin q in
  let found := pageOf (bq_page q) (bq_limit q) (findContent (blogs db) query (bq_sort q)) in
  let total := countContent (blogs db) query in
  {| items := found; pagination := paginationOf (bq_page q) (bq_limit q) total |}.

(** [getCategories]: [Blog.distinct('category', { status: 'published' })].
    [distinct] is no find operation either. The schema declares [category]
    as a string with [trim: true], which is how its values are stored. *)
Definition categoryOf (c : Content) : option string :=
  v ← objGet "category" (details c); trim <$> castString v.

Definition getCategories (db : DB) : list string :=
  remove_dups
    (omap (λ kc : ObjectId * Content,
             if bool_decide (status kc.2 = published) then categoryOf kc.2 else None)
          (map_to_list (blogs db))).

(** The [query] object [getMedia] builds. *)
Definition mediaConds (q : MediaQuery) : list MediaCond :=
  whenGiven (mq_type q) MediaTypeIs
  ++ (if isString (mq_unused q) "true" then [Unused] else []).

(** [getMedia]. *)
Definition getMedia (db : DB) (q : MediaQuery) : Listing (ObjectId * Media) :=
  let query := mediaConds q in
  let found := pageOf (mq_page q) (mq_limit q) (findMedia (media db) query (mq_sort q)) in
  let total := countMedia (media db) query in
  {| items := found; pagination := paginationOf (mq_page q) (mq_limit q) total |}.

(** [getMediaById]. *)
Definition getMediaById (db : DB) (id : ObjectId) : Result Media :=
  orThrow (MediaModel.findById (media db) id) (ApiError 404 "Media not found").

End Listings.

(** ** Bulk deletion and upload ([controllers/media.controller.js]) *)

(** The [data] of the response of [deleteUnusedMedia]; [bulk_errors] is
    [undefined] when no deletion failed. *)
Record BulkResponse : Type := {
  bulk_code : nat;
  bulk_message : string;
  bulk_deleted : nat;
  bulk_total : nat;
  bulk_errors : option (list ObjectId)
}.

(** One turn of the loop of [deleteUnusedMedia]: the file is removed, then
    the document; when the file cannot be removed the error is recorded
    and the document stays. *)
Definition deleteOneUnused (unlink : string → bool)
    (acc : gmap N Media * nat * list ObjectId) (km : ObjectId * Media)
    : gmap N Media * nat * list ObjectId :=
  let '(ms, deletedCount, errors) := acc in
  if unlink (path km.2) then (delete km.1 ms, S deletedCount, errors)
  else (ms, deletedCount, errors ++ [km.1]).

(** [deleteUnusedMedia]; [Media.find] goes through the hook. *)
Definition deleteUnusedMedia (unlink : string → bool) (db : DB) : DB * BulkResponse :=
  let unusedMedia :=
    filter (λ km : ObjectId * Media, m_isDeleted km.2 = false ∧ usedIn km.2 = [])
           (map_to_list (media db)) in
  let '(ms, deletedCount, errors) :=
    foldl (deleteOneUnused unlink) (media db, 0%nat, []) unusedMedia in
  ({| events := events db; blogs := blogs db; media := ms |},
   {| bulk_code := 200;
      bulk_message := pretty deletedCount +:+ " unused media files deleted";
      bulk_deleted := deletedCount;
      bulk_total := length unusedMedia;
      bulk_errors := if bool_decide (0 < length errors)%nat then Some errors else None |}).

(** A file as multer hands it to the handler. *)
Record File : Type := {
  f_filename : string;
  f_originalname : string;
  f_mimetype : string;
  f_size : Z;
  f_path : string
}.

(** The sharp package: [metadata p] is [sharp(p).metadata()] with its
    [width] and [height] ([None] when it throws), [resizeToFile p name]
    tells whether [sharp(p).resize(400, 300, { fit: 'cover' }).toFile(...)]
    for the thumbnail [name] succeeds. *)
Class Sharp : Type := {
  metadata : string → option (option Z * option Z);
  resizeToFile : string → string → bool
}.

(** [a > b] for a number [a] that may be [undefined]. *)
Definition exceeds (a : option Z) (b : Z) : bool :=
  match a with
  | Some n => bool_decide (b < n)%Z
  | None => false
  end.

Inductive MediaKind : Type := KImage | KVideo.

(** What [uploadFiles] hands to [Media.create] for one file: the stored
    document, and the fields of it that the [Media] record leaves out. *)
Record Uploaded : Type := {
  up_id : ObjectId;
  up_doc : Media;
  up_url : string;
  up_kind : MediaKind;
  up_dimensions : option (option Z * option Z)
}.

Record UploadResponse : Type := {
  upr_code : nat;
  upr_message : string;
  upr_media : list Uploaded
}.

Section Upload.
Context `{!Sharp}.

(** The body of the loop of [uploadFiles] up to [Media.create]. An error
    of sharp is caught and logged: what was set before it stays set. *)
Definition mediaData (newId : ObjectId) (file : File) : Uploaded :=
  let isVideo := Multer.isVideo (f_mimetype file) in
  let url := "/uploads/" +:+ (if isVideo then "videos" else "images") +:+ "/"
             +:+ f_filename file in
  let '(dimensions, thumbnail) :=
    if isVideo then (None, None)
    else
      match metadata (f_path file) with
      | None => (None, None)
      | Some (width, height) =>
          (Some (width, height),
           if exceeds width 1920 || exceeds height 1080 then
             let thumbnailName := "thumb-" +:+ f_filename file in
             if resizeToFile (f_path file) thumbnailName
             then Some ("/uploads/images/" +:+ thumbnailName)
             else None
           else None)
      end in
  {| up_id := newId;
     up_doc := {| path := f_path file; thumbnail := thumbnail; usedIn := [];
                  m_isDeleted := false; m_deletedAt := None |};
     up_url := url;
     up_kind := if isVideo then KVideo else KImage;
     up_dimensions := dimensions |}.

(** [Media.create(mediaData)] runs the validators of the schema. Of the
    required paths, [url], [type], [size] and [uploadedBy] are always set
    here; the strings taken from the file must not be empty. *)
Definition mediaValid (file : File) : bool :=
  negb (bool_decide (f_filename file = ""))
  && negb (bool_decide (f_originalname file = ""))
  && negb (bool_decide (f_mimetype file = ""))
  && negb (bool_decide (f_path file = "")).

(** The loop of [uploadFiles]: the documents are created one after the
    other. When a creation is rejected the loop is left, and what was
    created before stays in the collection. *)
Fixpoint uploadLoop (ms : gmap N Media) (uploadedMedia : list Uploaded)
    (files : list (ObjectId * File)) : gmap N Media * Result (list Uploaded) :=
  match files with
  | [] => (ms, Ok uploadedMedia)
  | (newId, file) :: rest =>
      if negb (mediaValid file) then (ms, Err ValidationError)
      else if bool_decide (is_Some (ms !! newId)) then (ms, Err (DuplicateKey "_id"))
      else
        let media := mediaData newId file in
        uploadLoop (<[newId := up_doc media]> ms) (uploadedMedia ++ [media]) rest
  end.

(** [uploadFiles]; [files] pairs every file of [req.files] with the [_id]
    generated for its document. The [catch] block removes the files of the
    request from the disk and throws the error again; it does not touch the
    collection. *)
Definition uploadFiles (db : DB) (files : list (ObjectId * File))
    : DB * Result UploadResponse :=
  if bool_decide (length files = 0%nat) then (db, Err (ApiError 400 "No files uploaded"))
  else
    let '(ms, r) := uploadLoop (media db) [] files in
    ({| events := events db; blogs := blogs db; media := ms |},
     match r with
     | Ok uploadedMedia =>
         Ok {| upr_code := 201;
               upr_message := pretty (length uploadedMedia)
                              +:+ " file(s) uploaded successfully";
               upr_media := uploadedMedia |}
     | Err e => Err e
     end).

End Upload.

(** ** What the requests keep *)

(** [f] changes nothing but [usedIn]. *)
Definition usageOnly (f : Media → Media) : Prop :=
  ∀ m, setUsedIn (usedIn m) (f m) = m.

(** [ms'] holds the assets of [ms] and no other, each with the path, the
    thumbnail and the deletion state it has in [ms]. *)
Definition sameAssets (ms ms' : gmap N Media) : Prop :=
  ∀ k, match ms !! k, ms' !! k with
       | Some m, Some m' => setUsedIn (usedIn m) m' = m
       | None, None => True
       | _, _ => False
       end.

(** The collection of a model, and the requests of the content routes by
    model. *)
Definition collection (mo : ModelName) (db : DB) : gmap N Content :=
  match mo with EventModel => events db | BlogModel => blogs db end.

Definition PostReq (mo : ModelName) body user newId now : Request :=
  match mo with
  | EventModel => PostEvent body user newId now
  | BlogModel => PostBlog body user newId now
  end.
Definition PatchReq (mo : ModelName) id body user now : Request :=
  match mo with
  | EventModel => PatchEvent id body user now
  | BlogModel => PatchBlog id body user now
  end.
Definition DeleteReq (mo : ModelName) id now : Request :=
  match mo with EventModel => DeleteEvent id now | BlogModel => DeleteBlog id now end.
Definition RestoreReq (mo : ModelName) id now : Request :=
  match mo with EventModel => RestoreEvent id now | BlogModel => RestoreBlog id now end.
Definition GetReq (mo : ModelName) id admin now : Request :=
  match mo with
  | EventModel => GetEvent id admin now
  | BlogModel => GetBlog id admin now
  end.
Definition GetBySlugReq (mo : ModelName) s now : Request :=
  match mo with
  | EventModel => GetEventBySlug s now
  | BlogModel => GetBlogBySlug s now
  end.

(** [Writes mo coll r id d]: request [r] stores [d] under [id] in the
    collection [coll] of model [mo]. One case per handler that saves. *)
Inductive Writes (mo : ModelName) (coll : gmap N Content)
    : Request → ObjectId → Content → Prop :=
| W_create body user id now d :
    coll !! id = None → slugTaken coll id (slug d) = false →
    Writes mo coll (PostReq mo body user id now) id d
| W_patch id body user now c d :
    coll !! id = Some c → isDeleted c = false →
    views d = views c → createdBy d = createdBy c →
    isDeleted d = false → deletedAt d = deletedAt c →
    slug d = slug c ∨ slugTaken coll id (slug d) = false →
    Writes mo coll (PatchReq mo id body user now) id d
| W_delete id now c :
    coll !! id = Some c → isDeleted c = false →
    Writes mo coll (DeleteReq mo id now) id (set_deletedAt (Some now) (set_isDeleted true c))
| W_restore id now c :
    coll !! id = Some c → isDeleted c = true →
    Writes mo coll (RestoreReq mo id now) id (set_deletedAt None (set_isDeleted false c))
| W_get id admin now c :
    coll !! id = Some c → isDeleted c = false → status c = published →
    Writes mo coll (GetReq mo id admin now) id (set_views (views c + 1)%Z c)
| W_getBySlug s now id c :
    coll !! id = Some c → isDeleted c = false → status c = published →
    slug c = Some s →
    Writes mo coll (GetBySlugReq mo s now) id (set_views (views c + 1)%Z c).

(** The unique index on [slug] holds of a collection. *)
Definition uniqueSlugs (coll : gmap N Content) : Prop :=
  ∀ k1 k2 c1 c2, coll !! k1 = Some c1 → coll !! k2 = Some c2 →
                 slug c1 = slug c2 → k1 = k2.

(** ** More sample data *)

(** A database engine for the samples: [isFeatured] is read from the
    document, every other condition on [details] holds, and results come in
    the order of the ids. *)
Definition sampleFeatured (b : bool) (c : Content) : bool :=
  match objGet "isFeatured" (details c) with
  | Some (VBool b') => Bool.eqb b b'
  | _ => false
  end.

Definition sampleEngine : QueryEngine := {|
  detailHolds := λ q c, match q with FeaturedIs b => sampleFeatured b c | _ => true end;
  mediaTypeHolds := λ _ _, true;
  sortContent := λ _ l, l;
  sortMedia := λ _ l, l;
  sortContent_perm := λ _ l, Permutation_refl l;
  sortMedia_perm := λ _ l, Permutation_refl l
|}.

(** [path] for lower-case names that end in [.png]. *)
Definition samplePathLib : Multer.PathLib := {|
  Multer.extname := λ _, ".png";
  Multer.basename := λ s _, String.substring 0 (String.length s - 4) s;
  Multer.toLowerCase := λ s, s
|}.

Definition sampleSharp : Sharp := {|
  metadata := λ _, Some (Some 800%Z, Some 600%Z);
  resizeToFile := λ _ _, true
|}.

Definition sampleFile : File := {|
  f_filename := "photo-1000-42.png"; f_originalname := "photo.png";
  f_mimetype := "image/png"; f_size := 2048;
  f_path := "/uploads/images/photo-1000-42.png"
|}.

(** A file that was sent without a name. *)
Definition namelessFile : File := {|
  f_filename := "-1000-43"; f_originalname := "";
  f_mimetype := "image/png"; f_size := 2048;
  f_path := "/uploads/images/-1000-43"
|}.

Definition firstPage : EventQuery := {|
  eq_page := 1; eq_limit := 10; eq_status := AllStatuses; eq_type := None;
  eq_search := None; eq_tags := None; eq_from := None; eq_to := None;
  eq_sort := "-datetime"
|}.

Definition featuredPage (v : JsVal) : BlogQuery := {|
  bq_page := 1; bq_limit := 10; bq_status := AllStatuses; bq_category := None;
  bq_featured := Some v; bq_search := None; bq_tags := None;
  bq_sort := "-publishedAt"
|}.

Definition mediaPage (v : JsVal) : MediaQuery := {|
  mq_page := 1; mq_limit := 20; mq_type := None; mq_unused := v;
  mq_sort := "-createdAt"
|}.

(** Blog 2 published; it is not featured. *)
Definition publishedNotesDb : DB := {|
  events := ∅;
  blogs := {[ 2%N := sampleBlog (Some 161%N) [162%N] (Some 164%N) published false ]};
  media := media notesDb
|}.

(** Blog 2 published and then soft-deleted. *)
Definition withdrawnNotesDb : DB := {|
  events := ∅;
  blogs := {[ 2%N := sampleBlog (Some 161%N) [162%N] (Some 164%N) published true ]};
  media := media deletedNotesDb
|}.

(** * Properties *)

#[local] Set Warnings "-clear-no-such-hyp".

Ltac split_decide :=
  repeat match goal with
         | |- context [decide ?P] => destruct (decide P)
         | H : context [decide ?P] |- _ => destruct (decide P)
         end.

Ltac split_conj := repeat match goal with |- _ ∧ _ => split end.

(** One branch of [docSet]: the cast succeeded and the value was assigned. *)
Ltac docSet_branch Hs :=
  try (destruct (blogPaths _));
  try (apply bind_Some in Hs as (? & _ & Hs));
  injection Hs as <-.

(** ** The media store *)

Section MediaFacts.
Implicit Types (ms : gmap N Media) (m : Media) (u : Usage).

Lemma usedIn_push u m : usedIn (MediaModel.push u m) = usedIn m ++ [u].
Proof. reflexivity. Qed.

Lemma usedIn_pull (P : Usage → Prop) `{∀ u, Decision (P u)} m :
  usedIn (MediaModel.pull P m) = filter (λ u, ¬ P u) (usedIn m).
Proof. reflexivity. Qed.

Lemma deleted_push u m : m_isDeleted (MediaModel.push u m) = m_isDeleted m.
Proof. reflexivity. Qed.

Lemma deleted_pull (P : Usage → Prop) `{∀ u, Decision (P u)} m :
  m_isDeleted (MediaModel.pull P m) = m_isDeleted m.
Proof. reflexivity. Qed.

Lemma deleted_when_push (c : bool) u m :
  m_isDeleted (when c (MediaModel.push u) m) = m_isDeleted m.
Proof. by destruct c. Qed.

Lemma deleted_when_pull (c : bool) (Q : Usage → Prop) `{∀ u, Decision (Q u)} m :
  m_isDeleted (when c (MediaModel.pull Q) m) = m_isDeleted m.
Proof. by destruct c. Qed.

Lemma setUsedIn_when_push us (c : bool) u m :
  setUsedIn us (when c (MediaModel.push u) m) = setUsedIn us m.
Proof. by destruct c. Qed.

Lemma setUsedIn_when_pull us (c : bool) (Q : Usage → Prop) `{∀ u, Decision (Q u)} m :
  setUsedIn us (when c (MediaModel.pull Q) m) = setUsedIn us m.
Proof. by destruct c. Qed.

Lemma setUsedIn_id m : setUsedIn (usedIn m) m = m.
Proof. by destruct m. Qed.

Lemma setUsedIn_setUsedIn us us' m : setUsedIn us (setUsedIn us' m) = setUsedIn us m.
Proof. reflexivity. Qed.

Lemma setUsedIn_push us u m : setUsedIn us (MediaModel.push u m) = setUsedIn us m.
Proof. reflexivity. Qed.

Lemma setUsedIn_pull us (P : Usage → Prop) `{∀ u, Decision (P u)} m :
  setUsedIn us (MediaModel.pull P m) = setUsedIn us m.
Proof. reflexivity. Qed.

(** A find-and-update touches the one document with that id, and only if
    the find hook lets the query see it. *)
Lemma lookup_findByIdAndUpdate a f ms k :
  MediaModel.findByIdAndUpdate a f ms !! k
  = (λ m, if decide (k = a ∧ m_isDeleted m = false) then f m else m) <$> ms !! k.
Proof.
  unfold MediaModel.findByIdAndUpdate, MediaModel.findById.
  destruct (ms !! a) as [m|] eqn:Ha.
  - destruct (m_isDeleted m) eqn:Hd.
    + destruct (ms !! k) as [m'|] eqn:Hk; simpl; [|done].
      case_decide as Hc; [|done]. destruct Hc as [-> Hl]. congruence.
    + destruct (decide (k = a)) as [->|Hne].
      * rewrite lookup_insert_eq, Ha. simpl. by rewrite decide_True.
      * rewrite lookup_insert_ne by done. destruct (ms !! k); simpl; [|done].
        rewrite decide_False; [done|]. by intros [? _].
  - destruct (ms !! k) as [m'|] eqn:Hk; simpl; [|done].
    case_decide as Hc; [|done]. destruct Hc as [-> _]. congruence.
Qed.

(** An update-many touches every stored document whose id is listed. *)
Lemma lookup_updateMany ids f ms k :
  MediaModel.updateMany ids f ms !! k
  = (λ m, if decide (k ∈ ids) then f m else m) <$> ms !! k.
Proof.
  unfold MediaModel.updateMany. rewrite map_lookup_imap.
  by destruct (ms !! k).
Qed.

(** The guarded updates of the handlers, asset by asset. *)
Lemma when_True {A} (P : Prop) `{Decision P} (f : A → A) (a : A) :
  P → when (bool_decide P) f a = f a.
Proof. intros HP. unfold when. by rewrite bool_decide_eq_true_2. Qed.

Lemma when_False {A} (P : Prop) `{Decision P} (f : A → A) (a : A) :
  ¬ P → when (bool_decide P) f a = a.
Proof. intros HP. unfold when. by rewrite bool_decide_eq_false_2. Qed.

Lemma when_ext {A} (P Q : Prop) `{Decision P} `{Decision Q} (f : A → A) (a : A) :
  (P ↔ Q) → when (bool_decide P) f a = when (bool_decide Q) f a.
Proof. intros HPQ. unfold when. by rewrite (bool_decide_ext P Q). Qed.

Lemma lookup_findByIdAndUpdate_opt (o : option ObjectId) f ms k :
  whenSome o (λ a, MediaModel.findByIdAndUpdate a f) ms !! k
  = (λ m, when (bool_decide (o = Some k ∧ m_isDeleted m = false)) f m) <$> ms !! k.
Proof.
  unfold whenSome. destruct o as [a|].
  - rewrite lookup_findByIdAndUpdate. destruct (ms !! k) as [m|]; simpl; [|done].
    f_equal. unfold when. rewrite <- decide_bool_decide. apply decide_ext. naive_solver.
  - by destruct (ms !! k).
Qed.

(** The hero image and video updates of the update handlers: the old asset
    when the reference moved away from it, the new one when it moved to it. *)
Lemma lookup_findByIdAndUpdate_moved (o o' : option ObjectId) f ms k :
  whenSome o (λ a, when (bool_decide (o' ≠ Some a)) (MediaModel.findByIdAndUpdate a f))
    ms !! k
  = (λ m, when (bool_decide (o = Some k ∧ o' ≠ Some k ∧ m_isDeleted m = false)) f m)
    <$> ms !! k.
Proof.
  unfold whenSome. destruct o as [a|].
  - destruct (decide (o' ≠ Some a)) as [Hne|He].
    + rewrite when_True by done. rewrite lookup_findByIdAndUpdate.
      destruct (ms !! k) as [m|]; simpl; [|done].
      f_equal. unfold when. rewrite <- decide_bool_decide. apply decide_ext. naive_solver.
    + rewrite when_False by done. destruct (ms !! k) as [m|]; simpl; [|done].
      by rewrite when_False by naive_solver.
  - by destruct (ms !! k).
Qed.

Lemma updateMany_nil f ms : MediaModel.updateMany [] f ms = ms.
Proof.
  apply map_eq. intros k. rewrite lookup_updateMany.
  by destruct (ms !! k).
Qed.

(** The guard [ids.length > 0] in front of an update-many changes nothing. *)
Lemma lookup_updateMany_guarded ids f ms k :
  when (bool_decide (0 < length ids)%nat) (MediaModel.updateMany ids f) ms !! k
  = (λ m, when (bool_decide (k ∈ ids)) f m) <$> ms !! k.
Proof.
  destruct (decide (0 < length ids)%nat) as [Hl|Hl].
  - rewrite when_True by done. rewrite lookup_updateMany.
    destruct (ms !! k) as [m|]; simpl; [|done].
    f_equal. unfold when. by rewrite <- decide_bool_decide.
  - rewrite when_False by done. destruct ids; [|simpl in Hl; lia].
    by destruct (ms !! k).
Qed.

(** *** The model methods and the update operators as list operations *)

Lemma addUsage_present mo id f m :
  Exists (sameUsage mo id f) (usedIn m) → MediaModel.addUsage mo id f m = m.
Proof. intros He. unfold MediaModel.addUsage. by rewrite bool_decide_eq_true_2. Qed.

Lemma addUsage_absent mo id f m :
  ¬ Exists (sameUsage mo id f) (usedIn m) →
  MediaModel.addUsage mo id f m = MediaModel.push (usage mo id f) m.
Proof. intros He. unfold MediaModel.addUsage. by rewrite bool_decide_eq_false_2. Qed.

Lemma addUsage_Exists mo id f m :
  Exists (sameUsage mo id f) (usedIn (MediaModel.addUsage mo id f m)).
Proof.
  destruct (decide (Exists (sameUsage mo id f) (usedIn m))) as [He|He].
  - by rewrite addUsage_present.
  - rewrite addUsage_absent by done. rewrite usedIn_push.
    apply Exists_app. right. by constructor.
Qed.

(** [addUsage] is idempotent. *)
Lemma addUsage_idempotent mo id f m :
  MediaModel.addUsage mo id f (MediaModel.addUsage mo id f m)
  = MediaModel.addUsage mo id f m.
Proof. apply addUsage_present, addUsage_Exists. Qed.

Lemma filter_id_Forall {A} (P : A → Prop) `{∀ x, Decision (P x)} (l : list A) :
  Forall P l → filter P l = l.
Proof.
  induction 1 as [|x l Hx _ IH]; [done|].
  by rewrite filter_cons_True, IH.
Qed.

(** [removeUsage] of a tuple that is absent changes nothing, and
    [removeUsage] is idempotent. *)
Lemma removeUsage_absent mo id f m :
  ¬ Exists (sameUsage mo id f) (usedIn m) → MediaModel.removeUsage mo id f m = m.
Proof.
  intros He. unfold MediaModel.removeUsage.
  rewrite filter_id_Forall; [apply setUsedIn_id|].
  by apply Forall_Exists_neg.
Qed.

Lemma removeUsage_idempotent mo id f m :
  MediaModel.removeUsage mo id f (MediaModel.removeUsage mo id f m)
  = MediaModel.removeUsage mo id f m.
Proof.
  unfold MediaModel.removeUsage. simpl. rewrite setUsedIn_setUsedIn. f_equal.
  apply filter_id_Forall, Forall_forall. intros u Hu.
  apply list_elem_of_filter in Hu. tauto.
Qed.

(** [$pull] removes every match: pulling again, or pulling what is absent,
    changes nothing. *)
Lemma pull_absent (P : Usage → Prop) `{∀ u, Decision (P u)} m :
  Forall (λ u, ¬ P u) (usedIn m) → MediaModel.pull P m = m.
Proof.
  intros Hf. unfold MediaModel.pull. rewrite filter_id_Forall by done.
  apply setUsedIn_id.
Qed.

Lemma pull_idempotent (P : Usage → Prop) `{∀ u, Decision (P u)} m :
  MediaModel.pull P (MediaModel.pull P m) = MediaModel.pull P m.
Proof.
  apply pull_absent. rewrite usedIn_pull. apply Forall_forall. intros u Hu.
  apply list_elem_of_filter in Hu. tauto.
Qed.

(** [$push] appends whether or not the tuple is there. *)
Lemma push_push_length u m :
  length (usedIn (MediaModel.push u (MediaModel.push u m)))
  = S (length (usedIn (MediaModel.push u m))).
Proof. rewrite !usedIn_push, !length_app. simpl. lia. Qed.



End MediaFacts.

(** ** Documents, change tracking and [save()] *)

Section DocumentFacts.
Context `{!Externals}.
Implicit Types (ed : Editing) (c : Content) (S : Schema).

Lemma elem_of_modified_assign {A} `{EqDecision A} q p (get : Content → A) set v ed :
  q ∈ modified (assign p get set v ed)
  ↔ q ∈ modified ed ∨ (q = p ∧ (isNew ed = true ∨ get (doc ed) ≠ v)).
Proof.
  unfold assign; simpl. destruct (isNew ed); simpl.
  - set_solver.
  - case_bool_decide; simpl; set_solver.
Qed.

Lemma isModified_assign_ne {A} `{EqDecision A} q p (get : Content → A) set v ed :
  q ≠ p → isModified q (assign p get set v ed) = isModified q ed.
Proof.
  intros Hne. unfold isModified. apply bool_decide_ext.
  rewrite elem_of_modified_assign. naive_solver.
Qed.

(** Setting one property leaves the other tracked paths alone, and marks
    no other path modified. *)
Lemma docSet_frame S k v ed ed' :
  docSet S k v ed = Some ed' →
  isNew ed' = isNew ed
  ∧ (k ≠ "slug" → slug (doc ed') = slug (doc ed))
  ∧ (k ≠ "publishedAt" → publishedAt (doc ed') = publishedAt (doc ed))
  ∧ (k ≠ "views" → views (doc ed') = views (doc ed))
  ∧ (k ≠ "createdBy" → createdBy (doc ed') = createdBy (doc ed))
  ∧ (k ≠ "isDeleted" → isDeleted (doc ed') = isDeleted (doc ed))
  ∧ (k ≠ "deletedAt" → deletedAt (doc ed') = deletedAt (doc ed))
  ∧ (k ≠ "title" → title (doc ed') = title (doc ed))
  ∧ (k ≠ "status" → status (doc ed') = status (doc ed))
  ∧ (∀ p, p ≠ k → (p ∈ modified ed' ↔ p ∈ modified ed))
  ∧ (∀ p, p ∈ modified ed → p ∈ modified ed').
Proof.
  unfold docSet. intros Hs.
  assert (∀ {A} `{EqDecision A} (get : Content → A) set x p,
            p ≠ k → (p ∈ modified (assign k get set x ed) ↔ p ∈ modified ed)) as Hm.
  { intros. rewrite elem_of_modified_assign. naive_solver. }
  assert (∀ {A} `{EqDecision A} (get : Content → A) set x p,
            p ∈ modified ed → p ∈ modified (assign k get set x ed)) as Hi.
  { intros. rewrite elem_of_modified_assign. by left. }
  repeat (destruct (decide (k = _)) as [Hk|Hk] in Hs;
          [docSet_branch Hs; split_conj; try done;
           intros; first [by apply Hm|by apply Hi]|clear Hk]).
  destruct (decide (k ∈ detailPaths S)); injection Hs as <-;
    split_conj; try done; intros p Hp; simpl; set_solver.
Qed.

(** On a new document every property that is set is marked modified. *)
Lemma docSet_title_new S v ed ed' :
  docSet S "title" v ed = Some ed' → isNew ed = true → "title" ∈ modified ed'.
Proof.
  intros Hs Hn. unfold docSet in Hs. rewrite decide_True in Hs by done.
  destruct (castString v) as [s|]; simpl in Hs; [|done]. injection Hs as <-.
  rewrite elem_of_modified_assign, Hn. right. split; [done|by left].
Qed.

Lemma objectAssign_title_new S o ed ed' :
  objectAssign S o ed = Some ed' → isNew ed = true →
  "title" ∈ modified ed' ∨ (title (doc ed') = title (doc ed) ∧ "title" ∉ modified ed').
Proof.
  revert ed. induction o as [|[k v] o IH]; intros ed Hs Hn; simpl in Hs.
  - injection Hs as <-. destruct (decide ("title" ∈ modified ed)); auto.
  - destruct (docSet S k v ed) as [ed1|] eqn:H1; simpl in Hs; [|done].
    pose proof (docSet_frame _ _ _ _ _ H1)
      as (Hn1 & _ & _ & _ & _ & _ & _ & Ht & _ & _ & Hmono).
    rewrite Hn in Hn1. destruct (IH _ Hs Hn1) as [Hm|[Ht' Hm]]; [by left|].
    destruct (decide (k = "title")) as [->|Hk].
    + left. apply (docSet_title_new _ _ _ _ H1) in Hn as Hin.
      clear -Hs Hin. revert ed1 Hs Hin.
      induction o as [|[k' v'] o IHo]; intros ed1 Hs Hin; simpl in Hs.
      * by injection Hs as <-.
      * destruct (docSet S k' v' ed1) as [ed2|] eqn:H2; simpl in Hs; [|done].
        apply (IHo ed2); [done|].
        by apply (docSet_frame _ _ _ _ _ H2).
    + right. split; [|done]. rewrite Ht'. by apply Ht.
Qed.

Lemma docSet_status_new S v ed ed' :
  docSet S "status" v ed = Some ed' → isNew ed = true → "status" ∈ modified ed'.
Proof.
  intros Hs Hn. unfold docSet in Hs.
  rewrite !decide_False in Hs by done. rewrite decide_True in Hs by done.
  destruct (castStatus v) as [s|]; simpl in Hs; [|done]. injection Hs as <-.
  rewrite elem_of_modified_assign, Hn. right. split; [done|by left].
Qed.

Lemma objectAssign_modified_mono S o ed ed' p :
  objectAssign S o ed = Some ed' → p ∈ modified ed → p ∈ modified ed'.
Proof.
  revert ed. induction o as [|[k v] o IH]; intros ed Hs Hin; simpl in Hs.
  - by injection Hs as <-.
  - destruct (docSet S k v ed) as [ed1|] eqn:H1; simpl in Hs; [|done].
    apply (IH ed1); [done|]. by apply (docSet_frame _ _ _ _ _ H1).
Qed.

Lemma objectAssign_status_new S o ed ed' :
  objectAssign S o ed = Some ed' → isNew ed = true →
  "status" ∈ modified ed' ∨ status (doc ed') = status (doc ed).
Proof.
  revert ed. induction o as [|[k v] o IH]; intros ed Hs Hn; simpl in Hs.
  - injection Hs as <-. by right.
  - destruct (docSet S k v ed) as [ed1|] eqn:H1; simpl in Hs; [|done].
    pose proof (docSet_frame _ _ _ _ _ H1)
      as (Hn1 & _ & _ & _ & _ & _ & _ & _ & Hst & _ & _).
    rewrite Hn in Hn1. destruct (IH _ Hs Hn1) as [Hm|Hst']; [by left|].
    destruct (decide (k = "status")) as [->|Hk].
    + left. apply (objectAssign_modified_mono _ _ _ _ _ Hs).
      by apply (docSet_status_new _ _ _ _ H1).
    + right. rewrite Hst'. by apply Hst.
Qed.

(** How setting a property acts on the title and on the status, the two
    paths the save hook asks [isModified] about. *)
Lemma docSet_title S k v ed ed' :
  docSet S k v ed = Some ed' → isNew ed = false →
  (k ≠ "title" →
     title (doc ed') = title (doc ed)
     ∧ ("title" ∈ modified ed' ↔ "title" ∈ modified ed))
  ∧ (k = "title" →
     ("title" ∈ modified ed'
      ↔ "title" ∈ modified ed ∨ title (doc ed') ≠ title (doc ed))).
Proof.
  intros Hs Hn. split.
  - intros Hk. apply docSet_frame in Hs as (_ & _ & _ & _ & _ & _ & _ & Ht & _ & Hm & _).
    split; [by apply Ht|]. apply Hm. congruence.
  - intros ->. unfold docSet in Hs. rewrite decide_True in Hs by done.
    destruct (castString v) as [s|]; simpl in Hs; [|done]. injection Hs as <-.
    rewrite elem_of_modified_assign, Hn. simpl. naive_solver.
Qed.

Lemma docSet_status S k v ed ed' :
  docSet S k v ed = Some ed' → isNew ed = false →
  (k ≠ "status" →
     status (doc ed') = status (doc ed)
     ∧ ("status" ∈ modified ed' ↔ "status" ∈ modified ed))
  ∧ (k = "status" →
     ("status" ∈ modified ed'
      ↔ "status" ∈ modified ed ∨ status (doc ed') ≠ status (doc ed))).
Proof.
  intros Hs Hn. split.
  - intros Hk. apply docSet_frame in Hs as (_ & _ & _ & _ & _ & _ & _ & _ & Ht & Hm & _).
    split; [by apply Ht|]. apply Hm. congruence.
  - intros ->. unfold docSet in Hs.
    rewrite !decide_False in Hs by done. rewrite decide_True in Hs by done.
    destruct (castStatus v) as [s|]; simpl in Hs; [|done]. injection Hs as <-.
    rewrite elem_of_modified_assign, Hn. simpl. naive_solver.
Qed.

Lemma objectAssign_isNew S o ed ed' :
  objectAssign S o ed = Some ed' → isNew ed' = isNew ed.
Proof.
  revert ed. induction o as [|[k v] o IH]; intros ed Hs; simpl in Hs.
  - by injection Hs as <-.
  - destruct (docSet S k v ed) as [ed1|] eqn:H1; simpl in Hs; [|done].
    rewrite (IH _ Hs). by apply docSet_frame in H1 as (-> & _).
Qed.


(** [Object.assign] with an object that has none of the protected keys
    leaves the protected paths as they were. *)
Lemma objectAssign_frame S o ed ed' :
  objectAssign S o ed = Some ed' →
  ("slug" ∉ keys o → slug (doc ed') = slug (doc ed))
  ∧ ("publishedAt" ∉ keys o → publishedAt (doc ed') = publishedAt (doc ed))
  ∧ ("views" ∉ keys o → views (doc ed') = views (doc ed))
  ∧ ("createdBy" ∉ keys o → createdBy (doc ed') = createdBy (doc ed))
  ∧ ("isDeleted" ∉ keys o → isDeleted (doc ed') = isDeleted (doc ed))
  ∧ ("deletedAt" ∉ keys o → deletedAt (doc ed') = deletedAt (doc ed)).
Proof.
  revert ed. induction o as [|[k v] o IH]; intros ed Hs; simpl in Hs.
  - injection Hs as <-. by repeat split.
  - destruct (docSet S k v ed) as [ed1|] eqn:H1; simpl in Hs; [|done].
    apply IH in Hs as (I1 & I2 & I3 & I4 & I5 & I6).
    apply docSet_frame in H1 as (_ & F1 & F2 & F3 & F4 & F5 & F6 & _).
    unfold keys in *. simpl.
    repeat split; intros Hk; apply not_elem_of_cons in Hk as [Hk1 Hk2].
    + rewrite I1, F1; done.
    + rewrite I2, F2; done.
    + rewrite I3, F3; done.
    + rewrite I4, F4; done.
    + rewrite I5, F5; done.
    + rewrite I6, F6; done.
Qed.

(** With each property given once, a tracked path is marked modified exactly
    when its value changed. *)
Lemma objectAssign_tracks {A} (p : string) (get : Content → A) S
    (Htrack : ∀ k v ed ed',
        docSet S k v ed = Some ed' → isNew ed = false →
        (k ≠ p → get (doc ed') = get (doc ed) ∧ (p ∈ modified ed' ↔ p ∈ modified ed))
        ∧ (k = p → (p ∈ modified ed' ↔ p ∈ modified ed ∨ get (doc ed') ≠ get (doc ed)))) :
  ∀ o ed ed',
    objectAssign S o ed = Some ed' → isNew ed = false →
    (p ∉ keys o → get (doc ed') = get (doc ed) ∧ (p ∈ modified ed' ↔ p ∈ modified ed))
    ∧ (NoDup (keys o) → p ∉ modified ed →
       (p ∈ modified ed' ↔ get (doc ed') ≠ get (doc ed))).
Proof.
  induction o as [|[k v] o IH]; intros ed ed' Hs Hn; simpl in Hs.
  - injection Hs as <-. split; [done|]. intros _ Hp. split; [done|]. by intros [].
  - destruct (docSet S k v ed) as [ed1|] eqn:H1; simpl in Hs; [|done].
    assert (isNew ed1 = false) as Hn1.
    { apply docSet_frame in H1 as (-> & _). done. }
    destruct (Htrack _ _ _ _ H1 Hn) as [Hne Heq].
    destruct (IH _ _ Hs Hn1) as [IHa IHb].
    unfold keys in *. simpl. split.
    + intros Hk. apply not_elem_of_cons in Hk as [Hk1 Hk2].
      destruct (Hne (not_eq_sym Hk1)) as [Hg Hm].
      destruct (IHa Hk2) as [Hg' Hm']. split; [congruence|tauto].
    + intros Hnd Hp. apply NoDup_cons in Hnd as [Hk Hnd].
      destruct (decide (k = p)) as [->|Hkp].
      * destruct (IHa Hk) as [Hg' Hm']. rewrite Hg', Hm', (Heq eq_refl). tauto.
      * destruct (Hne Hkp) as [Hg Hm]. rewrite <- Hg.
        apply IHb; [done|]. by rewrite Hm.
Qed.

Lemma objectAssign_title S o ed ed' :
  objectAssign S o ed = Some ed' → isNew ed = false →
  NoDup (keys o) → "title" ∉ modified ed →
  ("title" ∈ modified ed' ↔ title (doc ed') ≠ title (doc ed)).
Proof.
  intros Hs Hn. eapply (objectAssign_tracks "title" title S); eauto.
  intros k v e1 e2 H1 H2. by apply (docSet_title S k v).
Qed.

Lemma objectAssign_status S o ed ed' :
  objectAssign S o ed = Some ed' → isNew ed = false →
  NoDup (keys o) → "status" ∉ modified ed →
  ("status" ∈ modified ed' ↔ status (doc ed') ≠ status (doc ed)).
Proof.
  intros Hs Hn. eapply (objectAssign_tracks "status" status S); eauto.
  intros k v e1 e2 H1 H2. by apply (docSet_status S k v).
Qed.

Lemma keys_objSet k v (o : Obj) : keys (objSet k v o) ⊆ k :: keys o.
Proof.
  unfold keys. induction o as [|[k' v'] o IH]; simpl; [set_solver|].
  case_decide; simpl; set_solver.
Qed.

Lemma elem_of_keys_objSet k' k v (o : Obj) :
  k' ∈ keys (objSet k v o) ↔ k' = k ∨ k' ∈ keys o.
Proof.
  unfold keys. induction o as [|[k1 v1] o IH]; simpl; [set_solver|].
  case_decide; simpl; set_solver.
Qed.

Lemma NoDup_keys_objSet k v (o : Obj) : NoDup (keys o) → NoDup (keys (objSet k v o)).
Proof.
  unfold keys. induction o as [|[k1 v1] o IH]; simpl; intros Hnd.
  - apply NoDup_singleton.
  - apply NoDup_cons in Hnd as [Hk Hnd]. case_decide; simpl.
    + subst. by apply NoDup_cons.
    + apply NoDup_cons. split; [|by apply IH].
      intros Hin. apply (elem_of_keys_objSet k1 k v o) in Hin. naive_solver.
Qed.

(** *** The save hook *)

Lemma preSave_unmodified now ed :
  isModified "title" ed = false → isModified "status" ed = false →
  preSave now ed = ed.
Proof. intros Ht Hs. unfold preSave. by rewrite Ht, Hs. Qed.

(** The hook writes to [slug] and [publishedAt] only. *)
Lemma preSave_frame now ed :
  let d := doc ed in
  let d' := doc (preSave now ed) in
  title d' = title d ∧ status d' = status d ∧ heroImage d' = heroImage d
  ∧ gallery d' = gallery d ∧ video d' = video d ∧ author d' = author d
  ∧ views d' = views d ∧ createdBy d' = createdBy d ∧ updatedBy d' = updatedBy d
  ∧ isDeleted d' = isDeleted d ∧ deletedAt d' = deletedAt d
  ∧ details d' = details d.
Proof. unfold preSave. repeat case_match; simpl; by repeat split. Qed.

Lemma preSave_slug now ed :
  slug (doc (preSave now ed))
  = if isModified "title" ed
    then Some (slugify (title (doc ed)) +:+ "-" +:+ pretty now)
    else slug (doc ed).
Proof. unfold preSave. repeat case_match; simpl; done. Qed.

Lemma preSave_publishedAt now ed :
  publishedAt (doc (preSave now ed))
  = if isModified "status" ed && bool_decide (status (doc ed) = published)
       && bool_decide (publishedAt (doc ed) = None)
    then Some now else publishedAt (doc ed).
Proof.
  unfold preSave. destruct (isModified "title" ed) eqn:Ht.
  - rewrite isModified_assign_ne by done. simpl. by repeat case_match.
  - by repeat case_match.
Qed.

(** Once set, [publishedAt] survives the hook. *)
Lemma preSave_keeps_publishedAt now ed t :
  publishedAt (doc ed) = Some t → publishedAt (doc (preSave now ed)) = Some t.
Proof.
  intros Hp. rewrite preSave_publishedAt, Hp.
  rewrite (bool_decide_eq_false_2 (Some t = None)) by done.
  by rewrite andb_false_r.
Qed.

(** *** [save()] *)

Lemma save_Ok S now coll id ed coll' d :
  save S now coll id ed = Ok (coll', d) →
  validate S ed = true ∧ d = doc (preSave now ed) ∧ coll' = <[id := d]> coll
  ∧ (isNew ed = true → coll !! id = None).
Proof.
  unfold save. destruct (validate S ed); simpl; [|done].
  destruct (isNew ed); simpl.
  - case_bool_decide as Hc; simpl; [done|].
    case_match; [done|]. intros [= <- <-]. repeat split; try done.
    intros _. destruct (coll !! id) eqn:E; [|done]. destruct Hc. by eexists.
  - case_match; [done|]. intros [= <- <-]. by repeat split.
Qed.

(** The hook writes the slug only when the title was modified. *)
Lemma preSave_slug_unmodified now ed :
  isModified "title" ed = false → isModified "slug" ed = false →
  isModified "slug" (preSave now ed) = false.
Proof.
  intros Ht Hs. unfold preSave. rewrite Ht.
  case_match; [|done]. by rewrite isModified_assign_ne.
Qed.

(** Saving a stored document whose title and slug were not touched cannot
    fail on the slug index. *)
Lemma save_stored S now coll id ed :
  validate S ed = true → isNew ed = false →
  isModified "title" ed = false → isModified "slug" ed = false →
  save S now coll id ed
  = Ok (<[id := doc (preSave now ed)]> coll, doc (preSave now ed)).
Proof.
  intros Hv Hn Ht Hs. unfold save.
  by rewrite Hv, Hn, (preSave_slug_unmodified _ _ Ht Hs).
Qed.

(** Validation looks at the title, the required details and, for a Blog,
    the hero image and the author. *)
Lemma validate_ext S ed1 ed2 :
  title (doc ed1) = title (doc ed2) →
  details (doc ed1) = details (doc ed2) →
  heroImage (doc ed1) = heroImage (doc ed2) →
  author (doc ed1) = author (doc ed2) →
  validate S ed1 = validate S ed2.
Proof. intros H1 H2 H3 H4. unfold validate. by rewrite H1, H2, H3, H4. Qed.

Lemma softDelete_stored S now coll id c :
  validate S (hydrate c) = true →
  softDelete S now coll id (hydrate c)
  = Ok (<[id := set_deletedAt (Some now) (set_isDeleted true c)]> coll,
        set_deletedAt (Some now) (set_isDeleted true c)).
Proof.
  intros Hv. unfold softDelete.
  rewrite save_stored.
  - rewrite preSave_unmodified; [done| |]; by rewrite !isModified_assign_ne.
  - rewrite <- Hv. by apply validate_ext.
  - done.
  - by rewrite !isModified_assign_ne.
  - by rewrite !isModified_assign_ne.
Qed.

Lemma restore_stored S now coll id c :
  validate S (hydrate c) = true →
  restore S now coll id (hydrate c)
  = Ok (<[id := set_deletedAt None (set_isDeleted false c)]> coll,
        set_deletedAt None (set_isDeleted false c)).
Proof.
  intros Hv. unfold restore.
  rewrite save_stored.
  - rewrite preSave_unmodified; [done| |]; by rewrite !isModified_assign_ne.
  - rewrite <- Hv. by apply validate_ext.
  - done.
  - by rewrite !isModified_assign_ne.
  - by rewrite !isModified_assign_ne.
Qed.

Lemma validate_softDeleted S now c :
  validate S (hydrate (set_deletedAt (Some now) (set_isDeleted true c)))
  = validate S (hydrate c).
Proof. by apply validate_ext. Qed.
(** A save keeps every publication date of the collection, provided the
    document handed to it still has the date of the stored one. *)
Lemma save_keeps_publishedAt S now coll id ed coll' d :
  save S now coll id ed = Ok (coll', d) →
  (isNew ed = false →
   ∀ c t, coll !! id = Some c → publishedAt c = Some t →
          publishedAt (doc ed) = Some t) →
  keepsPublishedAt coll coll'.
Proof.
  intros Hs Hed. apply save_Ok in Hs as (_ & -> & -> & Hnew).
  intros k c t Hk Ht. destruct (decide (k = id)) as [->|Hne].
  - rewrite lookup_insert_eq. eexists. split; [done|].
    apply preSave_keeps_publishedAt.
    destruct (isNew ed) eqn:Hn.
    + rewrite Hnew in Hk; done.
    + by apply (Hed eq_refl c).
  - rewrite lookup_insert_ne by done. eauto.
Qed.

Lemma keepsPublishedAt_refl coll : keepsPublishedAt coll coll.
Proof. intros k c t Hk Ht. eauto. Qed.

Lemma keepsPublishedAt_trans coll1 coll2 coll3 :
  keepsPublishedAt coll1 coll2 → keepsPublishedAt coll2 coll3 →
  keepsPublishedAt coll1 coll3.
Proof.
  intros H12 H23 k c t Hk Ht. destruct (H12 k c t Hk Ht) as (c' & Hk' & Ht').
  by apply (H23 k c').
Qed.

Lemma findById_Some coll id inc c :
  findById coll id inc = Some c → coll !! id = Some c.
Proof.
  unfold findById. destruct (coll !! id) as [c'|]; [|done].
  destruct (visible inc c'); [|done]. by intros [= ->].
Qed.

Lemma findOneBySlug_Some coll s id c :
  findOneBySlug coll s = Some (id, c) → coll !! id = Some c.
Proof.
  unfold findOneBySlug. intros Hh. apply head_Some_elem_of in Hh.
  apply list_elem_of_filter in Hh as [_ Hin]. by apply elem_of_map_to_list in Hin.
Qed.

(** A stored document handed to [save()] after assignments that leave
    [publishedAt] alone. *)
Lemma save_stored_keeps S now coll id c ed coll' d :
  coll !! id = Some c → publishedAt (doc ed) = publishedAt c →
  save S now coll id ed = Ok (coll', d) →
  keepsPublishedAt coll coll'.
Proof.
  intros Hc Hp Hs. apply (save_keeps_publishedAt _ _ _ _ _ _ _ Hs).
  intros _ c0 t Hc0 Ht. rewrite Hc in Hc0. injection Hc0 as <-. congruence.
Qed.

Lemma create_keeps S now coll newId data coll' d :
  create S now coll newId data = Ok (coll', d) → keepsPublishedAt coll coll'.
Proof.
  unfold create. destruct (objectAssign _ _ _) as [ed|] eqn:Ha; [|done]. simpl.
  intros Hs. apply (save_keeps_publishedAt _ _ _ _ _ _ _ Hs).
  rewrite (objectAssign_isNew _ _ _ _ Ha). done.
Qed.
End DocumentFacts.

(** ** Request validation *)

Section ValidationFacts.
Context `{!JoiRules}.

Lemma keys_fillDefault (sch : list JoiKey) (o : Obj) (names : list string) :
  (∀ k, k ∈ keys o → k ∈ names) →
  (∀ jk, jk ∈ sch → keyName jk ∈ names) →
  ∀ k, k ∈ keys (foldl fillDefault o sch) → k ∈ names.
Proof.
  revert o. induction sch as [|jk sch IH]; intros o Ho Hs; simpl; [done|].
  apply IH; [|intros jk' Hin; apply Hs; set_solver].
  intros k. unfold fillDefault. destruct (default jk) as [d|]; [|by apply Ho].
  case_decide; [by apply Ho|].
  unfold keys. rewrite fmap_app, elem_of_app. intros [Hk|Hk]; [by apply Ho|].
  simpl in Hk. apply list_elem_of_singleton in Hk as ->. apply Hs. set_solver.
Qed.

Lemma NoDup_fillDefault (sch : list JoiKey) (o : Obj) :
  NoDup (keys o) → NoDup (keys (foldl fillDefault o sch)).
Proof.
  revert o. induction sch as [|jk sch IH]; intros o Ho; simpl; [done|].
  apply IH. unfold fillDefault. destruct (default jk) as [d|]; [|done].
  case_decide as Hk; [done|].
  unfold keys in *. rewrite fmap_app. apply NoDup_app. split_conj; [done| |].
  - intros k Hin Hin'. simpl in Hin'. apply list_elem_of_singleton in Hin' as ->. done.
  - simpl. apply NoDup_singleton.
Qed.

(** Validation with [stripUnknown] hands on declared keys only. *)
Lemma joiValidate_keys (sch : JoiObject) (body value : Obj) :
  joiValidate sch body = Some value →
  ∀ k, k ∈ keys value → k ∈ declaredNames sch.
Proof.
  unfold joiValidate. case_match; [|done]. case_decide; [|done].
  intros [= <-]. apply keys_fillDefault.
  - intros k. unfold keys. rewrite list_elem_of_fmap.
    intros ([k' v] & -> & Hin). apply list_elem_of_filter in Hin. tauto.
  - intros jk Hin. unfold declaredNames. rewrite list_elem_of_fmap. eauto.
Qed.

Lemma joiValidate_NoDup (sch : JoiObject) (body value : Obj) :
  NoDup (keys body) → joiValidate sch body = Some value → NoDup (keys value).
Proof.
  intros Hnd. unfold joiValidate. case_match; [|done]. case_decide; [|done].
  intros [= <-]. apply NoDup_fillDefault.
  apply (sublist_NoDup _ (keys body)); [done|].
  unfold keys. apply fmap_sublist, sublist_filter.
Qed.

Lemma eventUpdate_names :
  declaredNames EventValidator.updateSchema
  = ["title"; "description"; "time"; "location"; "datetime"; "type"; "status";
     "heroImage"; "gallery"; "seoTitle"; "seoDescription"; "tags"].
Proof. reflexivity. Qed.

Lemma blogUpdate_names :
  declaredNames BlogValidator.updateSchema
  = ["title"; "excerpt"; "content"; "category"; "isFeatured"; "status";
     "heroImage"; "gallery"; "video"; "videoUrl"; "seoTitle"; "seoDescription";
     "tags"].
Proof. reflexivity. Qed.

Lemma eventCreate_names :
  declaredNames EventValidator.createSchema
  = ["title"; "description"; "time"; "location"; "datetime"; "type"; "status";
     "heroImage"; "gallery"; "seoTitle"; "seoDescription"; "tags"].
Proof. reflexivity. Qed.

Lemma blogCreate_names :
  declaredNames BlogValidator.createSchema
  = ["title"; "excerpt"; "content"; "category"; "isFeatured"; "status";
     "heroImage"; "gallery"; "video"; "videoUrl"; "seoTitle"; "seoDescription";
     "tags"].
Proof. reflexivity. Qed.
End ValidationFacts.

(** The paths no request body may write: the tracking fields and the two
    fields the save hook owns. None of them is declared in an update schema,
    and none is the [updatedBy] the handler adds. *)
Lemma protected_not_declared (names : list string) (k : string) :
  names = ["title"; "description"; "time"; "location"; "datetime"; "type"; "status";
           "heroImage"; "gallery"; "seoTitle"; "seoDescription"; "tags"]
  ∨ names = ["title"; "excerpt"; "content"; "category"; "isFeatured"; "status";
             "heroImage"; "gallery"; "video"; "videoUrl"; "seoTitle";
             "seoDescription"; "tags"] →
  k ∈ ["slug"; "publishedAt"; "views"; "createdBy"; "isDeleted"; "deletedAt"] →
  k ∉ "updatedBy" :: names.
Proof.
  intros [-> | ->] Hk;
    repeat (apply elem_of_cons in Hk as [-> | Hk]; [compute_done|]);
    by apply elem_of_nil in Hk.
Qed.

Section PatchFacts.
Context `{!Externals}.

(** What [Object.assign(doc, { ...body, updatedBy })] followed by [save()]
    does to a stored document when the body has none of the protected
    keys: the tracking fields stay, [publishedAt] and [slug] change as the
    hook says and not otherwise. *)
Lemma assign_save_frame S (value : Obj) (user : ObjectId) (c : Content) (ed : Editing)
    (now : Timestamp) :
  objectAssign S (objSet "updatedBy" (VId user) value) (hydrate c) = Some ed →
  NoDup (keys value) →
  (∀ k, k ∈ ["slug"; "publishedAt"; "views"; "createdBy"; "isDeleted"; "deletedAt"] →
        k ∉ "updatedBy" :: keys value) →
  let c' := doc (preSave now ed) in
  views c' = views c ∧ isDeleted c' = isDeleted c ∧ deletedAt c' = deletedAt c
  ∧ createdBy c' = createdBy c
  ∧ publishedAt c'
    = (if decide (status c ≠ published ∧ status c' = published ∧ publishedAt c = None)
       then Some now else publishedAt c)
  ∧ slug c'
    = (if decide (title c' ≠ title c)
       then Some (slugify (title c') +:+ "-" +:+ pretty now) else slug c).
Proof.
  intros Ha Hnd Hprot c'.
  assert (∀ k, k ∈ ["slug"; "publishedAt"; "views"; "createdBy"; "isDeleted"; "deletedAt"] →
               k ∉ keys (objSet "updatedBy" (VId user) value)) as Hk.
  { intros k Hin Hk. apply elem_of_keys_objSet in Hk.
    apply (Hprot k Hin). set_solver. }
  destruct (objectAssign_frame _ _ _ _ Ha) as (F1 & F2 & F3 & F4 & F5 & F6).
  simpl in F1, F2, F3, F4, F5, F6.
  destruct (preSave_frame now ed)
    as (P1 & P2 & _ & _ & _ & _ & P7 & P8 & _ & P10 & P11 & _).
  assert (NoDup (keys (objSet "updatedBy" (VId user) value))) as Hnd'
    by by apply NoDup_keys_objSet.
  pose proof (objectAssign_status _ _ _ _ Ha eq_refl Hnd') as Hst.
  pose proof (objectAssign_title _ _ _ _ Ha eq_refl Hnd') as Hti.
  simpl in Hst, Hti.
  split_conj.
  - unfold c'. rewrite P7. apply F3, Hk. compute_done.
  - unfold c'. rewrite P10. apply F5, Hk. compute_done.
  - unfold c'. rewrite P11. apply F6, Hk. compute_done.
  - unfold c'. rewrite P8. apply F4, Hk. compute_done.
  - unfold c'. rewrite preSave_publishedAt, P2, F2 by (apply Hk; compute_done).
    unfold isModified.
    destruct (decide (status c ≠ published ∧ status (doc ed) = published
                      ∧ publishedAt c = None)) as [(H1 & H2 & H3)|Hn].
    + rewrite !bool_decide_eq_true_2; try done.
      apply Hst; [set_solver|]. congruence.
    + destruct (bool_decide ("status" ∈ modified ed)) eqn:E1; [|done].
      destruct (bool_decide (status (doc ed) = published)) eqn:E2; [|done].
      destruct (bool_decide (publishedAt c = None)) eqn:E3; [|done].
      apply bool_decide_eq_true_1 in E1, E2, E3. destruct Hn. split_conj; try done.
      apply Hst in E1; [|set_solver]. congruence.
  - unfold c'. rewrite preSave_slug, P1, F1 by (apply Hk; compute_done).
    unfold isModified.
    destruct (decide (title (doc ed) ≠ title c)) as [H1|H1].
    + rewrite bool_decide_eq_true_2; [done|]. apply Hti; [set_solver|done].
    + rewrite bool_decide_eq_false_2; [done|]. intros Hm. apply H1.
      by apply Hti; [set_solver|].
Qed.
End PatchFacts.

(** * The claims *)

Section Claims.
Context `{!Externals} `{!JoiRules}.

(** ** Deleting a media asset *)


(** When the file cannot be removed the handler throws a 500 error before
    it reaches [deleteOne()]. *)
Lemma deleteMedia_unlink_fails (unlink : string → bool) db id m :
  MediaModel.findById (media db) id = Some m →
  usedIn m = [] → unlink (path m) = false →
  deleteMedia unlink db id = Err (ApiError 500 "Failed to delete media file").
Proof.
  intros Hf Hu Hl. unfold deleteMedia. rewrite Hf. simpl.
  unfold MediaModel.isInUse. by rewrite Hu, Hl.
Qed.

(** An asset that is absent or soft-deleted is not found. *)
Lemma deleteMedia_not_found (unlink : string → bool) db id :
  MediaModel.findById (media db) id = None →
  deleteMedia unlink db id = Err (ApiError 404 "Media not found").
Proof. intros Hf. unfold deleteMedia. by rewrite Hf. Qed.

(** ** Usage entries: idempotence *)

(** C4, on the code path of the content handlers. The handlers add a usage
    entry with [$push]: applying the same update twice to an asset the
    query finds leaves the entry twice in [usedIn], which is not what one
    application leaves. *)
Theorem C4_push_twice_duplicates (ms : gmap N Media) (a : ObjectId) (m : Media) (u : Usage) :
  MediaModel.findById ms a = Some m →
  let once := MediaModel.findByIdAndUpdate a (MediaModel.push u) ms in
  let twice := MediaModel.findByIdAndUpdate a (MediaModel.push u) once in
  (usedIn <$> once !! a) = Some (usedIn m ++ [u])
  ∧ (usedIn <$> twice !! a) = Some (usedIn m ++ [u; u])
  ∧ twice ≠ once.
Proof.
  intros Hf once twice.
  assert (ms !! a = Some m ∧ m_isDeleted m = false) as [Ha Hd].
  { unfold MediaModel.findById in Hf. destruct (ms !! a) as [m'|]; [|done].
    destruct (m_isDeleted m') eqn:E; [done|]. by injection Hf as ->. }
  assert (once !! a = Some (MediaModel.push u m)) as Ho.
  { unfold once. rewrite lookup_findByIdAndUpdate, Ha. simpl.
    by rewrite decide_True. }
  assert (twice !! a = Some (MediaModel.push u (MediaModel.push u m))) as Ht.
  { unfold twice. rewrite lookup_findByIdAndUpdate, Ho. simpl.
    by rewrite decide_True. }
  split_conj.
  - by rewrite Ho.
  - rewrite Ht. simpl. by rewrite <- app_assoc.
  - intros Heq. rewrite Heq, Ho in Ht. injection Ht as Ht.
    apply (f_equal length) in Ht. rewrite !length_app in Ht. simpl in Ht. lia.
Qed.

(** ** Lifecycle guards *)

Lemma restoreEvent_not_deleted db id now e :
  events db !! id = Some e → isDeleted e = false →
  restoreEvent db id now = Err (ApiError 400 "Event is not deleted").
Proof.
  intros He Hd. unfold restoreEvent, findById. rewrite He. simpl. by rewrite Hd.
Qed.

Lemma deleteEvent_deleted db id now e :
  events db !! id = Some e → isDeleted e = true →
  deleteEvent db id now = Err (ApiError 404 "Event not found").
Proof.
  intros He Hd. unfold deleteEvent, findById, visible. rewrite He. simpl.
  by rewrite Hd.
Qed.

Lemma restoreBlog_not_deleted db id now b :
  blogs db !! id = Some b → isDeleted b = false →
  restoreBlog db id now = Err (ApiError 400 "Blog is not deleted").
Proof.
  intros He Hd. unfold restoreBlog, findById. rewrite He. simpl. by rewrite Hd.
Qed.

Lemma deleteBlog_deleted db id now b :
  blogs db !! id = Some b → isDeleted b = true →
  deleteBlog db id now = Err (ApiError 404 "Blog not found").
Proof.
  intros He Hd. unfold deleteBlog, findById, visible. rewrite He. simpl.
  by rewrite Hd.
Qed.

(** C6, as the code has it. Restoring an entity that is not deleted throws
    the 400 "is not deleted" error (the invalid-state error). Soft-deleting
    an entity that is already deleted throws the 404 "not found" error: the
    find hook hides the entity from the delete handler. Either way nothing
    is written. *)
Theorem C6_lifecycle_guards (db : DB) (id : ObjectId) (now : Timestamp) (c : Content) :
  events db !! id = Some c ∨ blogs db !! id = Some c →
  (events db !! id = Some c →
     if isDeleted c
     then deleteEvent db id now = Err (ApiError 404 "Event not found")
          ∧ step db (DeleteEvent id now) = db
     else restoreEvent db id now = Err (ApiError 400 "Event is not deleted")
          ∧ step db (RestoreEvent id now) = db)
  ∧ (blogs db !! id = Some c →
     if isDeleted c
     then deleteBlog db id now = Err (ApiError 404 "Blog not found")
          ∧ step db (DeleteBlog id now) = db
     else restoreBlog db id now = Err (ApiError 400 "Blog is not deleted")
          ∧ step db (RestoreBlog id now) = db).
Proof.
  intros _. split; intros Hc; destruct (isDeleted c) eqn:Hd; unfold step, handle.
  - by rewrite (deleteEvent_deleted _ _ _ _ Hc Hd).
  - by rewrite (restoreEvent_not_deleted _ _ _ _ Hc Hd).
  - by rewrite (deleteBlog_deleted _ _ _ _ Hc Hd).
  - by rewrite (restoreBlog_not_deleted _ _ _ _ Hc Hd).
Qed.

(** ** Slugs *)

Lemma create_Ok S now coll newId data coll' d :
  create S now coll newId data = Ok (coll', d) →
  ∃ ed, objectAssign S data (newDoc S) = Some ed
        ∧ isNew ed = true ∧ validate S ed = true
        ∧ d = doc (preSave now ed) ∧ coll' = <[newId := d]> coll
        ∧ coll !! newId = None.
Proof.
  unfold create. destruct (objectAssign S data (newDoc S)) as [ed|] eqn:Ha; [|done].
  simpl. intros Hs. apply save_Ok in Hs as (Hv & -> & -> & Hn).
  assert (isNew ed = true) as Hnew by (by rewrite (objectAssign_isNew _ _ _ _ Ha)).
  exists ed. split_conj; auto.
Qed.

(** Two documents created from the same data at the same clock value get
    the same slug, and the unique index rejects the second. *)
Lemma create_same_millisecond S now coll id1 id2 data coll1 d1 :
  create S now coll id1 data = Ok (coll1, d1) →
  coll1 !! id2 = None →
  create S now coll1 id2 data = Err (DuplicateKey "slug").
Proof.
  intros Hc Hf. apply create_Ok in Hc as (ed & Ha & Hnew & Hv & -> & -> & Hn).
  unfold create. rewrite Ha. simpl. unfold save. rewrite Hv, Hnew. simpl.
  rewrite (bool_decide_eq_false_2 (is_Some _)) by (rewrite Hf; by intros [? ?]).
  unfold slugTaken. rewrite bool_decide_eq_true_2; [done|].
  exists id1, (doc (preSave now ed)). split_conj.
  - apply lookup_insert_eq.
  - intros ->. by rewrite lookup_insert_eq in Hf.
  - done.
Qed.

(** The slug of a created event is a function of its title and of the
    clock value the hook reads, and of nothing else. *)
Lemma createEvent_slug db body user id now db1 r1 :
  createEvent db body user id now = Ok (db1, r1) →
  ∃ e, data r1 = Some e ∧ events db1 !! id = Some e
       ∧ slug e = Some (slugify (title e) +:+ "-" +:+ pretty now).
Proof.
  unfold createEvent. intros Hc.
  destruct (create _ _ _ _ _) as [[events' e]|] eqn:Hcr; simpl in Hc; [|done].
  injection Hc as <- <-. simpl. exists e.
  apply create_Ok in Hcr as (ed & Ha & Hnew & Hv & -> & -> & Hn).
  split_conj; [done|apply lookup_insert_eq|].
  rewrite preSave_slug.
  destruct (objectAssign_title_new _ _ _ _ Ha eq_refl) as [Hm|[Ht Hm]].
  - unfold isModified. rewrite bool_decide_eq_true_2 by done.
    by destruct (preSave_frame now ed) as (-> & _).
  - unfold validate in Hv. simpl in Ht. rewrite Ht in Hv. done.
Qed.

(** With the title fixed, the slug determines the clock value: two saves
    of the same title at different milliseconds get different slugs. *)
Lemma slug_determines_clock (t : string) (n1 n2 : Timestamp) :
  slugify t +:+ "-" +:+ pretty n1 = slugify t +:+ "-" +:+ pretty n2 → n1 = n2.
Proof.
  intros Heq. apply (inj (String.app (slugify t))) in Heq.
  apply (inj (String.app "-")) in Heq. by apply (inj pretty) in Heq.
Qed.

(** C3, at the failing input. A second event created from the same body in
    the same millisecond computes the same slug as the first, and its
    [save()] is rejected by the unique index on [slug]: no second slug is
    produced. *)
Theorem C3_same_millisecond_collision (db : DB) (body : Obj) (user id1 id2 : ObjectId)
    (now : Timestamp) (db1 : DB) (r1 : Response) :
  createEvent db body user id1 now = Ok (db1, r1) →
  events db1 !! id2 = None →
  createEvent db1 body user id2 now = Err (DuplicateKey "slug").
Proof.
  unfold createEvent. intros Hc Hf.
  destruct (create _ _ (events db) _ _) as [[events' e]|] eqn:Hcr; simpl in Hc; [|done].
  injection Hc as <- <-. simpl in *.
  by rewrite (create_same_millisecond _ _ _ _ _ _ _ _ Hcr Hf).
Qed.

(** The same for a blog post. *)
Lemma createBlog_same_millisecond db body user id1 id2 now db1 r1 :
  createBlog db body user id1 now = Ok (db1, r1) →
  blogs db1 !! id2 = None →
  createBlog db1 body user id2 now = Err (DuplicateKey "slug").
Proof.
  unfold createBlog. intros Hc Hf.
  destruct (truthy _); simpl in *; [|done].
  destruct (create _ _ (blogs db) _ _) as [[blogs' e]|] eqn:Hcr; simpl in Hc; [|done].
  injection Hc as <- <-. simpl in *.
  by rewrite (create_same_millisecond _ _ _ _ _ _ _ _ Hcr Hf).
Qed.

(** ** Soft delete and restore *)

(** What [deleteEvent] does to a visible event that passes validation. *)
Lemma deleteEvent_Ok db id now e :
  events db !! id = Some e → isDeleted e = false →
  validate eventSchema (hydrate e) = true →
  let e' := set_deletedAt (Some now) (set_isDeleted true e) in
  deleteEvent db id now
  = Ok ({| events := <[id := e']> (events db);
           blogs := blogs db;
           media := when (bool_decide (0 < length (eventRefs e))%nat)
                      (MediaModel.updateMany (eventRefs e)
                         (MediaModel.pull (sameEntity EventModel id))) (media db) |},
        {| code := 200; message := "Event deleted successfully"; data := None |}).
Proof.
  intros He Hd Hv e'. unfold deleteEvent, findById, visible.
  rewrite He, Hd. simpl. rewrite softDelete_stored by done. reflexivity.
Qed.

(** What [restoreEvent] does to a soft-deleted event that passes validation. *)
Lemma restoreEvent_Ok db id now e :
  events db !! id = Some e → isDeleted e = true →
  validate eventSchema (hydrate e) = true →
  let e' := set_deletedAt None (set_isDeleted false e) in
  restoreEvent db id now
  = Ok ({| events := <[id := e']> (events db);
           blogs := blogs db;
           media :=
             when (bool_decide (0 < length (gallery e))%nat)
               (MediaModel.updateMany (gallery e)
                  (MediaModel.push (usage EventModel id "gallery")))
               (whenSome (heroImage e)
                  (λ h, MediaModel.findByIdAndUpdate h
                          (MediaModel.push (usage EventModel id "heroImage")))
                  (media db)) |},
        {| code := 200; message := "Event restored successfully"; data := Some e' |}).
Proof.
  intros He Hd Hv e'. unfold restoreEvent, findById, visible.
  rewrite He. simpl. rewrite Hd. simpl. rewrite restore_stored by done. reflexivity.
Qed.

(** The usage entries of an asset after [restoreEvent]. *)
Lemma restoreEvent_media db id now e db' r k :
  events db !! id = Some e → isDeleted e = true →
  validate eventSchema (hydrate e) = true →
  restoreEvent db id now = Ok (db', r) →
  media db' !! k
  = (λ m, when (bool_decide (k ∈ gallery e))
            (MediaModel.push (usage EventModel id "gallery"))
            (when (bool_decide (heroImage e = Some k ∧ m_isDeleted m = false))
               (MediaModel.push (usage EventModel id "heroImage")) m))
    <$> media db !! k.
Proof.
  intros He Hd Hv Hr. rewrite (restoreEvent_Ok _ _ _ _ He Hd Hv) in Hr.
  injection Hr as <- <-. cbn [media].
  rewrite lookup_updateMany_guarded, lookup_findByIdAndUpdate_opt.
  by destruct (media db !! k).
Qed.

Lemma expectedUsages_event id e m :
  expectedUsages EventModel id (eventFields e) m
  = when (bool_decide (heroImage e = Some m))
      (λ l, l ++ [usage EventModel id "heroImage"]) []
    ++ when (bool_decide (m ∈ gallery e))
         (λ l, l ++ [usage EventModel id "gallery"]) [].
Proof.
  unfold expectedUsages, eventFields. simpl.
  assert (∀ o : option ObjectId, m ∈ option_list o ↔ o = Some m) as Ho.
  { intros [x|]; simpl; set_solver. }
  destruct (decide (heroImage e = Some m)) as [Hh|Hh];
    destruct (decide (m ∈ gallery e)) as [Hg|Hg];
    rewrite ?(decide_True (P := m ∈ option_list (heroImage e))) by (by apply Ho);
    rewrite ?(decide_False (P := m ∈ option_list (heroImage e))) by (by rewrite Ho);
    rewrite ?(when_True (heroImage e = Some m)) by done;
    rewrite ?(when_False (heroImage e = Some m)) by done;
    rewrite ?(when_True (m ∈ gallery e)) by done;
    rewrite ?(when_False (m ∈ gallery e)) by done;
    done.
Qed.

Lemma usedIn_when_push (c : bool) u m :
  usedIn (when c (MediaModel.push u) m) = when c (λ l, l ++ [u]) (usedIn m).
Proof. by destruct c. Qed.

Lemma when_append {A} (c : bool) (x : A) (l : list A) :
  when c (λ l, l ++ [x]) l = l ++ when c (λ l, l ++ [x]) [].
Proof. destruct c; unfold when; simpl; by rewrite ?app_nil_r. Qed.

(** An asset that is stored and not deleted gets the entries of the fields
    that reference it. *)
Lemma restoreEvent_live_asset db id now e db' r m med :
  events db !! id = Some e → isDeleted e = true →
  validate eventSchema (hydrate e) = true →
  restoreEvent db id now = Ok (db', r) →
  media db !! m = Some med → m_isDeleted med = false →
  ∃ med', media db' !! m = Some med'
          ∧ setUsedIn (usedIn med) med' = med
          ∧ usedIn med' = usedIn med ++ expectedUsages EventModel id (eventFields e) m.
Proof.
  intros He Hd Hv Hr Hm Hlive.
  rewrite (restoreEvent_media _ _ _ _ _ _ m He Hd Hv Hr), Hm.
  eexists. split; [reflexivity|]. split.
  - by rewrite !setUsedIn_when_push, setUsedIn_id.
  - rewrite expectedUsages_event, !usedIn_when_push.
    rewrite (when_ext (heroImage e = Some m ∧ m_isDeleted med = false)
               (heroImage e = Some m)) by naive_solver.
    rewrite when_append, (when_append _ _ (usedIn med)). by rewrite <- app_assoc.
Qed.


(** The usage entries of an asset after [deleteEvent]. *)
Lemma deleteEvent_media db id now e db' r k :
  events db !! id = Some e → isDeleted e = false →
  validate eventSchema (hydrate e) = true →
  deleteEvent db id now = Ok (db', r) →
  media db' !! k
  = (λ m, when (bool_decide (k ∈ eventRefs e))
            (MediaModel.pull (sameEntity EventModel id)) m)
    <$> media db !! k.
Proof.
  intros He Hd Hv Hr. rewrite (deleteEvent_Ok _ _ _ _ He Hd Hv) in Hr.
  injection Hr as <- <-. cbn [media]. apply lookup_updateMany_guarded.
Qed.

(** Removing the entries of an entity and appending the expected ones gives
    back the same entries when the expected ones were there, each once. *)
Lemma detach_attach_Permutation (P : Usage → Prop) `{∀ u, Decision (P u)}
    (l expected : list Usage) :
  filter P l ≡ₚ expected → filter (λ u, ¬ P u) l ++ expected ≡ₚ l.
Proof.
  intros Hp. rewrite <- Hp. rewrite (comm (++)). apply filter_app_complement.
Qed.

Lemma elem_of_eventRefs e m :
  m ∈ eventRefs e ↔ heroImage e = Some m ∨ m ∈ gallery e.
Proof.
  unfold eventRefs, definedIds. destruct (heroImage e) as [h|]; simpl; set_solver.
Qed.

(** Soft delete followed by restore, for an event. *)
Lemma event_roundtrip db id e now1 now2 :
  events db !! id = Some e → isDeleted e = false →
  validate eventSchema (hydrate e) = true →
  ∃ db1 r1 db2 r2,
    deleteEvent db id now1 = Ok (db1, r1)
    ∧ restoreEvent db1 id now2 = Ok (db2, r2)
    ∧ events db2 !! id = Some (set_deletedAt None e)
    ∧ (∀ m, m ∉ eventRefs e → media db2 !! m = media db !! m)
    ∧ (∀ m med, m ∈ eventRefs e → media db !! m = Some med →
                m_isDeleted med = false →
                tracksEntity EventModel id (eventFields e) m med →
                ∃ med', media db2 !! m = Some med'
                        ∧ usedIn med' ≡ₚ usedIn med
                        ∧ setUsedIn (usedIn med) med' = med).
Proof.
  intros He Hd Hv.
  pose proof (deleteEvent_Ok _ _ now1 _ He Hd Hv) as Hdel. simpl in Hdel.
  set (e1 := set_deletedAt (Some now1) (set_isDeleted true e)) in *.
  match type of Hdel with _ = Ok (?d, _) => set (db1 := d) in * end.
  assert (events db1 !! id = Some e1) as He1 by apply lookup_insert_eq.
  assert (validate eventSchema (hydrate e1) = true) as Hv1
    by (unfold e1; by rewrite validate_softDeleted).
  eexists _, _.
  pose proof (restoreEvent_Ok db1 id now2 e1 He1 eq_refl Hv1) as Hres.
  simpl in Hres. eexists _, _. split; [exact Hdel|]. split; [exact Hres|].
  split_conj.
  - simpl. rewrite lookup_insert_eq. f_equal. destruct e; simpl in *. by subst.
  - intros m Hm.
    rewrite (restoreEvent_media _ _ _ _ _ _ m He1 eq_refl Hv1 Hres).
    rewrite (deleteEvent_media _ _ _ _ _ _ m He Hd Hv Hdel).
    rewrite elem_of_eventRefs in Hm.
    destruct (media db !! m) as [med|]; simpl; [|done].
    rewrite (when_False (m ∈ eventRefs e)) by (rewrite elem_of_eventRefs; tauto).
    rewrite (when_False (_ ∧ _)) by naive_solver.
    by rewrite (when_False (m ∈ gallery e)) by tauto.
  - intros m med Hm Hmed Hlive Htr.
    assert (media db1 !! m = Some (MediaModel.pull (sameEntity EventModel id) med)) as Hm1.
    { rewrite (deleteEvent_media _ _ _ _ _ _ m He Hd Hv Hdel), Hmed. simpl.
      by rewrite when_True. }
    destruct (restoreEvent_live_asset _ _ _ _ _ _ m _ He1 eq_refl Hv1 Hres Hm1 Hlive)
      as (med' & Hm2 & Hset & Hus).
    exists med'. split_conj; [done| |].
    + rewrite Hus, usedIn_pull. by apply detach_attach_Permutation.
    + rewrite <- (setUsedIn_setUsedIn (usedIn med)
                    (usedIn (MediaModel.pull (sameEntity EventModel id) med)) med').
      by rewrite Hset, setUsedIn_pull, setUsedIn_id.
Qed.

(** The same for a blog post, whose third media field is [video]. *)
Lemma deleteBlog_Ok db id now b :
  blogs db !! id = Some b → isDeleted b = false →
  validate blogSchema (hydrate b) = true →
  let b' := set_deletedAt (Some now) (set_isDeleted true b) in
  deleteBlog db id now
  = Ok ({| events := events db;
           blogs := <[id := b']> (blogs db);
           media := when (bool_decide (0 < length (blogRefs b))%nat)
                      (MediaModel.updateMany (blogRefs b)
                         (MediaModel.pull (sameEntity BlogModel id))) (media db) |},
        {| code := 200; message := "Blog deleted successfully"; data := None |}).
Proof.
  intros He Hd Hv b'. unfold deleteBlog, findById, visible.
  rewrite He, Hd. simpl. rewrite softDelete_stored by done. reflexivity.
Qed.

Lemma restoreBlog_media db id now b db' r k :
  blogs db !! id = Some b → isDeleted b = true →
  validate blogSchema (hydrate b) = true →
  restoreBlog db id now = Ok (db', r) →
  blogs db' = <[id := set_deletedAt None (set_isDeleted false b)]> (blogs db)
  ∧ events db' = events db
  ∧ r = {| code := 200; message := "Blog restored successfully";
           data := Some (set_deletedAt None (set_isDeleted false b)) |}
  ∧ media db' !! k
    = (λ m, when (bool_decide (video b = Some k ∧ m_isDeleted m = false))
              (MediaModel.push (usage BlogModel id "video"))
              (when (bool_decide (k ∈ gallery b))
                 (MediaModel.push (usage BlogModel id "gallery"))
                 (when (bool_decide (heroImage b = Some k ∧ m_isDeleted m = false))
                    (MediaModel.push (usage BlogModel id "heroImage")) m)))
      <$> media db !! k.
Proof.
  intros He Hd Hv. unfold restoreBlog, findById, visible.
  rewrite He. simpl. rewrite Hd. simpl. rewrite restore_stored by done.
  intros [= <- <-]. cbn [media blogs events]. split_conj; try done.
  rewrite lookup_findByIdAndUpdate_opt, lookup_updateMany_guarded,
    lookup_findByIdAndUpdate_opt.
  destruct (media db !! k) as [m|]; [|done].
  cbn [fmap option_fmap option_map]. by rewrite !deleted_when_push.
Qed.

Lemma restoreBlog_Ok db id now b :
  blogs db !! id = Some b → isDeleted b = true →
  validate blogSchema (hydrate b) = true →
  ∃ db' r, restoreBlog db id now = Ok (db', r).
Proof.
  intros He Hd Hv. unfold restoreBlog, findById, visible.
  rewrite He. simpl. rewrite Hd. simpl. rewrite restore_stored by done.
  by eexists _, _.
Qed.

Lemma expectedUsages_blog id b m :
  expectedUsages BlogModel id (blogFields b) m
  = when (bool_decide (heroImage b = Some m))
      (λ l, l ++ [usage BlogModel id "heroImage"]) []
    ++ when (bool_decide (m ∈ gallery b))
         (λ l, l ++ [usage BlogModel id "gallery"]) []
    ++ when (bool_decide (video b = Some m))
         (λ l, l ++ [usage BlogModel id "video"]) [].
Proof.
  unfold expectedUsages, blogFields. simpl.
  assert (∀ o : option ObjectId, m ∈ option_list o ↔ o = Some m) as Ho.
  { intros [x|]; simpl; set_solver. }
  destruct (decide (heroImage b = Some m)) as [Hh|Hh];
    destruct (decide (m ∈ gallery b)) as [Hg|Hg];
    destruct (decide (video b = Some m)) as [Hvd|Hvd];
    rewrite ?(decide_True (P := m ∈ option_list (heroImage b))) by (by apply Ho);
    rewrite ?(decide_False (P := m ∈ option_list (heroImage b))) by (by rewrite Ho);
    rewrite ?(decide_True (P := m ∈ option_list (video b))) by (by apply Ho);
    rewrite ?(decide_False (P := m ∈ option_list (video b))) by (by rewrite Ho);
    rewrite ?(when_True (heroImage b = Some m)) by done;
    rewrite ?(when_False (heroImage b = Some m)) by done;
    rewrite ?(when_True (video b = Some m)) by done;
    rewrite ?(when_False (video b = Some m)) by done;
    rewrite ?(when_True (m ∈ gallery b)) by done;
    rewrite ?(when_False (m ∈ gallery b)) by done;
    done.
Qed.

Lemma restoreBlog_live_asset db id now b db' r m med :
  blogs db !! id = Some b → isDeleted b = true →
  validate blogSchema (hydrate b) = true →
  restoreBlog db id now = Ok (db', r) →
  media db !! m = Some med → m_isDeleted med = false →
  ∃ med', media db' !! m = Some med'
          ∧ setUsedIn (usedIn med) med' = med
          ∧ usedIn med' = usedIn med ++ expectedUsages BlogModel id (blogFields b) m.
Proof.
  intros He Hd Hv Hr Hm Hlive.
  destruct (restoreBlog_media _ _ _ _ _ _ m He Hd Hv Hr) as (_ & _ & _ & ->).
  rewrite Hm. eexists. split; [reflexivity|]. split.
  - by rewrite !setUsedIn_when_push, setUsedIn_id.
  - rewrite expectedUsages_blog, !usedIn_when_push.
    rewrite (when_ext (heroImage b = Some m ∧ m_isDeleted med = false)
               (heroImage b = Some m)) by naive_solver.
    rewrite (when_ext (video b = Some m ∧ m_isDeleted med = false)
               (video b = Some m)) by naive_solver.
    rewrite when_append, (when_append (bool_decide (m ∈ gallery b))),
      (when_append _ _ (usedIn med)).
    by rewrite <- !app_assoc.
Qed.

Lemma deleteBlog_media db id now b db' r k :
  blogs db !! id = Some b → isDeleted b = false →
  validate blogSchema (hydrate b) = true →
  deleteBlog db id now = Ok (db', r) →
  media db' !! k
  = (λ m, when (bool_decide (k ∈ blogRefs b))
            (MediaModel.pull (sameEntity BlogModel id)) m)
    <$> media db !! k.
Proof.
  intros He Hd Hv Hr. rewrite (deleteBlog_Ok _ _ _ _ He Hd Hv) in Hr.
  injection Hr as <- <-. cbn [media]. apply lookup_updateMany_guarded.
Qed.

Lemma elem_of_blogRefs b m :
  m ∈ blogRefs b ↔ heroImage b = Some m ∨ video b = Some m ∨ m ∈ gallery b.
Proof.
  unfold blogRefs, definedIds.
  destruct (heroImage b) as [h|], (video b) as [v|]; simpl; set_solver.
Qed.

Lemma blog_roundtrip db id b now1 now2 :
  blogs db !! id = Some b → isDeleted b = false →
  validate blogSchema (hydrate b) = true →
  ∃ db1 r1 db2 r2,
    deleteBlog db id now1 = Ok (db1, r1)
    ∧ restoreBlog db1 id now2 = Ok (db2, r2)
    ∧ blogs db2 !! id = Some (set_deletedAt None b)
    ∧ (∀ m, m ∉ blogRefs b → media db2 !! m = media db !! m)
    ∧ (∀ m med, m ∈ blogRefs b → media db !! m = Some med →
                m_isDeleted med = false →
                tracksEntity BlogModel id (blogFields b) m med →
                ∃ med', media db2 !! m = Some med'
                        ∧ usedIn med' ≡ₚ usedIn med
                        ∧ setUsedIn (usedIn med) med' = med).
Proof.
  intros He Hd Hv.
  pose proof (deleteBlog_Ok _ _ now1 _ He Hd Hv) as Hdel. simpl in Hdel.
  set (b1 := set_deletedAt (Some now1) (set_isDeleted true b)) in *.
  match type of Hdel with _ = Ok (?d, _) => set (db1 := d) in * end.
  assert (blogs db1 !! id = Some b1) as He1 by apply lookup_insert_eq.
  assert (validate blogSchema (hydrate b1) = true) as Hv1
    by (unfold b1; by rewrite validate_softDeleted).
  destruct (restoreBlog_Ok db1 id now2 b1 He1 eq_refl Hv1) as (db2 & r2 & Hres).
  eexists db1, _, db2, r2. split; [exact Hdel|]. split; [exact Hres|].
  split_conj.
  - destruct (restoreBlog_media _ _ _ _ _ _ 0%N He1 eq_refl Hv1 Hres) as (-> & _).
    rewrite lookup_insert_eq. f_equal. destruct b; simpl in *. by subst.
  - intros m Hm.
    destruct (restoreBlog_media _ _ _ _ _ _ m He1 eq_refl Hv1 Hres) as (_ & _ & _ & ->).
    rewrite (deleteBlog_media _ _ _ _ _ _ m He Hd Hv Hdel).
    rewrite elem_of_blogRefs in Hm.
    destruct (media db !! m) as [med|]; simpl; [|done].
    rewrite (when_False (m ∈ blogRefs b)) by (rewrite elem_of_blogRefs; tauto).
    rewrite (when_False (heroImage b = Some m ∧ _)) by naive_solver.
    rewrite (when_False (video b = Some m ∧ _)) by naive_solver.
    by rewrite (when_False (m ∈ gallery b)) by tauto.
  - intros m med Hm Hmed Hlive Htr.
    assert (media db1 !! m = Some (MediaModel.pull (sameEntity BlogModel id) med)) as Hm1.
    { rewrite (deleteBlog_media _ _ _ _ _ _ m He Hd Hv Hdel), Hmed. simpl.
      by rewrite when_True. }
    destruct (restoreBlog_live_asset _ _ _ _ _ _ m _ He1 eq_refl Hv1 Hres Hm1 Hlive)
      as (med' & Hm2 & Hset & Hus).
    exists med'. split_conj; [done| |].
    + rewrite Hus, usedIn_pull. by apply detach_attach_Permutation.
    + rewrite <- (setUsedIn_setUsedIn (usedIn med)
                    (usedIn (MediaModel.pull (sameEntity BlogModel id) med)) med').
      by rewrite Hset, setUsedIn_pull, setUsedIn_id.
Qed.

(** C2. A content entity that is live and passes validation, whose referenced
    assets are all stored and not deleted and carry the entity's usage
    entries as invariant I1 prescribes: [softDelete] followed by [restore]
    both succeed, and afterwards every referenced asset has the usage
    entries it had before (as a collection: an entry that was removed and
    added again is now at the end of the array) and is otherwise the same
    document. *)
Theorem C2_softDelete_restore_roundtrip (db : DB) (id : ObjectId) (c : Content)
    (now1 now2 : Timestamp) :
  isDeleted c = false →
  (events db !! id = Some c →
   validate eventSchema (hydrate c) = true →
   (∀ m, m ∈ eventRefs c →
         ∃ med, media db !! m = Some med ∧ m_isDeleted med = false
                ∧ tracksEntity EventModel id (eventFields c) m med) →
   ∃ db1 r1 db2 r2,
     deleteEvent db id now1 = Ok (db1, r1)
     ∧ restoreEvent db1 id now2 = Ok (db2, r2)
     ∧ ∀ m, m ∈ eventRefs c →
            ∃ med med', media db !! m = Some med ∧ media db2 !! m = Some med'
                        ∧ usedIn med' ≡ₚ usedIn med
                        ∧ setUsedIn (usedIn med) med' = med)
  ∧ (blogs db !! id = Some c →
     validate blogSchema (hydrate c) = true →
     (∀ m, m ∈ blogRefs c →
           ∃ med, media db !! m = Some med ∧ m_isDeleted med = false
                  ∧ tracksEntity BlogModel id (blogFields c) m med) →
     ∃ db1 r1 db2 r2,
       deleteBlog db id now1 = Ok (db1, r1)
       ∧ restoreBlog db1 id now2 = Ok (db2, r2)
       ∧ ∀ m, m ∈ blogRefs c →
              ∃ med med', media db !! m = Some med ∧ media db2 !! m = Some med'
                          ∧ usedIn med' ≡ₚ usedIn med
                          ∧ setUsedIn (usedIn med) med' = med).
Proof.
  intros Hd. split; intros Hc Hv Hrefs.
  - destruct (event_roundtrip db id c now1 now2 Hc Hd Hv)
      as (db1 & r1 & db2 & r2 & Hdel & Hres & _ & _ & Hin).
    exists db1, r1, db2, r2. split_conj; [done|done|].
    intros m Hm. destruct (Hrefs m Hm) as (med & Hmed & Hlive & Htr).
    destruct (Hin m med Hm Hmed Hlive Htr) as (med' & ? & ? & ?).
    by exists med, med'.
  - destruct (blog_roundtrip db id c now1 now2 Hc Hd Hv)
      as (db1 & r1 & db2 & r2 & Hdel & Hres & _ & _ & Hin).
    exists db1, r1, db2, r2. split_conj; [done|done|].
    intros m Hm. destruct (Hrefs m Hm) as (med & Hmed & Hlive & Htr).
    destruct (Hin m med Hm Hmed Hlive Htr) as (med' & ? & ? & ?).
    by exists med, med'.
Qed.

(** ** Updates *)

(** What a successful [updateEvent] did: the document it saved and, asset by
    asset, the usage updates it issued. *)
Lemma updateEvent_inv db id body user now db' r e :
  events db !! id = Some e →
  updateEvent db id body user now = Ok (db', r) →
  ∃ ed,
    isDeleted e = false
    ∧ objectAssign eventSchema (objSet "updatedBy" (VId user) body) (hydrate e) = Some ed
    ∧ validate eventSchema ed = true
    ∧ r = {| code := 200; message := "Event updated successfully";
             data := Some (doc (preSave now ed)) |}
    ∧ events db' = <[id := doc (preSave now ed)]> (events db)
    ∧ blogs db' = blogs db
    ∧ ∀ k,
        let e' := doc (preSave now ed) in
        media db' !! k
        = (λ m,
            when (bool_decide (k ∈ filter (λ i, i ∉ gallery e) (gallery e')))
              (MediaModel.push (usage EventModel id "gallery"))
            (when (bool_decide (k ∈ filter (λ i, i ∉ gallery e') (gallery e)))
               (MediaModel.pull (sameUsage EventModel id "gallery"))
            (when (bool_decide (heroImage e' = Some k ∧ heroImage e ≠ Some k
                                ∧ m_isDeleted m = false))
               (MediaModel.push (usage EventModel id "heroImage"))
            (when (bool_decide (heroImage e = Some k ∧ heroImage e' ≠ Some k
                                ∧ m_isDeleted m = false))
               (MediaModel.pull (sameUsage EventModel id "heroImage")) m))))
          <$> media db !! k.
Proof.
  intros He Hup. unfold updateEvent, findById, visible in Hup. rewrite He in Hup.
  simpl in Hup. destruct (isDeleted e) eqn:Hd; simpl in Hup; [done|].
  destruct (objectAssign _ _ _) as [ed|] eqn:Ha; simpl in Hup; [|done].
  destruct (save _ _ _ _ _) as [[events' e']|] eqn:Hs; simpl in Hup; [|done].
  apply save_Ok in Hs as (Hv & -> & -> & _).
  injection Hup as <- <-. exists ed. split_conj; try done.
  intros k e'. subst e'. cbn [media].
  rewrite !lookup_updateMany_guarded, !lookup_findByIdAndUpdate_moved.
  destruct (media db !! k) as [m|]; [|done].
  cbn [fmap option_fmap option_map]. by rewrite !deleted_when_pull.
Qed.

Lemma updateBlog_inv db id body user now db' r b :
  blogs db !! id = Some b →
  updateBlog db id body user now = Ok (db', r) →
  ∃ ed,
    isDeleted b = false
    ∧ objectAssign blogSchema (objSet "updatedBy" (VId user) body) (hydrate b) = Some ed
    ∧ validate blogSchema ed = true
    ∧ r = {| code := 200; message := "Blog updated successfully";
             data := Some (doc (preSave now ed)) |}
    ∧ blogs db' = <[id := doc (preSave now ed)]> (blogs db)
    ∧ events db' = events db
    ∧ ∀ k,
        let b' := doc (preSave now ed) in
        media db' !! k
        = (λ m,
            when (bool_decide (video b' = Some k ∧ video b ≠ Some k
                               ∧ m_isDeleted m = false))
              (MediaModel.push (usage BlogModel id "video"))
            (when (bool_decide (video b = Some k ∧ video b' ≠ Some k
                                ∧ m_isDeleted m = false))
               (MediaModel.pull (sameUsage BlogModel id "video"))
            (when (bool_decide (k ∈ filter (λ i, i ∉ gallery b) (gallery b')))
               (MediaModel.push (usage BlogModel id "gallery"))
            (when (bool_decide (k ∈ filter (λ i, i ∉ gallery b') (gallery b)))
               (MediaModel.pull (sameUsage BlogModel id "gallery"))
            (when (bool_decide (heroImage b' = Some k ∧ heroImage b ≠ Some k
                                ∧ m_isDeleted m = false))
               (MediaModel.push (usage BlogModel id "heroImage"))
            (when (bool_decide (heroImage b = Some k ∧ heroImage b' ≠ Some k
                                ∧ m_isDeleted m = false))
               (MediaModel.pull (sameUsage BlogModel id "heroImage")) m))))))
          <$> media db !! k.
Proof.
  intros He Hup. unfold updateBlog, findById, visible in Hup. rewrite He in Hup.
  simpl in Hup. destruct (isDeleted b) eqn:Hd; simpl in Hup; [done|].
  destruct (objectAssign _ _ _) as [ed|] eqn:Ha; simpl in Hup; [|done].
  destruct (save _ _ _ _ _) as [[blogs' b']|] eqn:Hs; simpl in Hup; [|done].
  apply save_Ok in Hs as (Hv & -> & -> & _).
  injection Hup as <- <-. exists ed. split_conj; try done.
  intros k b'. subst b'. cbn [media].
  rewrite !lookup_findByIdAndUpdate_moved, !lookup_updateMany_guarded,
    !lookup_findByIdAndUpdate_moved.
  destruct (media db !! k) as [m|]; [|done].
  cbn [fmap option_fmap option_map].
  by rewrite !deleted_when_pull, !deleted_when_push, !deleted_when_pull,
    !deleted_when_push, !deleted_when_pull.
Qed.










(** ** What an update may write *)

Lemma patchEvent_frame db id body user now db' r c :
  NoDup (keys body) →
  events db !! id = Some c →
  patchEvent db id body user now = Ok (db', r) →
  ∃ c', data r = Some c' ∧ events db' !! id = Some c'
        ∧ views c' = views c ∧ isDeleted c' = isDeleted c
        ∧ deletedAt c' = deletedAt c ∧ createdBy c' = createdBy c
        ∧ publishedAt c'
          = (if decide (status c ≠ published ∧ status c' = published
                        ∧ publishedAt c = None)
             then Some now else publishedAt c)
        ∧ slug c'
          = (if decide (title c' ≠ title c)
             then Some (slugify (title c') +:+ "-" +:+ pretty now) else slug c).
Proof.
  intros Hnd Hc Hp. unfold patchEvent, validateRequest in Hp.
  destruct (joiValidate _ body) as [value|] eqn:Hj; simpl in Hp; [|done].
  destruct (updateEvent_inv _ _ _ _ _ _ _ _ Hc Hp)
    as (ed & Hd & Ha & Hv & -> & Hev & _ & _).
  exists (doc (preSave now ed)). split; [done|].
  split; [rewrite Hev; apply lookup_insert_eq|].
  apply (assign_save_frame eventSchema value user c ed now Ha).
  - exact (joiValidate_NoDup _ _ _ Hnd Hj).
  - intros k Hk Hin. apply elem_of_cons in Hin as [->|Hin].
    + revert Hk. compute_done.
    + apply (joiValidate_keys _ _ _ Hj) in Hin.
      apply (protected_not_declared _ k (or_introl eventUpdate_names) Hk).
      apply elem_of_cons. right. exact Hin.
Qed.

Lemma patchBlog_frame db id body user now db' r c :
  NoDup (keys body) →
  blogs db !! id = Some c →
  patchBlog db id body user now = Ok (db', r) →
  ∃ c', data r = Some c' ∧ blogs db' !! id = Some c'
        ∧ views c' = views c ∧ isDeleted c' = isDeleted c
        ∧ deletedAt c' = deletedAt c ∧ createdBy c' = createdBy c
        ∧ publishedAt c'
          = (if decide (status c ≠ published ∧ status c' = published
                        ∧ publishedAt c = None)
             then Some now else publishedAt c)
        ∧ slug c'
          = (if decide (title c' ≠ title c)
             then Some (slugify (title c') +:+ "-" +:+ pretty now) else slug c).
Proof.
  intros Hnd Hc Hp. unfold patchBlog, validateRequest in Hp.
  destruct (joiValidate _ body) as [value|] eqn:Hj; simpl in Hp; [|done].
  destruct (updateBlog_inv _ _ _ _ _ _ _ _ Hc Hp)
    as (ed & Hd & Ha & Hv & -> & Hev & _ & _).
  exists (doc (preSave now ed)). split; [done|].
  split; [rewrite Hev; apply lookup_insert_eq|].
  apply (assign_save_frame blogSchema value user c ed now Ha).
  - exact (joiValidate_NoDup _ _ _ Hnd Hj).
  - intros k Hk Hin. apply elem_of_cons in Hin as [->|Hin].
    + revert Hk. compute_done.
    + apply (joiValidate_keys _ _ _ Hj) in Hin.
      apply (protected_not_declared _ k (or_intror blogUpdate_names) Hk).
      apply elem_of_cons. right. exact Hin.
Qed.

(** Without the validation step the handler would write the field: the
    stripping is what protects it. *)
Lemma updateEvent_unvalidated_sets_views db id user now c n :
  events db !! id = Some c → isDeleted c = false →
  validate eventSchema (hydrate c) = true →
  ∃ db' r, updateEvent db id [("views", VNum n)] user now = Ok (db', r)
           ∧ (views <$> events db' !! id) = Some n.
Proof.
  intros Hc Hd Hv. unfold updateEvent, findById, visible. rewrite Hc, Hd. simpl.
  rewrite save_stored.
  - simpl. eexists _, _. split; [reflexivity|]. simpl. rewrite lookup_insert_eq. simpl.
    rewrite preSave_unmodified; [done| |];
      by rewrite !isModified_assign_ne.
  - rewrite <- Hv. by apply validate_ext.
  - done.
  - by rewrite !isModified_assign_ne.
  - by rewrite !isModified_assign_ne.
Qed.

(** C10. Whatever the request body of a PATCH on an Event or Blog holds (each
    property once, as in any JavaScript object): what validation hands to the
    handler has declared keys only, and after a successful update [views],
    [isDeleted], [deletedAt] and [createdBy] are what they were;
    [publishedAt] is what it was unless the hook stamps it (status changed to
    published while it was unset), and [slug] is what it was unless the title
    changed, in which case the hook regenerates it. *)
Theorem C10_patch_frame (db : DB) (id : ObjectId) (body : Obj) (user : ObjectId)
    (now : Timestamp) (db' : DB) (r : Response) (c : Content) :
  NoDup (keys body) →
  (∀ value k, validateRequest EventValidator.updateSchema body = Ok value →
              k ∈ keys value → k ∈ declaredNames EventValidator.updateSchema)
  ∧ (∀ value k, validateRequest BlogValidator.updateSchema body = Ok value →
                k ∈ keys value → k ∈ declaredNames BlogValidator.updateSchema)
  ∧ (events db !! id = Some c → patchEvent db id body user now = Ok (db', r) →
     ∃ c', data r = Some c' ∧ events db' !! id = Some c'
           ∧ views c' = views c ∧ isDeleted c' = isDeleted c
           ∧ deletedAt c' = deletedAt c ∧ createdBy c' = createdBy c
           ∧ publishedAt c'
             = (if decide (status c ≠ published ∧ status c' = published
                           ∧ publishedAt c = None)
                then Some now else publishedAt c)
           ∧ slug c'
             = (if decide (title c' ≠ title c)
                then Some (slugify (title c') +:+ "-" +:+ pretty now) else slug c))
  ∧ (blogs db !! id = Some c → patchBlog db id body user now = Ok (db', r) →
     ∃ c', data r = Some c' ∧ blogs db' !! id = Some c'
           ∧ views c' = views c ∧ isDeleted c' = isDeleted c
           ∧ deletedAt c' = deletedAt c ∧ createdBy c' = createdBy c
           ∧ publishedAt c'
             = (if decide (status c ≠ published ∧ status c' = published
                           ∧ publishedAt c = None)
                then Some now else publishedAt c)
           ∧ slug c'
             = (if decide (title c' ≠ title c)
                then Some (slugify (title c') +:+ "-" +:+ pretty now) else slug c)).
Proof.
  intros Hnd. split_conj.
  - intros value k Hv. unfold validateRequest in Hv.
    destruct (joiValidate _ body) as [v|] eqn:Hj; [|done]. injection Hv as ->.
    exact (joiValidate_keys _ _ _ Hj k).
  - intros value k Hv. unfold validateRequest in Hv.
    destruct (joiValidate _ body) as [v|] eqn:Hj; [|done]. injection Hv as ->.
    exact (joiValidate_keys _ _ _ Hj k).
  - by apply patchEvent_frame.
  - by apply patchBlog_frame.
Qed.

(** ** The publication date *)

Lemma insert_keeps (coll : gmap N Content) id c d :
  coll !! id = Some c →
  (∀ t, publishedAt c = Some t → publishedAt d = Some t) →
  keepsPublishedAt coll (<[id := d]> coll).
Proof.
  intros Hc Hd k c0 t Hk Ht. destruct (decide (k = id)) as [->|Hne].
  - rewrite lookup_insert_eq. rewrite Hc in Hk. injection Hk as <-. eauto.
  - rewrite lookup_insert_ne by done. eauto.
Qed.

(** A validated PATCH body cannot name [publishedAt]. *)
Lemma patch_keeps S (sch : JoiObject) body value user c ed now :
  declaredNames sch = declaredNames EventValidator.updateSchema
  ∨ declaredNames sch = declaredNames BlogValidator.updateSchema →
  joiValidate sch body = Some value →
  objectAssign S (objSet "updatedBy" (VId user) value) (hydrate c) = Some ed →
  ∀ t, publishedAt c = Some t → publishedAt (doc (preSave now ed)) = Some t.
Proof.
  intros Hnames Hj Ha t Ht. apply preSave_keeps_publishedAt.
  destruct (objectAssign_frame _ _ _ _ Ha) as (_ & F2 & _).
  rewrite F2; [done|].
  intros Hin. apply elem_of_keys_objSet in Hin.
  assert ("publishedAt" ∈ ["slug"; "publishedAt"; "views"; "createdBy"; "isDeleted";
                           "deletedAt"]) as Hp by compute_done.
  assert ("publishedAt" ∈ "updatedBy" :: declaredNames sch) as Hin'.
  { destruct Hin as [Hin|Hin]; [done|].
    apply elem_of_cons. right. exact (joiValidate_keys _ _ _ Hj _ Hin). }
  destruct Hnames as [Hn|Hn]; rewrite Hn in Hin'.
  - by apply (protected_not_declared _ _ (or_introl eventUpdate_names) Hp).
  - by apply (protected_not_declared _ _ (or_intror blogUpdate_names) Hp).
Qed.

Ltac keeps_by_save Hf :=
  match goal with
  | |- context [save ?S ?now ?coll ?id ?ed] =>
      let Hs := fresh "Hs" in
      destruct (save S now coll id ed) as [[? ?]|] eqn:Hs; simpl; [|done];
      intros [= <- <-]; simpl;
      split; first [apply keepsPublishedAt_refl
                   |eapply save_stored_keeps; [exact Hf| |exact Hs]; done]
  end.

(** No handler drops or changes a publication date. *)
Lemma handle_keeps db r db' resp :
  handle db r = Ok (db', resp) →
  keepsPublishedAt (events db) (events db')
  ∧ keepsPublishedAt (blogs db) (blogs db').
Proof.
  destruct r; simpl.
  - (* POST /events *)
    unfold postEvent, validateRequest.
    destruct (joiValidate _ body) as [value|]; simpl; [|done].
    unfold createEvent. destruct (create _ _ _ _ _) as [[ev e]|] eqn:Hc; simpl; [|done].
    intros [= <- <-]. simpl. split; [by eapply create_keeps|apply keepsPublishedAt_refl].
  - (* PATCH /events/:id *)
    unfold patchEvent, validateRequest.
    destruct (joiValidate _ body) as [value|] eqn:Hj; simpl; [|done].
    intros Hup. destruct (events db !! id) as [c|] eqn:Hc.
    + destruct (updateEvent_inv _ _ _ _ _ _ _ _ Hc Hup)
        as (ed & _ & Ha & _ & _ & -> & -> & _).
      split; [|apply keepsPublishedAt_refl].
      apply (insert_keeps _ _ _ _ Hc).
      by apply (patch_keeps eventSchema _ body value user c ed now (or_introl eq_refl)).
    + unfold updateEvent, findById in Hup. by rewrite Hc in Hup.
  - (* DELETE /events/:id *)
    unfold deleteEvent. destruct (findById _ _ _) as [c|] eqn:Hf; simpl; [|done].
    apply findById_Some in Hf. unfold softDelete. keeps_by_save Hf.
  - (* POST /events/:id/restore *)
    unfold restoreEvent. destruct (findById _ _ _) as [c|] eqn:Hf; simpl; [|done].
    apply findById_Some in Hf. destruct (negb (isDeleted c)); [done|].
    unfold restore. keeps_by_save Hf.
  - (* GET /events/:id *)
    unfold getEvent. destruct (findById _ _ _) as [c|] eqn:Hf; simpl; [|done].
    apply findById_Some in Hf.
    destruct (negb (bool_decide (status c = published)) && negb admin); [done|].
    destruct (bool_decide (status c = published)).
    + keeps_by_save Hf.
    + intros [= <- <-]. split; apply keepsPublishedAt_refl.
  - (* GET /events/slug/:slug *)
    unfold getEventBySlug.
    destruct (findOneBySlug _ _) as [[id c]|] eqn:Hf; simpl; [|done].
    apply findOneBySlug_Some in Hf. keeps_by_save Hf.
  - (* POST /blogs *)
    unfold postBlog, validateRequest.
    destruct (joiValidate _ body) as [value|]; simpl; [|done].
    unfold createBlog. destruct (negb (truthy _)); [done|].
    destruct (create _ _ _ _ _) as [[bl b]|] eqn:Hc; simpl; [|done].
    intros [= <- <-]. simpl. split; [apply keepsPublishedAt_refl|by eapply create_keeps].
  - (* PATCH /blogs/:id *)
    unfold patchBlog, validateRequest.
    destruct (joiValidate _ body) as [value|] eqn:Hj; simpl; [|done].
    intros Hup. destruct (blogs db !! id) as [c|] eqn:Hc.
    + destruct (updateBlog_inv _ _ _ _ _ _ _ _ Hc Hup)
        as (ed & _ & Ha & _ & _ & -> & -> & _).
      split; [apply keepsPublishedAt_refl|].
      apply (insert_keeps _ _ _ _ Hc).
      by apply (patch_keeps blogSchema _ body value user c ed now (or_intror eq_refl)).
    + unfold updateBlog, findById in Hup. by rewrite Hc in Hup.
  - (* DELETE /blogs/:id *)
    unfold deleteBlog. destruct (findById _ _ _) as [c|] eqn:Hf; simpl; [|done].
    apply findById_Some in Hf. unfold softDelete. keeps_by_save Hf.
  - (* POST /blogs/:id/restore *)
    unfold restoreBlog. destruct (findById _ _ _) as [c|] eqn:Hf; simpl; [|done].
    apply findById_Some in Hf. destruct (negb (isDeleted c)); [done|].
    unfold restore. keeps_by_save Hf.
  - (* GET /blogs/:id *)
    unfold getBlog. destruct (findById _ _ _) as [c|] eqn:Hf; simpl; [|done].
    apply findById_Some in Hf.
    destruct (negb (bool_decide (status c = published)) && negb admin); [done|].
    destruct (bool_decide (status c = published)).
    + keeps_by_save Hf.
    + intros [= <- <-]. split; apply keepsPublishedAt_refl.
  - (* GET /blogs/slug/:slug *)
    unfold getBlogBySlug.
    destruct (findOneBySlug _ _) as [[id c]|] eqn:Hf; simpl; [|done].
    apply findOneBySlug_Some in Hf. keeps_by_save Hf.
  - (* DELETE /media/:id *)
    unfold deleteMedia. destruct (MediaModel.findById _ _) as [m|]; simpl; [|done].
    destruct (MediaModel.isInUse m); [done|]. destruct (unlink (path m)); [|done].
    intros [= <- <-]. split; apply keepsPublishedAt_refl.
Qed.

Lemma run_keeps rs db :
  keepsPublishedAt (events db) (events (run db rs))
  ∧ keepsPublishedAt (blogs db) (blogs (run db rs)).
Proof.
  revert db. induction rs as [|r rs IH]; intros db; simpl.
  - split; apply keepsPublishedAt_refl.
  - destruct (IH (step db r)) as [IHe IHb].
    assert (keepsPublishedAt (events db) (events (step db r))
            ∧ keepsPublishedAt (blogs db) (blogs (step db r))) as [He Hb].
    { unfold step. destruct (handle db r) as [[db' resp]|] eqn:Hh.
      - by apply (handle_keeps _ _ _ _ Hh).
      - split; apply keepsPublishedAt_refl. }
    split; eapply keepsPublishedAt_trans; eauto.
Qed.

(** A validated POST body cannot name [publishedAt] either: a new event has
    a publication date exactly when it is created as published. *)
Lemma postEvent_publishedAt db body user newId now db' r :
  postEvent db body user newId now = Ok (db', r) →
  ∃ c', data r = Some c' ∧ events db' !! newId = Some c'
        ∧ publishedAt c' = if decide (status c' = published) then Some now else None.
Proof.
  unfold postEvent, validateRequest.
  destruct (joiValidate _ body) as [value|] eqn:Hj; simpl; [|done].
  unfold createEvent. destruct (create _ _ _ _ _) as [[ev e]|] eqn:Hc; simpl; [|done].
  intros [= <- <-]. simpl.
  apply create_Ok in Hc as (ed & Ha & Hnew & Hv & -> & -> & Hn).
  eexists. split; [done|]. split; [apply lookup_insert_eq|].
  destruct (objectAssign_frame _ _ _ _ Ha) as (_ & F2 & _).
  destruct (preSave_frame now ed) as (_ & P2 & _).
  rewrite preSave_publishedAt, P2, F2.
  - simpl. rewrite andb_true_r.
    destruct (decide (status (doc ed) = published)) as [Hs|Hs].
    + rewrite (bool_decide_eq_true_2 _ Hs), andb_true_r.
      destruct (objectAssign_status_new _ _ _ _ Ha eq_refl) as [Hm|Hst].
      * unfold isModified. by rewrite bool_decide_eq_true_2.
      * simpl in Hst. congruence.
    + by rewrite (bool_decide_eq_false_2 _ Hs), andb_false_r.
  - intros Hin. apply elem_of_keys_objSet in Hin as [Hin|Hin]; [done|].
    apply elem_of_keys_objSet in Hin as [Hin|Hin]; [done|].
    apply (joiValidate_keys _ _ _ Hj) in Hin. rewrite eventCreate_names in Hin.
    revert Hin. compute_done.
Qed.

Lemma postBlog_publishedAt db body user newId now db' r :
  postBlog db body user newId now = Ok (db', r) →
  ∃ c', data r = Some c' ∧ blogs db' !! newId = Some c'
        ∧ publishedAt c' = if decide (status c' = published) then Some now else None.
Proof.
  unfold postBlog, validateRequest.
  destruct (joiValidate _ body) as [value|] eqn:Hj; simpl; [|done].
  unfold createBlog. destruct (negb (truthy _)); [done|].
  destruct (create _ _ _ _ _) as [[bl b]|] eqn:Hc; simpl; [|done].
  intros [= <- <-]. simpl.
  apply create_Ok in Hc as (ed & Ha & Hnew & Hv & -> & -> & Hn).
  eexists. split; [done|]. split; [apply lookup_insert_eq|].
  destruct (objectAssign_frame _ _ _ _ Ha) as (_ & F2 & _).
  destruct (preSave_frame now ed) as (_ & P2 & _).
  rewrite preSave_publishedAt, P2, F2.
  - simpl. rewrite andb_true_r.
    destruct (decide (status (doc ed) = published)) as [Hs|Hs].
    + rewrite (bool_decide_eq_true_2 _ Hs), andb_true_r.
      destruct (objectAssign_status_new _ _ _ _ Ha eq_refl) as [Hm|Hst].
      * unfold isModified. by rewrite bool_decide_eq_true_2.
      * simpl in Hst. congruence.
    + by rewrite (bool_decide_eq_false_2 _ Hs), andb_false_r.
  - intros Hin. do 3 (apply elem_of_keys_objSet in Hin as [Hin|Hin]; [done|]).
    apply (joiValidate_keys _ _ _ Hj) in Hin. rewrite blogCreate_names in Hin.
    revert Hin. compute_done.
Qed.

(** C8. The publication date of an Event or Blog: a new entity has one
    exactly when it is created as published; a PATCH on an entity without
    one stamps it exactly when the status changes to published; and once an
    entity has a publication date, it is still stored with that same date
    after any sequence of requests, whatever they do to the status. *)
Theorem C8_publishedAt_once (db : DB) (id : ObjectId) (c : Content) :
  (∀ body user now db' r,
     postEvent db body user id now = Ok (db', r) →
     ∃ c', events db' !! id = Some c'
           ∧ publishedAt c'
             = if decide (status c' = published) then Some now else None)
  ∧ (∀ body user now db' r,
       postBlog db body user id now = Ok (db', r) →
       ∃ c', blogs db' !! id = Some c'
             ∧ publishedAt c'
               = if decide (status c' = published) then Some now else None)
  ∧ (∀ body user now db' r,
       NoDup (keys body) → events db !! id = Some c → publishedAt c = None →
       patchEvent db id body user now = Ok (db', r) →
       ∃ c', events db' !! id = Some c'
             ∧ publishedAt c'
               = if decide (status c ≠ published ∧ status c' = published)
                 then Some now else None)
  ∧ (∀ body user now db' r,
       NoDup (keys body) → blogs db !! id = Some c → publishedAt c = None →
       patchBlog db id body user now = Ok (db', r) →
       ∃ c', blogs db' !! id = Some c'
             ∧ publishedAt c'
               = if decide (status c ≠ published ∧ status c' = published)
                 then Some now else None)
  ∧ (∀ t rs,
       events db !! id = Some c → publishedAt c = Some t →
       ∃ c', events (run db rs) !! id = Some c' ∧ publishedAt c' = Some t)
  ∧ (∀ t rs,
       blogs db !! id = Some c → publishedAt c = Some t →
       ∃ c', blogs (run db rs) !! id = Some c' ∧ publishedAt c' = Some t).
Proof.
  split_conj.
  - intros body user now db' r Hp.
    destruct (postEvent_publishedAt _ _ _ _ _ _ _ Hp) as (c' & _ & ? & ?). eauto.
  - intros body user now db' r Hp.
    destruct (postBlog_publishedAt _ _ _ _ _ _ _ Hp) as (c' & _ & ? & ?). eauto.
  - intros body user now db' r Hnd Hc Hnone Hp.
    destruct (patchEvent_frame _ _ _ _ _ _ _ _ Hnd Hc Hp)
      as (c' & _ & Hc' & _ & _ & _ & _ & Hpub & _).
    exists c'. split; [done|]. rewrite Hpub, Hnone.
    apply decide_ext. naive_solver.
  - intros body user now db' r Hnd Hc Hnone Hp.
    destruct (patchBlog_frame _ _ _ _ _ _ _ _ Hnd Hc Hp)
      as (c' & _ & Hc' & _ & _ & _ & _ & Hpub & _).
    exists c'. split; [done|]. rewrite Hpub, Hnone.
    apply decide_ext. naive_solver.
  - intros t rs Hc Ht. by apply (proj1 (run_keeps rs db) id c t).
  - intros t rs Hc Ht. by apply (proj2 (run_keeps rs db) id c t).
Qed.

(** ** Concurrent updates *)





End Claims.

(** * The theorems at concrete inputs *)

Section Witnesses.
Local Existing Instance sampleExternals.
Local Existing Instance sampleRules.

Lemma C4_witness :
  MediaModel.findById (media galaDb) 161 = Some (sampleMedia [usage EventModel 1 "heroImage"] false)
  ∧ MediaModel.findByIdAndUpdate 161 (MediaModel.push (usage EventModel 1 "heroImage"))
      (MediaModel.findByIdAndUpdate 161 (MediaModel.push (usage EventModel 1 "heroImage"))
         (media galaDb))
    ≠ MediaModel.findByIdAndUpdate 161 (MediaModel.push (usage EventModel 1 "heroImage"))
        (media galaDb).
Proof.
  split; [vm_compute; reflexivity|].
  apply (C4_push_twice_duplicates (media galaDb) 161
           (sampleMedia [usage EventModel 1 "heroImage"] false)
           (usage EventModel 1 "heroImage")).
  vm_compute; reflexivity.
Defined.


Lemma C3_witness :
  ∃ db1 r1,
    createEvent emptyDb galaBody 7 1 1000 = Ok (db1, r1)
    ∧ events db1 !! 2%N = None
    ∧ createEvent db1 galaBody 7 2 1000 = Err (DuplicateKey "slug").
Proof.
  do 2 eexists. split; [vm_compute; reflexivity|].
  split; [vm_compute; reflexivity|].
  eapply (C3_same_millisecond_collision emptyDb galaBody 7 1 2 1000);
    vm_compute; reflexivity.
Defined.

Lemma C6_counterexample :
  (isDeleted <$> events deletedGalaDb !! 1%N) = Some true
  ∧ (errorKind <$> thrown (deleteEvent deletedGalaDb 1 2000)) = Some NotFound
  ∧ (errorKind <$> thrown (deleteEvent deletedGalaDb 1 2000)) ≠ Some InvalidState.
Proof. split_conj; [vm_compute; reflexivity|vm_compute; reflexivity|vm_compute; discriminate]. Qed.

Lemma C6_witness :
  (events deletedGalaDb !! 1%N = Some (sampleEvent (Some 161%N) [162%N] draft true)
   ∨ blogs deletedGalaDb !! 1%N = Some (sampleEvent (Some 161%N) [162%N] draft true))
  ∧ deleteEvent deletedGalaDb 1 2000 = Err (ApiError 404 "Event not found")
  ∧ step deletedGalaDb (DeleteEvent 1 2000) = deletedGalaDb.
Proof.
  split; [left; vm_compute; reflexivity|].
  apply (C6_lifecycle_guards deletedGalaDb 1 2000
           (sampleEvent (Some 161%N) [162%N] draft true)).
  - left; vm_compute; reflexivity.
  - vm_compute; reflexivity.
Defined.



Lemma C2_witness :
  isDeleted (sampleEvent (Some 161%N) [162%N] draft false) = false
  ∧ ∃ db1 r1 db2 r2,
      deleteEvent galaDb 1 2000 = Ok (db1, r1)
      ∧ restoreEvent db1 1 3000 = Ok (db2, r2)
      ∧ ∀ m, m ∈ eventRefs (sampleEvent (Some 161%N) [162%N] draft false) →
             ∃ med med', media galaDb !! m = Some med ∧ media db2 !! m = Some med'
                         ∧ usedIn med' ≡ₚ usedIn med
                         ∧ setUsedIn (usedIn med) med' = med.
Proof.
  split; [vm_compute; reflexivity|].
  apply (C2_softDelete_restore_roundtrip galaDb 1
           (sampleEvent (Some 161%N) [162%N] draft false) 2000 3000).
  - vm_compute; reflexivity.
  - vm_compute; reflexivity.
  - vm_compute; reflexivity.
  - intros m Hm. unfold eventRefs, definedIds in Hm. simpl in Hm.
    apply elem_of_cons in Hm as [->|Hm];
      [|apply elem_of_cons in Hm as [->|Hm]; [|by apply elem_of_nil in Hm]].
    + exists (sampleMedia [usage EventModel 1 "heroImage"] false).
      split_conj; [vm_compute; reflexivity..|]. unfold tracksEntity.
      vm_compute. reflexivity.
    + exists (sampleMedia [usage EventModel 1 "gallery"] false).
      split_conj; [vm_compute; reflexivity..|]. unfold tracksEntity.
      vm_compute. reflexivity.
Defined.




Lemma C10_witness :
  NoDup (keys sneakyBody)
  ∧ events galaDb !! 1%N = Some (sampleEvent (Some 161%N) [162%N] draft false)
  ∧ ∃ db' r c',
      patchEvent galaDb 1 sneakyBody 7 2000 = Ok (db', r)
      ∧ data r = Some c' ∧ events db' !! 1%N = Some c'
      ∧ views c' = 0%Z ∧ isDeleted c' = false ∧ deletedAt c' = None
      ∧ createdBy c' = Some 7%N
      ∧ publishedAt c' = Some 2000%N
      ∧ slug c' = Some "charity-gala-1000".
Proof.
  assert (NoDup (keys sneakyBody)) as Hnd.
  { apply (bool_decide_unpack (NoDup (keys sneakyBody))). vm_compute. exact I. }
  split; [exact Hnd|]. split; [vm_compute; reflexivity|].
  assert (∃ db' r c0, patchEvent galaDb 1 sneakyBody 7 2000 = Ok (db', r)
                      ∧ data r = Some c0 ∧ status c0 = published
                      ∧ title c0 = "Charity Gala")
    as (db' & r & c0 & Hp & Hd & Hs & Ht).
  { do 3 eexists. split_conj; vm_compute; reflexivity. }
  destruct (C10_patch_frame galaDb 1 sneakyBody 7 2000 db' r
              (sampleEvent (Some 161%N) [162%N] draft false) Hnd)
    as (_ & _ & He & _).
  destruct He as (c' & Hr & Hc' & H1 & H2 & H3 & H4 & H5 & H6);
    [vm_compute; reflexivity|exact Hp|].
  rewrite Hd in Hr. injection Hr as <-.
  exists db', r, c0. split_conj; try done.
  - rewrite H5, Hs. vm_compute. reflexivity.
  - rewrite H6, Ht. vm_compute. reflexivity.
Defined.

Lemma C8_witness :
  events publishedGalaDb !! 1%N
  = Some (set_publishedAt (Some 2000%N) (sampleEvent (Some 161%N) [162%N] published false))
  ∧ ∃ c', events (run publishedGalaDb
                    [PatchEvent 1 (statusBody draft) 7 3000;
                     PatchEvent 1 (statusBody published) 8 4000;
                     PatchEvent 1 (statusBody archived) 7 5000;
                     GetEvent 1 true 6000]) !! 1%N = Some c'
          ∧ publishedAt c' = Some 2000%N.
Proof.
  split; [vm_compute; reflexivity|].
  destruct (C8_publishedAt_once publishedGalaDb 1
              (set_publishedAt (Some 2000%N)
                 (sampleEvent (Some 161%N) [162%N] published false)))
    as (_ & _ & _ & _ & Hkeep & _).
  apply Hkeep; vm_compute; reflexivity.
Defined.

(** Publish, withdraw, publish again: the first date stays. *)
Lemma publishedAt_scenario :
  (publishedAt <$> events
     (run galaDb [PatchEvent 1 (statusBody published) 7 2000;
                  PatchEvent 1 (statusBody draft) 7 3000;
                  PatchEvent 1 (statusBody published) 7 4000]) !! 1%N)
  = Some (Some 2000%N).
Proof. vm_compute. reflexivity. Qed.

(** The scenario of the specification: create with hero image 161, move the
    hero image to 163, soft-delete, restore. *)
Lemma gala_scenario :
  ∃ db1 r1 db2 r2 db3 r3 db4 r4,
    postEvent emptyGalleryDb galaBody 7 1 1000 = Ok (db1, r1)
    ∧ (usedIn <$> media db1 !! 161%N) = Some [usage EventModel 1 "heroImage"]
    ∧ patchEvent db1 1 heroBody 7 2000 = Ok (db2, r2)
    ∧ (usedIn <$> media db2 !! 161%N) = Some []
    ∧ (usedIn <$> media db2 !! 163%N) = Some [usage EventModel 1 "heroImage"]
    ∧ deleteEvent db2 1 3000 = Ok (db3, r3)
    ∧ (usedIn <$> media db3 !! 163%N) = Some []
    ∧ thrown (getEvent db3 1 true 3500) = Some (ApiError 404 "Event not found")
    ∧ restoreEvent db3 1 4000 = Ok (db4, r4)
    ∧ (usedIn <$> media db4 !! 163%N) = Some [usage EventModel 1 "heroImage"].
Proof.
  do 8 eexists.
  split; [vm_compute; reflexivity|]. split; [vm_compute; reflexivity|].
  split; [vm_compute; reflexivity|]. split; [vm_compute; reflexivity|].
  split; [vm_compute; reflexivity|]. split; [vm_compute; reflexivity|].
  split; [vm_compute; reflexivity|]. split; [vm_compute; reflexivity|].
  split; vm_compute; reflexivity.
Qed.
End Witnesses.

(** * Further properties of the code *)

Lemma filter_none_nil {A} (P : A → Prop) `{∀ x, Decision (P x)} (l : list A) :
  Forall (λ x, ¬ P x) l → filter P l = [].
Proof.
  induction 1 as [|x l Hx _ IH]; [done|]. by rewrite filter_cons_False.
Qed.

Lemma Forall_not_Exists {A} (P : A → Prop) (l : list A) :
  Forall (λ x, ¬ P x) l ↔ ¬ Exists P l.
Proof.
  rewrite Forall_forall, Exists_exists. naive_solver.
Qed.

(** ** The usage methods of the Media model *)

(** [addUsage] adds the entry unless one is there: afterwards the entry is
    present, no second copy has been added, every other entry is where it
    was, the asset counts as in use, and a second call changes nothing. *)
Theorem addUsage_adds_once (mo : ModelName) (id : ObjectId) (f : string) (m : Media) :
  let m' := MediaModel.addUsage mo id f m in
  Exists (sameUsage mo id f) (usedIn m')
  ∧ MediaModel.addUsage mo id f m' = m'
  ∧ filter (λ u, ¬ sameUsage mo id f u) (usedIn m')
    = filter (λ u, ¬ sameUsage mo id f u) (usedIn m)
  ∧ length (filter (sameUsage mo id f) (usedIn m'))
    = Nat.max 1 (length (filter (sameUsage mo id f) (usedIn m)))
  ∧ MediaModel.isInUse m' = true
  ∧ setUsedIn (usedIn m) m' = m.
Proof.
  intros m'. unfold m'.
  destruct (decide (Exists (sameUsage mo id f) (usedIn m))) as [He|He].
  - rewrite (addUsage_present _ _ _ _ He). split_conj; try done.
    + by apply addUsage_present.
    + apply Exists_exists in He as (u & Hu & Hs).
      assert (u ∈ filter (sameUsage mo id f) (usedIn m)) as Hin
        by (by apply list_elem_of_filter).
      destruct (filter _ _); [by apply elem_of_nil in Hin|]. simpl. lia.
    + unfold MediaModel.isInUse. destruct (usedIn m); [|done].
      by apply Exists_nil in He.
    + apply setUsedIn_id.
  - rewrite (addUsage_absent _ _ _ _ He). simpl.
    assert (filter (sameUsage mo id f) (usedIn m) = []) as Hnil.
    { apply filter_none_nil. apply Forall_forall. intros u Hu Hs.
      apply He. apply Exists_exists. eauto. }
    split_conj.
    + apply Exists_app. right. apply Exists_cons_hd. done.
    + apply addUsage_present. simpl. apply Exists_app. right.
      by apply Exists_cons_hd.
    + rewrite filter_app. rewrite (filter_cons_False _ _ []).
      * by rewrite filter_nil, app_nil_r.
      * intros Hn. by apply Hn.
    + rewrite filter_app, Hnil. rewrite (filter_cons_True _ _ []) by done. done.
    + unfold MediaModel.isInUse. simpl. by destruct (usedIn m).
    + by destruct m.
Qed.

(** [removeUsage] removes every copy of the entry and nothing else, keeps
    the order of what stays, is the identity when the entry is absent, and is
    what the [$pull] of the handlers does. *)
Theorem removeUsage_removes_all (mo : ModelName) (id : ObjectId) (f : string) (m : Media) :
  let m' := MediaModel.removeUsage mo id f m in
  (∀ u, u ∈ usedIn m' ↔ u ∈ usedIn m ∧ ¬ sameUsage mo id f u)
  ∧ usedIn m' `sublist_of` usedIn m
  ∧ MediaModel.removeUsage mo id f m' = m'
  ∧ (Forall (λ u, ¬ sameUsage mo id f u) (usedIn m) ↔ m' = m)
  ∧ m' = MediaModel.pull (sameUsage mo id f) m
  ∧ setUsedIn (usedIn m) m' = m.
Proof.
  intros m'. unfold m'. split_conj.
  - intros u. unfold MediaModel.removeUsage. simpl. rewrite list_elem_of_filter. tauto.
  - apply sublist_filter.
  - apply removeUsage_idempotent.
  - split.
    + intros Hall. apply removeUsage_absent. by apply Forall_not_Exists.
    + intros Heq. apply (f_equal usedIn) in Heq. simpl in Heq.
      rewrite <- Heq. apply Forall_forall. intros u Hu.
      by apply list_elem_of_filter in Hu as [? _].
  - done.
  - by destruct m.
Qed.

(** Adding an entry that was absent and removing it again gives the asset
    back as it was. *)
Theorem addUsage_removeUsage_roundtrip (mo : ModelName) (id : ObjectId) (f : string)
    (m : Media) :
  Forall (λ u, ¬ sameUsage mo id f u) (usedIn m) →
  MediaModel.removeUsage mo id f (MediaModel.addUsage mo id f m) = m
  ∧ MediaModel.isInUse (MediaModel.addUsage mo id f m) = true
  ∧ MediaModel.isInUse (MediaModel.removeUsage mo id f (MediaModel.addUsage mo id f m))
    = MediaModel.isInUse m.
Proof.
  intros Hall.
  assert (¬ Exists (sameUsage mo id f) (usedIn m)) as He
    by (by apply Forall_not_Exists).
  assert (MediaModel.removeUsage mo id f (MediaModel.addUsage mo id f m) = m) as Hrt.
  { rewrite (addUsage_absent _ _ _ _ He). unfold MediaModel.removeUsage. simpl.
    rewrite filter_app. rewrite (filter_cons_False _ _ []) by (intros Hn; by apply Hn).
    rewrite filter_nil, app_nil_r.
    rewrite (filter_id_Forall _ _ Hall). by destruct m. }
  split_conj; [done| |by rewrite Hrt].
  rewrite (addUsage_absent _ _ _ _ He). unfold MediaModel.isInUse. simpl.
  by destruct (usedIn m).
Qed.

(** A soft-deleted asset is hidden from [findById] and [findByIdAndUpdate],
    so it can be neither updated by id nor hard-deleted through the API
    (404), while [updateMany] still writes to it; its usage entries
    survive, and [restore] brings the stored asset back as it was. *)
Theorem media_softDelete_hides (ms : gmap N Media) (ev bl : gmap N Content)
    (k : ObjectId) (m : Media) (now : Timestamp) (unlink : string → bool) :
  ms !! k = Some m → m_isDeleted m = false → m_deletedAt m = None →
  let hidden := <[k := MediaModel.softDelete now m]> ms in
  MediaModel.findById hidden k = None
  ∧ (∀ f, MediaModel.findByIdAndUpdate k f hidden = hidden)
  ∧ (∀ u, (usedIn <$> MediaModel.updateMany [k] (MediaModel.push u) hidden !! k)
          = Some (usedIn m ++ [u]))
  ∧ deleteMedia unlink {| events := ev; blogs := bl; media := hidden |} k
    = Err (ApiError 404 "Media not found")
  ∧ usedIn (MediaModel.softDelete now m) = usedIn m
  ∧ <[k := MediaModel.restore (MediaModel.softDelete now m)]> hidden = ms.
Proof.
  intros Hk Hd Hat hidden.
  assert (MediaModel.findById hidden k = None) as Hf.
  { unfold MediaModel.findById, hidden. by rewrite lookup_insert_eq. }
  split_conj.
  - done.
  - intros f. unfold MediaModel.findByIdAndUpdate. by rewrite Hf.
  - intros u. rewrite lookup_updateMany. unfold hidden. rewrite lookup_insert_eq.
    simpl. rewrite decide_True by (apply elem_of_cons; by left). done.
  - unfold deleteMedia. simpl. by rewrite Hf.
  - done.
  - unfold hidden. rewrite insert_insert_eq.
    assert (MediaModel.restore (MediaModel.softDelete now m) = m) as ->.
    { destruct m; simpl in *. by subst. }
    by apply insert_id.
Qed.

(** ** The day of the month with its ordinal suffix *)

Lemma ordinalSuffix_below_100 (v : Z) :
  (0 ≤ v < 100)%Z →
  EventHook.ordinalSuffix v
  = if decide (11 ≤ v ≤ 13)%Z then "th"
    else if decide (v `mod` 10 = 1)%Z then "st"
    else if decide (v `mod` 10 = 2)%Z then "nd"
    else if decide (v `mod` 10 = 3)%Z then "rd"
    else "th".
Proof.
  intros Hv.
  assert (Forall (λ v, EventHook.ordinalSuffix v
                       = if decide (11 ≤ v ≤ 13)%Z then "th"
                         else if decide (v `mod` 10 = 1)%Z then "st"
                         else if decide (v `mod` 10 = 2)%Z then "nd"
                         else if decide (v `mod` 10 = 3)%Z then "rd"
                         else "th") (seqZ 0 100)) as Hall.
  { apply (bool_decide_unpack _). vm_compute. exact I. }
  rewrite Forall_forall in Hall. apply Hall. apply elem_of_seqZ. lia.
Qed.

(** For every day number the suffix is the English one: "th" for 11, 12
    and 13 (within each hundred), otherwise "st", "nd", "rd" after a last
    digit 1, 2, 3, and "th" after any other digit. *)
Theorem ordinalSuffix_english (day : Z) :
  (0 ≤ day)%Z →
  EventHook.ordinalSuffix day
  = if decide (11 ≤ day `mod` 100 ≤ 13)%Z then "th"
    else if decide (day `mod` 10 = 1)%Z then "st"
    else if decide (day `mod` 10 = 2)%Z then "nd"
    else if decide (day `mod` 10 = 3)%Z then "rd"
    else "th".
Proof.
  intros Hd.
  assert (EventHook.ordinalSuffix day = EventHook.ordinalSuffix (day `mod` 100)) as ->.
  { assert (Z.rem day 100 = day `mod` 100)%Z as H1
      by (apply Z.rem_mod_nonneg; lia).
    assert (Z.rem (day `mod` 100) 100 = day `mod` 100)%Z as H2.
    { rewrite Z.rem_mod_nonneg; [apply Zmod_mod| |lia].
      apply Z.mod_pos_bound. lia. }
    unfold EventHook.ordinalSuffix. cbv zeta. by rewrite H1, H2. }
  rewrite ordinalSuffix_below_100 by (apply Z.mod_pos_bound; lia).
  assert ((day `mod` 100) `mod` 10 = day `mod` 10)%Z as ->; [|done].
  apply Z.mod_mod_divide. by exists 10%Z.
Qed.

(** ** The reading time of a blog *)

Lemma string_app_cons c (s1 s2 : string) : String c s1 +:+ s2 = String c (s1 +:+ s2).
Proof. reflexivity. Qed.

Lemma string_app_assoc (s1 s2 s3 : string) : (s1 +:+ s2) +:+ s3 = s1 +:+ s2 +:+ s3.
Proof.
  induction s1 as [|c s1 IH]; [done|]. rewrite !string_app_cons. by f_equal.
Qed.


Lemma string_length_app (s1 s2 : string) :
  String.length (s1 +:+ s2) = (String.length s1 + String.length s2)%nat.
Proof.
  induction s1 as [|c s1 IH]; [done|]. rewrite string_app_cons. simpl. by rewrite IH.
Qed.





Lemma length_splitGo b cur s :
  (1 ≤ length (BlogHook.splitGo b cur s) ≤ String.length s + 1)%nat.
Proof.
  revert b cur. induction s as [|c s IH]; intros b cur; simpl; [lia|].
  destruct (BlogHook.isSpace c).
  - destruct b; simpl; pose proof (IH true ""); lia.
  - pose proof (IH false (cur +:+ String c "")). lia.
Qed.

(** Every content, the empty one included, counts at least one word and
    gets a reading time of at least one minute; the reading time is the
    word count divided by 200, rounded up. *)
Theorem readTime_bounds (content : string) :
  (1 ≤ BlogHook.wordCount content ≤ String.length content + 1)%nat
  ∧ (1 ≤ BlogHook.readTime content)%nat
  ∧ (200 * (BlogHook.readTime content - 1) < BlogHook.wordCount content
     ≤ 200 * BlogHook.readTime content)%nat
  ∧ BlogHook.wordCount "" = 1%nat.
Proof.
  pose proof (length_splitGo false "" content) as Hl.
  unfold BlogHook.readTime, BlogHook.wordCount, BlogHook.split.
  set (n := length (BlogHook.splitGo false "" content)) in *.
  pose proof (Nat.div_mod_eq (n + 199) 200) as Hdm.
  pose proof (Nat.mod_upper_bound (n + 199) 200) as Hm.
  split_conj; try done; try lia.
Qed.


(** ** Names and types of uploaded files *)

Lemma allChars_replaceUnsafe s : allChars Multer.isSafe (Multer.replaceUnsafe s) = true.
Proof.
  induction s as [|c s IH]; [done|]. simpl. rewrite IH, andb_true_r.
  unfold Multer.isSafe. destruct (Multer.isLowerAlnum c) eqn:E.
  - by rewrite E.
  - rewrite bool_decide_eq_true_2 by done. apply orb_true_r.
Qed.

Lemma allChars_substring p n m s :
  allChars p s = true → allChars p (String.substring n m s) = true.
Proof.
  revert n m. induction s as [|c s IH]; intros n m Hall.
  - by destruct n, m.
  - simpl in Hall. apply andb_prop in Hall as [Hc Hs].
    destruct n, m; simpl; rewrite ?Hc; simpl; try done; by apply IH.
Qed.

Lemma length_substring_0 m s : (String.length (String.substring 0 m s) ≤ m)%nat.
Proof.
  revert m. induction s as [|c s IH]; intros m.
  - destruct m; simpl; lia.
  - destruct m; simpl; [lia|]. pose proof (IH m). lia.
Qed.

(** The stored file name is a sanitised stem, a dash, the clock value, a
    dash, the random number and the original extension; the stem has at
    most 50 characters, each of them a lower-case letter, a digit or a
    dash, whatever the original name is. *)
Theorem filename_stem_safe `{!Multer.PathLib} (now : Timestamp) (random : N)
    (originalname : string) :
  ∃ name,
    Multer.filename now random originalname
    = name +:+ "-" +:+ pretty now +:+ "-" +:+ pretty random
      +:+ Multer.extname originalname
    ∧ (String.length name ≤ 50)%nat
    ∧ allChars Multer.isSafe name = true.
Proof.
  exists (String.substring 0 50
            (Multer.replaceUnsafe
               (Multer.toLowerCase
                  (Multer.basename originalname (Multer.extname originalname))))).
  split; [|split].
  - unfold Multer.filename. cbv zeta. do 2 f_equal.
    rewrite string_app_assoc, (string_app_assoc "-"). reflexivity.
  - apply length_substring_0.
  - apply allChars_substring, allChars_replaceUnsafe.
Qed.

Lemma allChars_pretty_N_go (x : N) (s : string) :
  allChars Multer.isDigit s = true → allChars Multer.isDigit (pretty_N_go x s) = true.
Proof.
  revert s. induction (N.lt_wf_0 x) as [x _ IH]; intros s Hs.
  destruct (decide (x = 0%N)) as [->|Hx]; [by rewrite pretty_N_go_0|].
  rewrite pretty_N_go_step by lia. apply IH.
  - apply N.div_lt; lia.
  - simpl. rewrite Hs, andb_true_r.
    assert (x `mod` 10 < 10)%N as Hlt by (apply N.mod_lt; lia).
    destruct (x `mod` 10)%N as [|p]; [done|].
    do 4 (destruct p as [p|p|]; try done; try lia).
Qed.

Lemma allChars_pretty_N (x : N) : allChars Multer.isDigit (pretty x) = true.
Proof.
  unfold pretty, pretty_N. case_decide; [done|]. by apply allChars_pretty_N_go.
Qed.

(** A string of digits ends where the first dash is. *)
Lemma digits_dash_inj (d1 d2 r1 r2 : string) :
  allChars Multer.isDigit d1 = true → allChars Multer.isDigit d2 = true →
  d1 +:+ "-" +:+ r1 = d2 +:+ "-" +:+ r2 → d1 = d2 ∧ r1 = r2.
Proof.
  revert d2. induction d1 as [|c d1 IH]; intros d2 H1 H2 Heq.
  - destruct d2 as [|c2 d2].
    + by injection Heq.
    + rewrite string_app_cons in Heq. injection Heq as <- _.
      simpl in H2. first [discriminate|by apply andb_prop in H2 as [? _]].
  - destruct d2 as [|c2 d2].
    + rewrite string_app_cons in Heq. injection Heq as -> _.
      simpl in H1. first [discriminate|by apply andb_prop in H1 as [? _]].
    + rewrite !string_app_cons in Heq. injection Heq as -> Heq.
      simpl in H1, H2. apply andb_prop in H1 as [_ H1]. apply andb_prop in H2 as [_ H2].
      destruct (IH d2 H1 H2 Heq) as [-> ->]. done.
Qed.

Lemma string_app_inv_tail (s1 s2 t : string) : s1 +:+ t = s2 +:+ t → s1 = s2.
Proof.
  revert s2. induction s1 as [|c s1 IH]; intros s2 Heq.
  - destruct s2 as [|c2 s2]; [done|]. apply (f_equal String.length) in Heq.
    rewrite !string_length_app in Heq. simpl in Heq. lia.
  - destruct s2 as [|c2 s2].
    + apply (f_equal String.length) in Heq.
      rewrite !string_length_app in Heq. simpl in Heq. lia.
    + rewrite !string_app_cons in Heq. injection Heq as -> Heq. f_equal. by apply IH.
Qed.

(** Two uploads of a file with the same original name get different stored
    names as soon as the clock value or the random number differs. *)
Theorem filename_unique `{!Multer.PathLib} (now1 now2 : Timestamp) (random1 random2 : N)
    (originalname : string) :
  now1 ≠ now2 ∨ random1 ≠ random2 →
  Multer.filename now1 random1 originalname ≠ Multer.filename now2 random2 originalname.
Proof.
  intros Hne Heq. unfold Multer.filename in Heq. cbv zeta in Heq.
  apply (inj (String.app _)) in Heq. apply (inj (String.app "-")) in Heq.
  apply string_app_inv_tail in Heq.
  apply digits_dash_inj in Heq as [H1 H2]; [|apply allChars_pretty_N..].
  apply (inj pretty) in H1. apply (inj pretty) in H2. naive_solver.
Qed.

(** With the default lists, a file the filter accepts goes to the video
    folder exactly when its type is one of the four video types, and to the
    image folder exactly when it is one of the four image types. *)
Lemma fileFilter_default_routing (mimetype : string) :
  Multer.fileFilter None None mimetype = true →
  (Multer.isVideo mimetype = true ↔ mimetype ∈ Multer.defaultVideoTypes)
  ∧ (Multer.isVideo mimetype = false ↔ mimetype ∈ Multer.defaultImageTypes).
Proof.
  unfold Multer.fileFilter. simpl. intros Hin. apply bool_decide_eq_true_1 in Hin.
  repeat (apply elem_of_cons in Hin as [->|Hin]);
    try (by apply elem_of_nil in Hin); compute_done.
Qed.

(** ** Listings *)

Section ListingFacts.
Context `{!Externals} `{!QueryEngine}.

Lemma elem_of_findContent coll query key k c :
  (k, c) ∈ findContent coll query key
  ↔ coll !! k = Some c ∧ isDeleted c = false
    ∧ forallb (λ q, holds q c) query = true.
Proof.
  unfold findContent. rewrite (sortContent_perm key _).
  rewrite list_elem_of_filter, elem_of_map_to_list. simpl. tauto.
Qed.

Lemma elem_of_findMedia ms query key k m :
  (k, m) ∈ findMedia ms query key
  ↔ ms !! k = Some m ∧ m_isDeleted m = false
    ∧ forallb (λ q, mediaHolds q m) query = true.
Proof.
  unfold findMedia. rewrite (sortMedia_perm key _).
  rewrite list_elem_of_filter, elem_of_map_to_list. simpl. tauto.
Qed.

Lemma elem_of_pageOf {A} (page limit : Z) (l : list A) x :
  x ∈ pageOf page limit l → x ∈ l.
Proof.
  unfold pageOf. intros Hin.
  apply elem_of_take in Hin as (i & Hi & _).
  apply list_elem_of_lookup. rewrite lookup_drop in Hi. eauto.
Qed.

Lemma length_pageOf {A} (page limit : Z) (l : list A) :
  (1 ≤ page)%Z → (1 ≤ limit)%Z →
  Z.of_nat (length (pageOf page limit l))
  = Z.max 0 (Z.min limit (Z.of_nat (length l) - (page - 1) * limit))%Z.
Proof.
  intros Hp Hl. unfold pageOf. rewrite length_take, length_drop. nia.
Qed.

Lemma ceilDiv_spec (a b : Z) :
  (0 < b)%Z → ((ceilDiv a b - 1) * b < a ≤ ceilDiv a b * b)%Z.
Proof.
  intros Hb. unfold ceilDiv.
  pose proof (Z.div_mod (- a) b ltac:(lia)) as Hdm.
  pose proof (Z.mod_pos_bound (- a) b Hb) as Hm. nia.
Qed.

Lemma statusConds_holds admin st rest c :
  forallb (λ q, holds q c) (statusConds admin st ++ rest) = true →
  (admin = false → status c = published)
  ∧ (∀ s, admin = true → st = OnlyStatus s → status c = s).
Proof.
  rewrite forallb_app. intros Hall. apply andb_prop in Hall as [Hs _].
  destruct admin, st as [|s]; simpl in Hs; split; try done.
  - intros s' _ [= <-]. rewrite andb_true_r in Hs. by apply bool_decide_eq_true_1 in Hs.
  - intros _. rewrite andb_true_r in Hs. by apply bool_decide_eq_true_1 in Hs.
  - intros _. rewrite andb_true_r in Hs. by apply bool_decide_eq_true_1 in Hs.
Qed.

(** Whatever the query string asks for, every entry of a listing is a
    stored entity that is not soft-deleted; for a caller who is not an admin
    it is published, and for an admin who asks for one status it has that
    status. *)
Theorem listing_visibility (db : DB) (admin : bool) (eq : EventQuery) (bq : BlogQuery) :
  (∀ k c, (k, c) ∈ items (getEvents db admin eq) →
     events db !! k = Some c ∧ isDeleted c = false
     ∧ (admin = false → status c = published)
     ∧ (∀ s, admin = true → eq_status eq = OnlyStatus s → status c = s))
  ∧ (∀ k c, (k, c) ∈ items (getBlogs db admin bq) →
       blogs db !! k = Some c ∧ isDeleted c = false
       ∧ (admin = false → status c = published)
       ∧ (∀ s, admin = true → bq_status bq = OnlyStatus s → status c = s)).
Proof.
  split; intros k c Hin; simpl in Hin; apply elem_of_pageOf in Hin;
    apply elem_of_findContent in Hin as (Hk & Hd & Hall);
    (split; [done|split; [done|]]); by eapply statusConds_holds.
Qed.

Lemma filter_and_split {A} (P Q : A → Prop) `{∀ x, Decision (P x)} `{∀ x, Decision (Q x)}
    (l : list A) :
  length (filter Q l)
  = (length (filter (λ x, P x ∧ Q x) l) + length (filter (λ x, ¬ P x ∧ Q x) l))%nat.
Proof.
  induction l as [|x l IH]; [done|].
  rewrite !filter_cons. repeat case_decide; simpl; first [lia|exfalso; tauto].
Qed.

Lemma countContent_split coll query key :
  countContent coll query
  = (length (findContent coll query key)
     + length (filter (λ kc : ObjectId * Content,
                         isDeleted kc.2 = true
                         ∧ forallb (λ q, holds q kc.2) query = true)
                      (map_to_list coll)))%nat.
Proof.
  unfold countContent, findContent. rewrite (sortContent_perm key _).
  rewrite (filter_and_split (λ kc : ObjectId * Content, isDeleted kc.2 = false)
             (λ kc : ObjectId * Content, forallb (λ q, holds q kc.2) query = true)).
  f_equal; f_equal; apply list_filter_iff; intros [k c]; simpl;
    destruct (isDeleted c); naive_solver.
Qed.

Lemma countMedia_split ms query key :
  countMedia ms query
  = (length (findMedia ms query key)
     + length (filter (λ km : ObjectId * Media,
                         m_isDeleted km.2 = true
                         ∧ forallb (λ q, mediaHolds q km.2) query = true)
                      (map_to_list ms)))%nat.
Proof.
  unfold countMedia, findMedia. rewrite (sortMedia_perm key _).
  rewrite (filter_and_split (λ km : ObjectId * Media, m_isDeleted km.2 = false)
             (λ km : ObjectId * Media, forallb (λ q, mediaHolds q km.2) query = true)).
  f_equal; f_equal; apply list_filter_iff; intros [k m]; simpl;
    destruct (m_isDeleted m); naive_solver.
Qed.

(** The total of a listing counts the soft-deleted entries that match the
    query as well, although no page ever shows them: it is the number of
    entries the pages hold altogether plus the number of soft-deleted
    matches. *)
Theorem total_counts_soft_deleted (db : DB) (admin : bool) (eq : EventQuery)
    (bq : BlogQuery) (mq : MediaQuery) :
  pg_total (pagination (getEvents db admin eq))
  = (Z.of_nat (length (findContent (events db) (eventConds admin eq) (eq_sort eq)))
     + Z.of_nat (length (filter (λ kc : ObjectId * Content,
                                   isDeleted kc.2 = true
                                   ∧ forallb (λ q, holds q kc.2) (eventConds admin eq) = true)
                                (map_to_list (events db)))))%Z
  ∧ pg_total (pagination (getBlogs db admin bq))
    = (Z.of_nat (length (findContent (blogs db) (blogConds admin bq) (bq_sort bq)))
       + Z.of_nat (length (filter (λ kc : ObjectId * Content,
                                     isDeleted kc.2 = true
                                     ∧ forallb (λ q, holds q kc.2) (blogConds admin bq) = true)
                                  (map_to_list (blogs db)))))%Z
  ∧ pg_total (pagination (getMedia db mq))
    = (Z.of_nat (length (findMedia (media db) (mediaConds mq) (mq_sort mq)))
       + Z.of_nat (length (filter (λ km : ObjectId * Media,
                                     m_isDeleted km.2 = true
                                     ∧ forallb (λ q, mediaHolds q km.2) (mediaConds mq) = true)
                                  (map_to_list (media db)))))%Z.
Proof.
  split_conj; simpl.
  - rewrite (countContent_split _ _ (eq_sort eq)). lia.
  - rewrite (countContent_split _ _ (bq_sort bq)). lia.
  - rewrite (countMedia_split _ _ (mq_sort mq)). lia.
Qed.

(** For a validated page and limit: a page holds at most [limit] entries;
    [pages] is the least number of pages of that size that hold [total]
    entries; [hasMore] says exactly that the page is before page [pages]; and
    a page holds no more than what [total] leaves after the pages before
    it. *)
Theorem events_page_bounds (db : DB) (admin : bool) (q : EventQuery) :
  (1 ≤ eq_page q)%Z → (1 ≤ eq_limit q)%Z →
  let r := getEvents db admin q in
  let pg := pagination r in
  (Z.of_nat (length (items r)) ≤ eq_limit q)%Z
  ∧ ((pg_pages pg - 1) * eq_limit q < pg_total pg ≤ pg_pages pg * eq_limit q)%Z
  ∧ (pg_hasMore pg = true ↔ (eq_page q < pg_pages pg)%Z)
  ∧ (Z.of_nat (length (items r))
     ≤ Z.max 0 (pg_total pg - (eq_page q - 1) * eq_limit q))%Z
  ∧ (eq_page q > pg_pages pg → items r = [])%Z.
Proof.
  intros Hp Hl r pg.
  pose proof (length_pageOf (eq_page q) (eq_limit q)
                (findContent (events db) (eventConds admin q) (eq_sort q)) Hp Hl) as Hlen.
  pose proof (countContent_split (events db) (eventConds admin q) (eq_sort q)) as Hc.
  pose proof (ceilDiv_spec (Z.of_nat (countContent (events db) (eventConds admin q)))
                (eq_limit q) ltac:(lia)) as Hceil.
  unfold r, pg. simpl.
  change (length (pageOf _ _ _)) with
    (length (pageOf (eq_page q) (eq_limit q)
               (findContent (events db) (eventConds admin q) (eq_sort q)))) in *.
  split; [lia|]. split; [lia|]. split; [|split].
  - rewrite bool_decide_eq_true. nia.
  - lia.
  - intros Hgt. apply length_zero_iff_nil. nia.
Qed.




Lemma forallb_elem_of {A} (f : A → bool) (l : list A) (x : A) :
  forallb f l = true → x ∈ l → f x = true.
Proof.
  intros Hall Hin. apply list_elem_of_In in Hin.
  by apply (proj1 (forallb_forall f l) Hall).
Qed.

(** [getBlogs] compares [featured] with the string ['true']: of a value
    that is no string, such as the boolean a validated query holds, it makes
    the condition [isFeatured = false], so the listing then holds blogs that
    are not featured, also when the value is [true]. *)
Theorem getBlogs_featured_flag (db : DB) (admin : bool) (q : BlogQuery) (v : JsVal)
    (k : ObjectId) (c : Content) :
  bq_featured q = Some v → (k, c) ∈ items (getBlogs db admin q) →
  detailHolds (FeaturedIs (isString v "true")) c = true
  ∧ (∀ b, v = VBool b → detailHolds (FeaturedIs false) c = true)
  ∧ (v = VStr "true" → detailHolds (FeaturedIs true) c = true).
Proof.
  intros Hv Hin. simpl in Hin. apply elem_of_pageOf in Hin.
  apply elem_of_findContent in Hin as (_ & _ & Hall).
  assert (detailHolds (FeaturedIs (isString v "true")) c = true) as Hf.
  { apply (forallb_elem_of _ _ (FeaturedIs (isString v "true"))) in Hall; [done|].
    unfold blogConds. rewrite Hv. rewrite !elem_of_app. right. right. left.
    apply elem_of_cons. by left. }
  split_conj; [done| |].
  - by intros b ->.
  - by intros ->.
Qed.

(** [getMedia] applies the "unused" condition only when [unused] is the
    string ['true']; with the boolean a validated query holds, every live
    asset is part of the result, used or not. No listing shows a
    soft-deleted asset. *)
Theorem getMedia_unused_filter (db : DB) (q : MediaQuery) :
  (mq_unused q = VStr "true" →
     ∀ k m, (k, m) ∈ items (getMedia db q) → usedIn m = [])
  ∧ (∀ b, mq_unused q = VBool b → mq_type q = None →
       ∀ k m, media db !! k = Some m → m_isDeleted m = false →
              (k, m) ∈ findMedia (media db) (mediaConds q) (mq_sort q))
  ∧ (∀ k m, (k, m) ∈ items (getMedia db q) →
            media db !! k = Some m ∧ m_isDeleted m = false).
Proof.
  split_conj.
  - intros Hu k m Hin. simpl in Hin. apply elem_of_pageOf in Hin.
    apply elem_of_findMedia in Hin as (_ & _ & Hall).
    apply (forallb_elem_of _ _ Unused) in Hall.
    + simpl in Hall. by apply bool_decide_eq_true_1 in Hall.
    + unfold mediaConds. rewrite Hu. simpl. rewrite elem_of_app. right.
      apply elem_of_cons. by left.
  - intros b Hu Ht k m Hk Hd. apply elem_of_findMedia.
    split; [done|]. split; [done|]. unfold mediaConds. by rewrite Hu, Ht.
  - intros k m Hin. simpl in Hin. apply elem_of_pageOf in Hin.
    apply elem_of_findMedia in Hin as (? & ? & _). done.
Qed.

(** The categories are those of the published blogs, each once; a
    soft-deleted blog that is published still contributes its category. *)
Theorem getCategories_published (db : DB) :
  NoDup (getCategories db)
  ∧ (∀ s, s ∈ getCategories db
          ↔ ∃ k c, blogs db !! k = Some c ∧ status c = published
                   ∧ categoryOf c = Some s)
  ∧ (∀ k c s, blogs db !! k = Some c → isDeleted c = true → status c = published →
              categoryOf c = Some s → s ∈ getCategories db).
Proof.
  assert (∀ s, s ∈ getCategories db
               ↔ ∃ k c, blogs db !! k = Some c ∧ status c = published
                        ∧ categoryOf c = Some s) as Hiff.
  { intros s. unfold getCategories. rewrite elem_of_remove_dups, list_elem_of_omap.
    split.
    - intros ([k c] & Hin & Hs). apply elem_of_map_to_list in Hin. simpl in Hs.
      case_bool_decide; [|done]. eauto.
    - intros (k & c & Hk & Hst & Hc). exists (k, c). split.
      + by apply elem_of_map_to_list.
      + simpl. by rewrite bool_decide_eq_true_2. }
  split_conj.
  - apply NoDup_remove_dups.
  - done.
  - intros k c s Hk _ Hst Hc. apply Hiff. eauto.
Qed.

End ListingFacts.

(** ** Bulk deletion of unused media *)

Lemma foldl_deleteOneUnused (unlink : string → bool) (l : list (ObjectId * Media))
    (ms : gmap N Media) (d : nat) (e : list ObjectId) :
  foldl (deleteOneUnused unlink) (ms, d, e) l
  = (foldl (λ ms km, delete km.1 ms) ms
       (filter (λ km : ObjectId * Media, unlink (path km.2) = true) l),
     (d + length (filter (λ km : ObjectId * Media, unlink (path km.2) = true) l))%nat,
     e ++ (filter (λ km : ObjectId * Media, unlink (path km.2) ≠ true) l).*1).
Proof.
  revert ms d e. induction l as [|[k m] l IH]; intros ms d e.
  - simpl. by rewrite Nat.add_0_r, app_nil_r.
  - simpl. rewrite !filter_cons. simpl. destruct (unlink (path m)) eqn:Hu.
    + rewrite IH. rewrite decide_True by done. rewrite decide_False by (by intros ?).
      simpl. f_equal. f_equal. lia.
    + rewrite IH. rewrite decide_False by done. rewrite decide_True by done.
      simpl. by rewrite <- app_assoc.
Qed.

Lemma lookup_foldl_delete (l : list (ObjectId * Media)) (ms : gmap N Media) (k : ObjectId) :
  foldl (λ ms km, delete km.1 ms) ms l !! k
  = if decide (k ∈ l.*1) then None else ms !! k.
Proof.
  revert ms. induction l as [|[k' m] l IH]; intros ms; [done|].
  simpl. rewrite IH. clear IH. change (((k', m) :: l).*1) with (k' :: l.*1).
  destruct (decide (k = k')) as [->|Hne].
  - rewrite lookup_delete_eq.
    repeat case_decide; try done; exfalso; set_solver.
  - rewrite lookup_delete_ne by done.
    repeat case_decide; try done; exfalso; set_solver.
Qed.

Lemma lookup_deleteUnusedMedia (unlink : string → bool) (db : DB) (k : ObjectId) :
  media (deleteUnusedMedia unlink db).1 !! k
  = match media db !! k with
    | Some m =>
        if bool_decide (m_isDeleted m = false ∧ usedIn m = [] ∧ unlink (path m) = true)
        then None else Some m
    | None => None
    end.
Proof.
  unfold deleteUnusedMedia. rewrite foldl_deleteOneUnused. simpl.
  rewrite lookup_foldl_delete.
  destruct (media db !! k) as [m|] eqn:Hk.
  - case_bool_decide as Hc.
    + rewrite decide_True; [done|]. apply list_elem_of_fmap. exists (k, m).
      split; [done|]. apply list_elem_of_filter. split; [tauto|].
      apply list_elem_of_filter. split; [tauto|]. by apply elem_of_map_to_list.
    + rewrite decide_False; [done|]. intros Hin.
      apply list_elem_of_fmap in Hin as ([k' m'] & -> & Hin).
      apply list_elem_of_filter in Hin as [Hu Hin].
      apply list_elem_of_filter in Hin as [Hl Hin].
      apply elem_of_map_to_list in Hin. simpl in *.
      rewrite Hk in Hin. injection Hin as <-. tauto.
  - case_decide as Hin; [|done]. done.
Qed.

(** [deleteUnusedMedia] removes exactly the assets that are live, unused
    and whose file can be removed; an asset in use is never touched. It
    always answers 200; the deletions and the recorded errors add up to
    the number of unused assets found; events and blogs are untouched; a
    second run with the same file system deletes nothing. *)
Theorem deleteUnusedMedia_spec (unlink : string → bool) (db : DB) :
  let db' := (deleteUnusedMedia unlink db).1 in
  let r := (deleteUnusedMedia unlink db).2 in
  bulk_code r = 200%nat
  ∧ events db' = events db ∧ blogs db' = blogs db
  ∧ (∀ k m, media db !! k = Some m →
       media db' !! k
       = if bool_decide (m_isDeleted m = false ∧ usedIn m = [] ∧ unlink (path m) = true)
         then None else Some m)
  ∧ (∀ k m, media db !! k = Some m → usedIn m ≠ [] → media db' !! k = Some m)
  ∧ (∀ k, media db !! k = None → media db' !! k = None)
  ∧ (bulk_deleted r + length (from_option id [] (bulk_errors r)))%nat = bulk_total r
  ∧ bulk_deleted (deleteUnusedMedia unlink db').2 = 0%nat.
Proof.
  intros db' r.
  assert (∀ k, media db' !! k
               = match media db !! k with
                 | Some m =>
                     if bool_decide (m_isDeleted m = false ∧ usedIn m = []
                                     ∧ unlink (path m) = true)
                     then None else Some m
                 | None => None
                 end) as Hlook by apply lookup_deleteUnusedMedia.
  split_conj.
  - unfold r, deleteUnusedMedia. by rewrite foldl_deleteOneUnused.
  - unfold db', deleteUnusedMedia. by rewrite foldl_deleteOneUnused.
  - unfold db', deleteUnusedMedia. by rewrite foldl_deleteOneUnused.
  - intros k m Hk. by rewrite Hlook, Hk.
  - intros k m Hk Hu. rewrite Hlook, Hk. rewrite bool_decide_eq_false_2; [done|]. tauto.
  - intros k Hk. by rewrite Hlook, Hk.
  - unfold r, deleteUnusedMedia. rewrite foldl_deleteOneUnused. simpl.
    set (l := filter _ (map_to_list (media db))).
    assert (length l
            = (length (filter (λ km : ObjectId * Media, unlink (path km.2) = true) l)
               + length (filter (λ km : ObjectId * Media, unlink (path km.2) ≠ true) l))%nat)
      as Hsplit.
    { clear. induction l as [|x l IH]; [done|]. rewrite !filter_cons.
      repeat case_decide; simpl; first [lia|exfalso; tauto]. }
    rewrite Hsplit. case_bool_decide as Hpos; simpl.
    + by rewrite length_fmap.
    + rewrite length_fmap in Hpos. lia.
  - unfold deleteUnusedMedia at 1. rewrite foldl_deleteOneUnused. simpl.
    rewrite filter_none_nil; [done|].
    apply Forall_forall. intros [k m] Hin Hu. simpl in Hu.
    apply list_elem_of_filter in Hin as [[Hl Hn] Hin].
    apply elem_of_map_to_list in Hin. simpl in *.
    rewrite Hlook in Hin. destruct (media db !! k) as [m0|]; [|done].
    case_bool_decide as Hc; [done|]. injection Hin as ->. tauto.
Qed.

(** ** Uploading files *)

Section UploadFacts.
Context `{!Sharp}.

Lemma lookup_foldl_insert (us : list Uploaded) (ms : gmap N Media) (k : ObjectId) :
  NoDup (up_id <$> us) →
  foldl (λ ms u, <[up_id u := up_doc u]> ms) ms us !! k
  = match list_find (λ u, up_id u = k) us with
    | Some (_, u) => Some (up_doc u)
    | None => ms !! k
    end.
Proof.
  revert ms. induction us as [|u us IH]; intros ms Hnd; [done|].
  rewrite fmap_cons in Hnd. apply NoDup_cons in Hnd as [Hu Hnd].
  simpl. rewrite IH by done. destruct (decide (up_id u = k)) as [Hk|Hk].
  - destruct (list_find _ us) as [[i u']|] eqn:Hf.
    + apply list_find_Some in Hf as (Hi & Hk' & _). exfalso. apply Hu.
      apply list_elem_of_fmap. exists u'. split; [congruence|].
      by apply list_elem_of_lookup_2 in Hi.
    + simpl. rewrite <- Hk. apply lookup_insert_eq.
  - destruct (list_find _ us) as [[i u']|]; simpl; [done|].
    by rewrite lookup_insert_ne.
Qed.

Lemma up_doc_mediaData (k : ObjectId) (f : File) :
  let m := up_doc (mediaData k f) in
  path m = f_path f ∧ usedIn m = [] ∧ m_isDeleted m = false ∧ m_deletedAt m = None.
Proof.
  unfold mediaData. destruct (Multer.isVideo _); [done|].
  destruct (metadata _) as [[w h]|]; done.
Qed.

Lemma up_id_mediaData (k : ObjectId) (f : File) : up_id (mediaData k f) = k.
Proof.
  unfold mediaData. destruct (Multer.isVideo _); [done|].
  destruct (metadata _) as [[w h]|]; done.
Qed.

Lemma uploadLoop_app (files1 rest : list (ObjectId * File)) (ms : gmap N Media)
    (acc : list Uploaded) :
  NoDup files1.*1 → (∀ k, k ∈ files1.*1 → ms !! k = None) →
  Forall (λ nf : ObjectId * File, mediaValid nf.2 = true) files1 →
  uploadLoop ms acc (files1 ++ rest)
  = uploadLoop
      (foldl (λ ms u, <[up_id u := up_doc u]> ms) ms
         ((λ nf : ObjectId * File, mediaData nf.1 nf.2) <$> files1))
      (acc ++ ((λ nf : ObjectId * File, mediaData nf.1 nf.2) <$> files1)) rest.
Proof.
  revert ms acc. induction files1 as [|[k f] files1 IH]; intros ms acc Hnd Hfresh Hv.
  - simpl. by rewrite app_nil_r.
  - rewrite fmap_cons in Hnd. apply NoDup_cons in Hnd as [Hk Hnd].
    apply Forall_cons in Hv as [Hf Hv]. simpl in Hf.
    cbn [app uploadLoop]. rewrite Hf. simpl negb. cbv iota.
    rewrite bool_decide_eq_false_2.
    2: { rewrite (Hfresh k); [by intros [? ?]|]. rewrite fmap_cons. by left. }
    rewrite IH; [|done| |done].
    + rewrite fmap_cons. cbn [foldl fst snd]. rewrite up_id_mediaData.
      by rewrite <- app_assoc.
    + intros k' Hk'. rewrite lookup_insert_ne by (by intros ->).
      apply Hfresh. rewrite fmap_cons. by right.
Qed.

Lemma lookup_uploaded (files : list (ObjectId * File)) (ms : gmap N Media) :
  NoDup files.*1 →
  let ms' := foldl (λ ms u, <[up_id u := up_doc u]> ms) ms
               ((λ nf : ObjectId * File, mediaData nf.1 nf.2) <$> files) in
  (∀ k f, (k, f) ∈ files → ms' !! k = Some (up_doc (mediaData k f)))
  ∧ (∀ k, k ∉ files.*1 → ms' !! k = ms !! k).
Proof.
  intros Hnd ms'. unfold ms'. clear ms'.
  set (us := (λ nf : ObjectId * File, mediaData nf.1 nf.2) <$> files).
  assert (up_id <$> us = files.*1) as Hids.
  { unfold us. rewrite <- list_fmap_compose. apply list_fmap_ext.
    intros i [k f] _. simpl. apply up_id_mediaData. }
  assert (NoDup (up_id <$> us)) as Hnd' by (by rewrite Hids).
  split.
  - intros k f Hin. rewrite lookup_foldl_insert by done.
    destruct (list_find _ us) as [[i u]|] eqn:Hf.
    + apply list_find_Some in Hf as (Hi & Hku & _).
      unfold us in Hi. rewrite list_lookup_fmap in Hi.
      destruct (files !! i) as [[k' f']|] eqn:Hi'; [|done].
      simpl in Hi. injection Hi as <-. rewrite up_id_mediaData in Hku. subst k'.
      assert (f' = f) as ->; [|done].
      apply list_elem_of_lookup_2 in Hi'.
      apply list_elem_of_lookup in Hin as [j Hj].
      apply list_elem_of_lookup in Hi' as [i' Hi''].
      assert (files.*1 !! j = Some k) as Hj1 by (by rewrite list_lookup_fmap, Hj).
      assert (files.*1 !! i' = Some k) as Hi1 by (by rewrite list_lookup_fmap, Hi'').
      pose proof (NoDup_lookup _ _ _ _ Hnd Hj1 Hi1) as ->. congruence.
    + exfalso. apply list_find_None in Hf. rewrite Forall_forall in Hf.
      apply (Hf (mediaData k f)).
      * unfold us. apply list_elem_of_fmap. by exists (k, f).
      * apply up_id_mediaData.
  - intros k Hk. rewrite lookup_foldl_insert by done.
    destruct (list_find _ us) as [[i u]|] eqn:Hf; [|done].
    apply list_find_Some in Hf as (Hi & Hku & _). exfalso. apply Hk.
    rewrite <- Hids. apply list_elem_of_fmap. exists u. split; [done|].
    by apply list_elem_of_lookup_2 in Hi.
Qed.

(** Without a file the upload is refused with 400. When every file passes
    the validators of the schema (the generated ids being new and
    distinct) it answers 201 and stores one asset per file: the asset has
    the path of its file, no usage entry and is not deleted; a video has no
    thumbnail; the assets stored before are untouched, and so are events
    and blogs. When a file is rejected the request fails, but it is not
    rolled back: the assets of the files before it stay stored. *)
Theorem uploadFiles_spec (db : DB) (files : list (ObjectId * File)) :
  (files = [] → uploadFiles db files = (db, Err (ApiError 400 "No files uploaded")))
  ∧ (files ≠ [] → NoDup files.*1 → (∀ k, k ∈ files.*1 → media db !! k = None) →
     Forall (λ nf : ObjectId * File, mediaValid nf.2 = true) files →
     ∃ db' r,
       uploadFiles db files = (db', Ok r)
       ∧ upr_code r = 201%nat ∧ length (upr_media r) = length files
       ∧ events db' = events db ∧ blogs db' = blogs db
       ∧ (∀ k m, media db !! k = Some m → media db' !! k = Some m)
       ∧ (∀ k f, (k, f) ∈ files →
            ∃ m, media db' !! k = Some m ∧ path m = f_path f ∧ usedIn m = []
                 ∧ m_isDeleted m = false
                 ∧ (Multer.isVideo (f_mimetype f) = true → thumbnail m = None))
       ∧ (∀ k, k ∉ files.*1 → media db' !! k = media db !! k))
  ∧ (∀ files1 k f files2,
       files = files1 ++ (k, f) :: files2 →
       NoDup files1.*1 → (∀ k, k ∈ files1.*1 → media db !! k = None) →
       Forall (λ nf : ObjectId * File, mediaValid nf.2 = true) files1 →
       mediaValid f = false →
       ∃ db',
         uploadFiles db files = (db', Err ValidationError)
         ∧ events db' = events db ∧ blogs db' = blogs db
         ∧ (∀ k1 f1, (k1, f1) ∈ files1 →
              media db' !! k1 = Some (up_doc (mediaData k1 f1)))
         ∧ (∀ k', k' ∉ files1.*1 → media db' !! k' = media db !! k')).
Proof.
  split; [by intros ->|]. split.
  - intros Hne Hnd Hfresh Hv.
    unfold uploadFiles. rewrite bool_decide_eq_false_2 by (by destruct files).
    replace (uploadLoop (media db) [] files)
      with (uploadLoop (media db) [] (files ++ [])) by (by rewrite app_nil_r).
    rewrite uploadLoop_app by done.
    cbn [uploadLoop app]. eexists _, _. split; [reflexivity|]. simpl.
    destruct (lookup_uploaded files (media db) Hnd) as [Hnew Hother].
    split_conj; try done.
    + by rewrite length_fmap.
    + intros k m Hk. rewrite Hother; [done|]. intros Hin.
      rewrite (Hfresh k Hin) in Hk. done.
    + intros k f Hin. rewrite (Hnew k f Hin). eexists. split; [done|].
      destruct (up_doc_mediaData k f) as (? & ? & ? & _).
      split_conj; try done.
      intros Hvid. unfold mediaData. by rewrite Hvid.
  - intros files1 k f files2 -> Hnd Hfresh Hv Hf.
    unfold uploadFiles. rewrite bool_decide_eq_false_2.
    2: { rewrite length_app. simpl. lia. }
    rewrite uploadLoop_app by done. cbn [uploadLoop]. rewrite Hf. simpl negb. cbv iota.
    eexists. split; [reflexivity|]. simpl.
    destruct (lookup_uploaded files1 (media db) Hnd) as [Hnew Hother].
    by split_conj.
Qed.

(** An asset that was just uploaded can be deleted at once, and the
    database is then what it was before the upload. *)
Theorem upload_then_delete (db : DB) (k : ObjectId) (f : File) (unlink : string → bool) :
  media db !! k = None → mediaValid f = true → unlink (f_path f) = true →
  ∃ db1 r1 r2,
    uploadFiles db [(k, f)] = (db1, Ok r1)
    ∧ deleteMedia unlink db1 k = Ok (db, r2).
Proof.
  intros Hk Hv Hu. unfold uploadFiles. simpl. rewrite Hv. simpl.
  rewrite bool_decide_eq_false_2 by (rewrite Hk; by intros [? ?]).
  eexists _, _, _. split; [reflexivity|].
  unfold deleteMedia, MediaModel.findById. simpl.
  rewrite lookup_insert_eq.
  destruct (up_doc_mediaData k f) as (Hp & Hus & Hd & _).
  rewrite Hd. simpl. unfold MediaModel.isInUse. rewrite Hus, Hp, Hu.
  do 2 f_equal. destruct db as [ev bl ms]. simpl in *. f_equal.
  rewrite delete_insert_eq. by apply delete_id.
Qed.

End UploadFacts.

(** ** Reading one entity *)

Section ContentFacts.
Context `{!Externals} `{!JoiRules}.

(** [doc.views += 1; await doc.save()] on a stored document. *)
Lemma view_saved S now coll id c :
  save S now coll id (assign "views" views set_views (views c + 1)%Z (hydrate c))
  = if validate S (hydrate c)
    then Ok (<[id := set_views (views c + 1)%Z c]> coll, set_views (views c + 1)%Z c)
    else Err ValidationError.
Proof.
  destruct (validate S (hydrate c)) eqn:Hv.
  - rewrite save_stored.
    + rewrite preSave_unmodified; [done| |]; by rewrite isModified_assign_ne.
    + rewrite <- Hv. by apply validate_ext.
    + done.
    + by rewrite isModified_assign_ne.
    + by rewrite isModified_assign_ne.
  - unfold save.
    rewrite (validate_ext S _ (hydrate c)) by done. by rewrite Hv.
Qed.


Lemma findOneBySlug_inv coll s id c :
  findOneBySlug coll s = Some (id, c) →
  coll !! id = Some c ∧ slug c = Some s ∧ status c = published ∧ isDeleted c = false.
Proof.
  unfold findOneBySlug. intros Hh. apply head_Some_elem_of in Hh.
  apply list_elem_of_filter in Hh as [(? & ? & ?) Hin].
  by apply elem_of_map_to_list in Hin.
Qed.



(** *** Creating an entity *)

Lemma objSet_absent k v (o : Obj) : k ∉ keys o → objSet k v o = o ++ [(k, v)].
Proof.
  induction o as [|[k' v'] o IH]; intros Hk; [done|].
  unfold keys in Hk. rewrite fmap_cons in Hk. apply not_elem_of_cons in Hk as [Hne Hk].
  simpl. rewrite decide_False by done. by rewrite IH.
Qed.

Lemma objectAssign_app S (o1 o2 : Obj) ed :
  objectAssign S (o1 ++ o2) ed = objectAssign S o1 ed ≫= objectAssign S o2.
Proof.
  revert ed. induction o1 as [|[k v] o1 IH]; intros ed; [done|].
  simpl. destruct (docSet S k v ed) as [ed1|]; simpl; [apply IH|done].
Qed.

Lemma docSet_createdBy S user ed :
  docSet S "createdBy" (VId user) ed
  = Some (assign "createdBy" createdBy set_createdBy (Some user) ed).
Proof. unfold docSet. repeat (rewrite decide_False by done). by rewrite decide_True. Qed.

Lemma docSet_updatedBy S user ed :
  docSet S "updatedBy" (VId user) ed
  = Some (assign "updatedBy" updatedBy set_updatedBy (Some user) ed).
Proof. unfold docSet. repeat (rewrite decide_False by done). by rewrite decide_True. Qed.

Lemma owner_assigned S user ed :
  objectAssign S ([("createdBy", VId user)] ++ [("updatedBy", VId user)]) ed
  = Some (assign "updatedBy" updatedBy set_updatedBy (Some user)
            (assign "createdBy" createdBy set_createdBy (Some user) ed)).
Proof.
  cbn [app objectAssign]. rewrite docSet_createdBy. cbn [mbind option_bind].
  by rewrite docSet_updatedBy.
Qed.

(** The fields of a new document that the handler, not the request, fills
    in. *)
Lemma created_by_user S (value : Obj) (user : ObjectId) (ed : Editing) :
  (∀ k, k ∈ ["views"; "createdBy"; "updatedBy"; "isDeleted"; "deletedAt"] →
        k ∉ keys value) →
  objectAssign S (objSet "updatedBy" (VId user) (objSet "createdBy" (VId user) value))
    (newDoc S) = Some ed →
  createdBy (doc ed) = Some user ∧ updatedBy (doc ed) = Some user
  ∧ views (doc ed) = 0%Z ∧ isDeleted (doc ed) = false ∧ deletedAt (doc ed) = None.
Proof.
  intros Hk Ha.
  rewrite (objSet_absent "createdBy") in Ha by (apply Hk; compute_done).
  rewrite (objSet_absent "updatedBy") in Ha.
  2: { unfold keys. rewrite fmap_app. simpl. rewrite elem_of_app.
       intros [Hin|Hin]; [by apply (Hk "updatedBy"); [compute_done|]|].
       apply elem_of_cons in Hin as [?|Hin]; [done|by apply elem_of_nil in Hin]. }
  rewrite <- app_assoc in Ha. rewrite objectAssign_app in Ha.
  destruct (objectAssign S value (newDoc S)) as [ed1|] eqn:H1; [|done].
  unfold mbind, option_bind in Ha. rewrite owner_assigned in Ha.
  injection Ha as <-.
  destruct (objectAssign_frame _ _ _ _ H1) as (_ & _ & F3 & _ & F5 & F6).
  simpl. rewrite F3, F5, F6 by (apply Hk; compute_done). done.
Qed.

(** The usage updates that [createEvent] and [restoreEvent] issue, seen
    from one asset. *)
Lemma attach_event_lookup (ms : gmap N Media) (id : ObjectId) (e : Content) (k : ObjectId) :
  when (bool_decide (0 < length (gallery e))%nat)
    (MediaModel.updateMany (gallery e) (MediaModel.push (usage EventModel id "gallery")))
    (whenSome (heroImage e)
       (λ h, MediaModel.findByIdAndUpdate h
               (MediaModel.push (usage EventModel id "heroImage"))) ms) !! k
  = match ms !! k with
    | Some med =>
        Some (if m_isDeleted med
              then when (bool_decide (k ∈ gallery e))
                     (MediaModel.push (usage EventModel id "gallery")) med
              else setUsedIn (usedIn med ++ expectedUsages EventModel id (eventFields e) k)
                     med)
    | None => None
    end.
Proof.
  rewrite lookup_updateMany_guarded, lookup_findByIdAndUpdate_opt.
  destruct (ms !! k) as [med|]; [|done]. cbn [fmap option_fmap option_map]. f_equal.
  destruct (m_isDeleted med) eqn:Hd.
  - rewrite (when_False (heroImage e = Some k ∧ true = false)); [done|].
    by intros [_ ?].
  - rewrite expectedUsages_event.
    rewrite (when_ext (heroImage e = Some k ∧ false = false) (heroImage e = Some k))
      by naive_solver.
    destruct (bool_decide (heroImage e = Some k)), (bool_decide (k ∈ gallery e));
      unfold when, MediaModel.push, setUsedIn; simpl;
      rewrite ?app_nil_r, <- ?app_assoc; by destruct med.
Qed.

Lemma deleteMedia_in_use (unlink : string → bool) (db : DB) (m : ObjectId) (med : Media) :
  media db !! m = Some med → m_isDeleted med = false → usedIn med ≠ [] →
  deleteMedia unlink db m
  = Err (ApiError 400 "Cannot delete media that is currently in use").
Proof.
  intros Hm Hd Hu. unfold deleteMedia, MediaModel.findById. rewrite Hm, Hd. simpl.
  unfold MediaModel.isInUse. by destruct (usedIn med).
Qed.

(** A successful [POST /events] stores the new event under its id with the
    requesting user as creator and updater, no views, not deleted, and the
    slug made of its title and the clock value; every stored asset that is
    not soft-deleted gets one usage entry for each field of the event that
    references it and is otherwise left as it was; and an asset the event
    references can no longer be deleted. *)
Theorem postEvent_attaches (db : DB) (body : Obj) (user newId : ObjectId)
    (now : Timestamp) (db' : DB) (r : Response) :
  postEvent db body user newId now = Ok (db', r) →
  ∃ e,
    r = {| code := 201; message := "Event created successfully"; data := Some e |}
    ∧ events db !! newId = None
    ∧ events db' = <[newId := e]> (events db) ∧ blogs db' = blogs db
    ∧ createdBy e = Some user ∧ updatedBy e = Some user
    ∧ views e = 0%Z ∧ isDeleted e = false ∧ deletedAt e = None
    ∧ slug e = Some (slugify (title e) +:+ "-" +:+ pretty now)
    ∧ (∀ m, media db !! m = None → media db' !! m = None)
    ∧ (∀ m med, media db !! m = Some med → m_isDeleted med = false →
         media db' !! m
         = Some (setUsedIn (usedIn med ++ expectedUsages EventModel newId (eventFields e) m)
                   med))
    ∧ (∀ m med unlink, m ∈ eventRefs e → media db !! m = Some med →
         m_isDeleted med = false →
         deleteMedia unlink db' m
         = Err (ApiError 400 "Cannot delete media that is currently in use")).
Proof.
  unfold postEvent, validateRequest.
  destruct (joiValidate _ body) as [value|] eqn:Hj; simpl; [|done].
  intros Hc. destruct (createEvent_slug _ _ _ _ _ _ _ Hc) as (e0 & Hd0 & _ & Hslug).
  unfold createEvent in Hc.
  destruct (create _ _ _ _ _) as [[events' e]|] eqn:Hcr; simpl in Hc; [|done].
  injection Hc as <- <-. simpl in Hd0. injection Hd0 as <-.
  apply create_Ok in Hcr as (ed & Ha & Hnew & Hv & -> & -> & Hn).
  assert (∀ k, k ∈ ["views"; "createdBy"; "updatedBy"; "isDeleted"; "deletedAt"] →
               k ∉ keys value) as Hkeys.
  { intros k Hk Hin. apply (joiValidate_keys _ _ _ Hj) in Hin.
    rewrite eventCreate_names in Hin. revert Hin.
    repeat (apply elem_of_cons in Hk as [->|Hk]; [compute_done|]).
    by apply elem_of_nil in Hk. }
  destruct (created_by_user _ _ _ _ Hkeys Ha) as (O1 & O2 & O3 & O4 & O5).
  destruct (preSave_frame now ed)
    as (_ & _ & _ & _ & _ & _ & P7 & P8 & P9 & P10 & P11 & _).
  set (e := doc (preSave now ed)) in *.
  assert (∀ m, media {| events := <[newId := e]> (events db); blogs := blogs db;
                        media := when (bool_decide (0 < length (gallery e))%nat)
                                   (MediaModel.updateMany (gallery e)
                                      (MediaModel.push (usage EventModel newId "gallery")))
                                   (whenSome (heroImage e)
                                      (λ h, MediaModel.findByIdAndUpdate h
                                              (MediaModel.push
                                                 (usage EventModel newId "heroImage")))
                                      (media db)) |} !! m
               = match media db !! m with
                 | Some med =>
                     Some (if m_isDeleted med
                           then when (bool_decide (m ∈ gallery e))
                                  (MediaModel.push (usage EventModel newId "gallery")) med
                           else setUsedIn
                                  (usedIn med
                                   ++ expectedUsages EventModel newId (eventFields e) m)
                                  med)
                 | None => None
                 end) as Hlook.
  { intros m. cbn [media]. apply attach_event_lookup. }
  exists e. split_conj; try done; try congruence.
  - intros m Hm. by rewrite Hlook, Hm.
  - intros m med Hm Hlive. by rewrite Hlook, Hm, Hlive.
  - intros m med unlink Href Hm Hlive.
    assert (usedIn med ++ expectedUsages EventModel newId (eventFields e) m ≠ []) as Hne.
    { rewrite expectedUsages_event. apply elem_of_eventRefs in Href. intros Heq.
      apply (f_equal length) in Heq. rewrite !length_app in Heq.
      destruct Href as [Hh|Hg].
      - rewrite (when_True (heroImage e = Some m)) in Heq by done.
        rewrite length_app in Heq. simpl in Heq. lia.
      - rewrite (when_True (m ∈ gallery e)) in Heq by done.
        rewrite length_app in Heq. simpl in Heq. lia. }
    pose proof (Hlook m) as Hl. rewrite Hm, Hlive in Hl.
    apply (deleteMedia_in_use unlink _ m _ Hl); by destruct med.
Qed.

(** Two events created one after the other from the same body at
    different clock values have the same title and different slugs. *)
Theorem slugs_differ_across_milliseconds (db : DB) (body : Obj) (user id1 id2 : ObjectId)
    (now1 now2 : Timestamp) (db1 db2 : DB) (r1 r2 : Response) :
  createEvent db body user id1 now1 = Ok (db1, r1) →
  createEvent db1 body user id2 now2 = Ok (db2, r2) →
  now1 ≠ now2 →
  ∃ e1 e2, data r1 = Some e1 ∧ data r2 = Some e2
           ∧ events db2 !! id1 = Some e1 ∧ events db2 !! id2 = Some e2
           ∧ title e1 = title e2 ∧ slug e1 ≠ slug e2.
Proof.
  intros H1 H2 Hne.
  destruct (createEvent_slug _ _ _ _ _ _ _ H1) as (e1 & Hd1 & Hs1 & Hslug1).
  destruct (createEvent_slug _ _ _ _ _ _ _ H2) as (e2 & Hd2 & Hs2 & Hslug2).
  unfold createEvent in H1, H2.
  destruct (create _ _ _ _ _) as [[ev1 d1]|] eqn:Hc1 in H1; simpl in H1; [|done].
  destruct (create _ _ _ _ _) as [[ev2 d2]|] eqn:Hc2 in H2; simpl in H2; [|done].
  injection H1 as <- <-. injection H2 as <- <-. simpl in *.
  injection Hd1 as <-. injection Hd2 as <-.
  apply create_Ok in Hc1 as (ed1 & Ha1 & _ & _ & -> & -> & _).
  apply create_Ok in Hc2 as (ed2 & Ha2 & _ & _ & -> & -> & Hn2).
  rewrite Ha1 in Ha2. injection Ha2 as <-.
  exists (doc (preSave now1 ed1)), (doc (preSave now2 ed1)).
  assert (title (doc (preSave now1 ed1)) = title (doc (preSave now2 ed1))) as Ht.
  { destruct (preSave_frame now1 ed1) as (-> & _).
    by destruct (preSave_frame now2 ed1) as (-> & _). }
  split_conj; try done.
  - rewrite lookup_insert_ne; [apply lookup_insert_eq|].
    intros ->. by rewrite lookup_insert_eq in Hn2.
  - rewrite Hslug1, Hslug2, Ht. intros [= Heq].
    by apply slug_determines_clock in Heq.
Qed.

End ContentFacts.

(** ** What no request does to the media collection *)

Lemma usageOnly_push u : usageOnly (MediaModel.push u).
Proof. intros m. by rewrite setUsedIn_push, setUsedIn_id. Qed.

Lemma usageOnly_pull (P : Usage → Prop) `{∀ u, Decision (P u)} :
  usageOnly (MediaModel.pull P).
Proof. intros m. by rewrite setUsedIn_pull, setUsedIn_id. Qed.

Lemma setUsedIn_trans m1 m2 m3 :
  setUsedIn (usedIn m1) m2 = m1 → setUsedIn (usedIn m2) m3 = m2 →
  setUsedIn (usedIn m1) m3 = m1.
Proof. intros H12 H23. rewrite <- H23 in H12. exact H12. Qed.

Lemma sameAssets_refl ms : sameAssets ms ms.
Proof. intros k. destruct (ms !! k); [apply setUsedIn_id|done]. Qed.

Lemma sameAssets_trans ms1 ms2 ms3 :
  sameAssets ms1 ms2 → sameAssets ms2 ms3 → sameAssets ms1 ms3.
Proof.
  intros H12 H23 k. specialize (H12 k). specialize (H23 k).
  destruct (ms1 !! k) as [m1|], (ms2 !! k) as [m2|], (ms3 !! k) as [m3|]; try done.
  by apply (setUsedIn_trans m1 m2 m3).
Qed.

Lemma sameAssets_pointwise (g : ObjectId → Media → Media) (ms ms' : gmap N Media) :
  (∀ k, ms' !! k = g k <$> ms !! k) → (∀ k, usageOnly (g k)) → sameAssets ms ms'.
Proof.
  intros Hl Hg k. rewrite Hl. destruct (ms !! k) as [m|]; simpl; [apply Hg|done].
Qed.

Lemma sameAssets_updateMany ms X (c : bool) ids f :
  usageOnly f → sameAssets ms X →
  sameAssets ms (when c (MediaModel.updateMany ids f) X).
Proof.
  intros Hf HX. destruct c; [|done]. unfold when.
  apply (sameAssets_trans _ X); [done|].
  apply (sameAssets_pointwise (λ k m, if decide (k ∈ ids) then f m else m)).
  - intros k. apply lookup_updateMany.
  - intros k m. case_decide; [apply Hf|apply setUsedIn_id].
Qed.

Lemma sameAssets_findByIdAndUpdate ms X a f :
  usageOnly f → sameAssets ms X → sameAssets ms (MediaModel.findByIdAndUpdate a f X).
Proof.
  intros Hf HX. apply (sameAssets_trans _ X); [done|].
  apply (sameAssets_pointwise
           (λ k m, if decide (k = a ∧ m_isDeleted m = false) then f m else m)).
  - intros k. apply lookup_findByIdAndUpdate.
  - intros k m. case_decide; [apply Hf|apply setUsedIn_id].
Qed.

Lemma sameAssets_attach ms X (o : option ObjectId) f :
  usageOnly f → sameAssets ms X →
  sameAssets ms (whenSome o (λ a, MediaModel.findByIdAndUpdate a f) X).
Proof.
  intros Hf HX. destruct o as [a|]; [|done]. by apply sameAssets_findByIdAndUpdate.
Qed.

Lemma sameAssets_moved ms X (o : option ObjectId) (c : ObjectId → bool) f :
  usageOnly f → sameAssets ms X →
  sameAssets ms (whenSome o (λ a, when (c a) (MediaModel.findByIdAndUpdate a f)) X).
Proof.
  intros Hf HX. destruct o as [a|]; [|done]. unfold whenSome, when.
  destruct (c a); [|done]. by apply sameAssets_findByIdAndUpdate.
Qed.

Ltac same_assets :=
  repeat first
    [ apply sameAssets_refl
    | apply sameAssets_updateMany; [first [apply usageOnly_push|apply usageOnly_pull]|]
    | apply sameAssets_attach; [first [apply usageOnly_push|apply usageOnly_pull]|]
    | apply sameAssets_moved; [first [apply usageOnly_push|apply usageOnly_pull]|] ].

Section MachineFacts.
Context `{!Externals} `{!JoiRules}.

(** A successful request leaves the assets as they are up to [usedIn],
    unless it is the deletion of an asset that is neither soft-deleted nor
    in use. *)
Lemma handle_media db r db' resp :
  handle db r = Ok (db', resp) →
  sameAssets (media db) (media db')
  ∨ ∃ unlink k m,
      r = DeleteMedia unlink k ∧ media db !! k = Some m ∧ usedIn m = []
      ∧ m_isDeleted m = false ∧ media db' = delete k (media db).
Proof.
  destruct r; simpl.
  - unfold postEvent, validateRequest.
    destruct (joiValidate _ body) as [value|]; simpl; [|done].
    unfold createEvent. destruct (create _ _ _ _ _) as [[ev e]|]; simpl; [|done].
    intros [= <- <-]. left. cbn [media]. same_assets.
  - unfold patchEvent, validateRequest.
    destruct (joiValidate _ body) as [value|]; simpl; [|done].
    unfold updateEvent. destruct (findById _ _ _) as [c|]; simpl; [|done].
    destruct (objectAssign _ _ _) as [ed|]; simpl; [|done].
    destruct (save _ _ _ _ _) as [[ev e]|]; simpl; [|done].
    intros [= <- <-]. left. cbn [media]. same_assets.
  - unfold deleteEvent. destruct (findById _ _ _) as [c|]; simpl; [|done].
    destruct (softDelete _ _ _ _ _) as [[ev e]|]; simpl; [|done].
    intros [= <- <-]. left. cbn [media]. same_assets.
  - unfold restoreEvent. destruct (findById _ _ _) as [c|]; simpl; [|done].
    destruct (negb (isDeleted c)); [done|].
    destruct (restore _ _ _ _ _) as [[ev e]|]; simpl; [|done].
    intros [= <- <-]. left. cbn [media]. same_assets.
  - unfold getEvent. destruct (findById _ _ _) as [c|]; simpl; [|done].
    destruct (negb (bool_decide (status c = published)) && negb admin); [done|].
    destruct (bool_decide (status c = published)).
    + destruct (save _ _ _ _ _) as [[ev e]|]; simpl; [|done].
      intros [= <- <-]. left. apply sameAssets_refl.
    + intros [= <- <-]. left. apply sameAssets_refl.
  - unfold getEventBySlug. destruct (findOneBySlug _ _) as [[id c]|]; simpl; [|done].
    destruct (save _ _ _ _ _) as [[ev e]|]; simpl; [|done].
    intros [= <- <-]. left. apply sameAssets_refl.
  - unfold postBlog, validateRequest.
    destruct (joiValidate _ body) as [value|]; simpl; [|done].
    unfold createBlog. destruct (negb (truthy _)); [done|].
    destruct (create _ _ _ _ _) as [[bl b]|]; simpl; [|done].
    intros [= <- <-]. left. cbn [media]. same_assets.
  - unfold patchBlog, validateRequest.
    destruct (joiValidate _ body) as [value|]; simpl; [|done].
    unfold updateBlog. destruct (findById _ _ _) as [c|]; simpl; [|done].
    destruct (objectAssign _ _ _) as [ed|]; simpl; [|done].
    destruct (save _ _ _ _ _) as [[bl b]|]; simpl; [|done].
    intros [= <- <-]. left. cbn [media]. same_assets.
  - unfold deleteBlog. destruct (findById _ _ _) as [c|]; simpl; [|done].
    destruct (softDelete _ _ _ _ _) as [[bl b]|]; simpl; [|done].
    intros [= <- <-]. left. cbn [media]. same_assets.
  - unfold restoreBlog. destruct (findById _ _ _) as [c|]; simpl; [|done].
    destruct (negb (isDeleted c)); [done|].
    destruct (restore _ _ _ _ _) as [[bl b]|]; simpl; [|done].
    intros [= <- <-]. left. cbn [media]. same_assets.
  - unfold getBlog. destruct (findById _ _ _) as [c|]; simpl; [|done].
    destruct (negb (bool_decide (status c = published)) && negb admin); [done|].
    destruct (bool_decide (status c = published)).
    + destruct (save _ _ _ _ _) as [[bl b]|]; simpl; [|done].
      intros [= <- <-]. left. apply sameAssets_refl.
    + intros [= <- <-]. left. apply sameAssets_refl.
  - unfold getBlogBySlug. destruct (findOneBySlug _ _) as [[id c]|]; simpl; [|done].
    destruct (save _ _ _ _ _) as [[bl b]|]; simpl; [|done].
    intros [= <- <-]. left. apply sameAssets_refl.
  - unfold deleteMedia, MediaModel.findById.
    destruct (media db !! id) as [m|] eqn:Hm; simpl; [|done].
    destruct (m_isDeleted m) eqn:Hd; simpl; [done|].
    unfold MediaModel.isInUse. destruct (usedIn m) eqn:Hu; [|done].
    destruct (unlink (path m)); [|done].
    intros [= <- <-]. right. exists unlink, id, m. by split_conj.
Qed.

(** An asset in use is never removed: whatever the request to the event
    and blog routes or to [DELETE /media/:id], an asset with a usage entry
    is still stored after it, with the same path, thumbnail and deletion
    state, and so is a soft-deleted asset; an asset that is gone was unused,
    not soft-deleted, and the request was its deletion; and none of these
    requests brings an asset into the collection. *)
Theorem in_use_never_removed (db : DB) (r : Request) (k : ObjectId) :
  (∀ m, media db !! k = Some m → usedIn m ≠ [] ∨ m_isDeleted m = true →
        ∃ m', media (step db r) !! k = Some m' ∧ setUsedIn (usedIn m) m' = m)
  ∧ (∀ m, media db !! k = Some m → media (step db r) !! k = None →
          usedIn m = [] ∧ m_isDeleted m = false ∧ ∃ unlink, r = DeleteMedia unlink k)
  ∧ (media db !! k = None → media (step db r) !! k = None).
Proof.
  unfold step. destruct (handle db r) as [[db' resp]|] eqn:Hh.
  - apply handle_media in Hh as [Hs|(unlink & k' & m' & -> & Hk' & Hu & Hd & Hm)].
    + specialize (Hs k). split_conj.
      * intros m Hm _. rewrite Hm in Hs. revert Hs.
        destruct (media db' !! k) as [m2|]; [eauto|done].
      * intros m Hm Hn. by rewrite Hm, Hn in Hs.
      * intros Hm. rewrite Hm in Hs. revert Hs. by destruct (media db' !! k).
    + rewrite Hm. split_conj.
      * intros m Hk Hor. destruct (decide (k = k')) as [->|Hne].
        -- rewrite Hk' in Hk. injection Hk as ->. destruct Hor; congruence.
        -- rewrite lookup_delete_ne by done. exists m. split; [done|apply setUsedIn_id].
      * intros m Hk Hn. destruct (decide (k = k')) as [->|Hne].
        -- rewrite Hk' in Hk. injection Hk as ->. eauto.
        -- rewrite lookup_delete_ne in Hn by done. congruence.
      * intros Hk. destruct (decide (k = k')) as [->|Hne].
        -- apply lookup_delete_eq.
        -- by rewrite lookup_delete_ne.
  - split_conj.
    + intros m Hm _. exists m. split; [done|apply setUsedIn_id].
    + intros m Hm Hn. congruence.
    + done.
Qed.

(** Over any sequence of requests to the event and blog routes and to
    [DELETE /media/:id] the assets only lose members and only change in
    [usedIn]: an asset stored at the end was stored at the start with the
    same path, thumbnail and deletion state. None of these requests
    soft-deletes or restores an asset. *)
Theorem assets_change_only_in_usedIn (db : DB) (rs : list Request) (k : ObjectId)
    (m' : Media) :
  media (run db rs) !! k = Some m' →
  ∃ m, media db !! k = Some m ∧ setUsedIn (usedIn m) m' = m
       ∧ path m' = path m ∧ thumbnail m' = thumbnail m
       ∧ m_isDeleted m' = m_isDeleted m ∧ m_deletedAt m' = m_deletedAt m.
Proof.
  assert (∀ db m', media (run db rs) !! k = Some m' →
                   ∃ m, media db !! k = Some m ∧ setUsedIn (usedIn m) m' = m) as Hrun.
  { clear db m'. induction rs as [|r rs IH]; intros db m' Hk; simpl in Hk.
    - exists m'. split; [done|apply setUsedIn_id].
    - apply IH in Hk as (m1 & Hk1 & H1).
      assert (∃ m, media db !! k = Some m ∧ setUsedIn (usedIn m) m1 = m)
        as (m & Hm & H2).
      { unfold step in Hk1. destruct (handle db r) as [[db1 resp]|] eqn:Hh.
        - apply handle_media in Hh
            as [Hs|(unlink & k' & m0 & -> & Hk' & Hu & Hd & Hdel)].
          + specialize (Hs k). rewrite Hk1 in Hs. revert Hs.
            destruct (media db !! k) as [m|]; [eauto|done].
          + rewrite Hdel in Hk1. destruct (decide (k = k')) as [->|Hne].
            * by rewrite lookup_delete_eq in Hk1.
            * rewrite lookup_delete_ne in Hk1 by done.
              exists m1. split; [done|apply setUsedIn_id].
        - exists m1. split; [done|apply setUsedIn_id]. }
      exists m. split; [done|]. by apply (setUsedIn_trans m m1 m'). }
  intros Hk. destruct (Hrun db m' Hk) as (m & Hm & Hs).
  exists m. split_conj; [done|done|..]; by rewrite <- Hs.
Qed.

(** ** What a request writes to the events and the blogs *)

Lemma preSave_slug_kept now ed :
  isNew ed = false → isModified "slug" (preSave now ed) = false →
  slug (doc (preSave now ed)) = slug (doc ed).
Proof.
  intros Hn. rewrite preSave_slug. unfold preSave.
  destruct (isModified "title" ed); [|done].
  intros Hm.
  assert (isModified "slug"
            (assign "slug" slug set_slug
               (Some (slugify (title (doc ed)) +:+ "-" +:+ pretty now)) ed) = false)
    as Hm'.
  { revert Hm. case_match; [|done]. by rewrite isModified_assign_ne. }
  clear Hm. unfold isModified, assign in Hm'. simpl in Hm'. rewrite Hn in Hm'.
  simpl in Hm'. apply bool_decide_eq_false_1 in Hm'.
  destruct (decide (slug (doc ed)
                    = Some (slugify (title (doc ed)) +:+ "-" +:+ pretty now)))
    as [Hs|Hs]; [done|].
  destruct Hm'. rewrite bool_decide_eq_false_2 by done. by left.
Qed.

Lemma save_slug S now coll id ed coll' d :
  save S now coll id ed = Ok (coll', d) →
  (isNew ed = false ∧ slug d = slug (doc ed)) ∨ slugTaken coll id (slug d) = false.
Proof.
  unfold save. destruct (validate S ed); simpl; [|done].
  destruct (isNew ed) eqn:Hn; simpl.
  - case_bool_decide; simpl; [done|].
    destruct (slugTaken _ _ _) eqn:Ht; [done|]. intros [= <- <-]. by right.
  - destruct (isModified "slug" (preSave now ed)) eqn:Hm; simpl.
    + destruct (slugTaken _ _ _) eqn:Ht; [done|]. intros [= <- <-]. by right.
    + intros [= <- <-]. left. split; [done|]. by apply preSave_slug_kept.
Qed.

Lemma create_Writes mo S now coll body user newId data coll' d :
  create S now coll newId data = Ok (coll', d) →
  Writes mo coll (PostReq mo body user newId now) newId d ∧ coll' = <[newId := d]> coll.
Proof.
  unfold create. destruct (objectAssign S data (newDoc S)) as [ed|] eqn:Ha; [|done].
  simpl. intros Hs.
  assert (isNew ed = true) as Hnew by (by rewrite (objectAssign_isNew _ _ _ _ Ha)).
  destruct (save_slug _ _ _ _ _ _ _ Hs) as [[Hn _]|Ht]; [congruence|].
  apply save_Ok in Hs as (_ & _ & -> & Hnone).
  split; [|done]. apply W_create; auto.
Qed.

Lemma patch_Writes mo S (sch : JoiObject) body value user c ed now coll id coll' d :
  declaredNames sch = declaredNames EventValidator.updateSchema
  ∨ declaredNames sch = declaredNames BlogValidator.updateSchema →
  joiValidate sch body = Some value →
  findById coll id false = Some c →
  objectAssign S (objSet "updatedBy" (VId user) value) (hydrate c) = Some ed →
  save S now coll id ed = Ok (coll', d) →
  Writes mo coll (PatchReq mo id body user now) id d ∧ coll' = <[id := d]> coll.
Proof.
  intros Hnames Hj Hf Ha Hs.
  assert (coll !! id = Some c ∧ isDeleted c = false) as [Hc Hd].
  { unfold findById, visible in Hf. destruct (coll !! id) as [c0|]; [|done].
    simpl in Hf. destruct (isDeleted c0) eqn:E; [done|]. by injection Hf as ->. }
  assert (∀ k, k ∈ ["slug"; "publishedAt"; "views"; "createdBy"; "isDeleted";
                    "deletedAt"] →
               k ∉ keys (objSet "updatedBy" (VId user) value)) as Hk.
  { intros k Hp Hin. apply elem_of_keys_objSet in Hin.
    assert (k ∈ "updatedBy" :: declaredNames sch) as Hin'.
    { destruct Hin as [->|Hin]; [by left|].
      apply elem_of_cons. right. exact (joiValidate_keys _ _ _ Hj _ Hin). }
    destruct Hnames as [Hn|Hn]; rewrite Hn in Hin'.
    - by apply (protected_not_declared _ _ (or_introl eventUpdate_names) Hp).
    - by apply (protected_not_declared _ _ (or_intror blogUpdate_names) Hp). }
  destruct (objectAssign_frame _ _ _ _ Ha) as (F1 & _ & F3 & F4 & F5 & F6).
  simpl in F1, F3, F4, F5, F6.
  destruct (preSave_frame now ed)
    as (_ & _ & _ & _ & _ & _ & P7 & P8 & _ & P10 & P11 & _).
  simpl in P7, P8, P10, P11.
  pose proof (save_slug _ _ _ _ _ _ _ Hs) as Hslug.
  apply save_Ok in Hs as (_ & -> & -> & _).
  split; [|done]. apply (W_patch _ _ _ _ _ _ c).
  - done.
  - done.
  - rewrite P7. apply F3, Hk. compute_done.
  - rewrite P8. apply F4, Hk. compute_done.
  - rewrite P10, F5; [done|]. apply Hk. compute_done.
  - rewrite P11. apply F6, Hk. compute_done.
  - destruct Hslug as [[_ Hsl]|Ht]; [left|by right].
    rewrite Hsl. apply F1, Hk. compute_done.
Qed.

Lemma findById_hidden coll id c :
  findById coll id false = Some c → coll !! id = Some c ∧ isDeleted c = false.
Proof.
  unfold findById, visible. destruct (coll !! id) as [c0|]; [|done].
  simpl. destruct (isDeleted c0) eqn:E; [done|]. by intros [= ->].
Qed.

Lemma softDelete_Writes mo S now coll id c coll' d :
  findById coll id false = Some c →
  softDelete S now coll id (hydrate c) = Ok (coll', d) →
  Writes mo coll (DeleteReq mo id now) id d ∧ coll' = <[id := d]> coll.
Proof.
  intros Hf Hs. apply findById_hidden in Hf as [Hc Hd].
  assert (validate S (hydrate c) = true) as Hv.
  { unfold softDelete in Hs. apply save_Ok in Hs as (Hv & _).
    rewrite <- Hv. by apply validate_ext. }
  rewrite softDelete_stored in Hs by done. injection Hs as <- <-.
  split; [|done]. by apply W_delete.
Qed.

Lemma restore_Writes mo S now coll id c coll' d :
  findById coll id true = Some c → isDeleted c = true →
  restore S now coll id (hydrate c) = Ok (coll', d) →
  Writes mo coll (RestoreReq mo id now) id d ∧ coll' = <[id := d]> coll.
Proof.
  intros Hf Hd Hs. apply findById_Some in Hf.
  assert (validate S (hydrate c) = true) as Hv.
  { unfold restore in Hs. apply save_Ok in Hs as (Hv & _).
    rewrite <- Hv. by apply validate_ext. }
  rewrite restore_stored in Hs by done. injection Hs as <- <-.
  split; [|done]. by apply W_restore.
Qed.

Lemma view_Writes S now coll id c coll' d :
  save S now coll id (assign "views" views set_views (views c + 1)%Z (hydrate c))
  = Ok (coll', d) →
  d = set_views (views c + 1)%Z c ∧ coll' = <[id := d]> coll.
Proof.
  rewrite view_saved. destruct (validate S (hydrate c)); [|done].
  by intros [= <- <-].
Qed.

(** Every successful request leaves a collection as it is or stores one
    document in it, in one of the six ways of [Writes]. *)
Lemma handle_Writes db r db' resp mo :
  handle db r = Ok (db', resp) →
  collection mo db' = collection mo db
  ∨ ∃ id d, Writes mo (collection mo db) r id d
            ∧ collection mo db' = <[id := d]> (collection mo db).
Proof.
  destruct r; simpl.
  - unfold postEvent, validateRequest.
    destruct (joiValidate _ body) as [value|]; simpl; [|done].
    unfold createEvent. destruct (create _ _ _ _ _) as [[ev e]|] eqn:Hc; simpl; [|done].
    intros [= <- <-]. destruct mo; [right|by left].
    exists newId, e. by apply (create_Writes EventModel _ _ _ body user) in Hc.
  - unfold patchEvent, validateRequest.
    destruct (joiValidate _ body) as [value|] eqn:Hj; simpl; [|done].
    unfold updateEvent. destruct (findById _ _ _) as [c|] eqn:Hf; simpl; [|done].
    destruct (objectAssign _ _ _) as [ed|] eqn:Ha; simpl; [|done].
    destruct (save _ _ _ _ _) as [[ev e]|] eqn:Hs; simpl; [|done].
    intros [= <- <-]. destruct mo; [right|by left].
    exists id, e.
    exact (patch_Writes EventModel eventSchema _ body value user c ed now _ id ev e
             (or_introl eq_refl) Hj Hf Ha Hs).
  - unfold deleteEvent. destruct (findById _ _ _) as [c|] eqn:Hf; simpl; [|done].
    destruct (softDelete _ _ _ _ _) as [[ev e]|] eqn:Hs; simpl; [|done].
    intros [= <- <-]. destruct mo; [right|by left].
    exists id, e. exact (softDelete_Writes EventModel _ _ _ _ _ _ _ Hf Hs).
  - unfold restoreEvent. destruct (findById _ _ _) as [c|] eqn:Hf; simpl; [|done].
    destruct (isDeleted c) eqn:Hd; simpl; [|done].
    destruct (restore _ _ _ _ _) as [[ev e]|] eqn:Hs; simpl; [|done].
    intros [= <- <-]. destruct mo; [right|by left].
    exists id, e. exact (restore_Writes EventModel _ _ _ _ _ _ _ Hf Hd Hs).
  - unfold getEvent. destruct (findById _ _ _) as [c|] eqn:Hf; simpl; [|done].
    destruct (negb (bool_decide (status c = published)) && negb admin); [done|].
    case_bool_decide as Hp.
    + destruct (save _ _ _ _ _) as [[ev e]|] eqn:Hs; simpl; [|done].
      intros [= <- <-]. destruct mo; [right|by left].
      apply view_Writes in Hs as [-> ->]. apply findById_hidden in Hf as [Hc Hd].
      eexists _, _. split; [|done]. by apply (W_get EventModel).
    + intros [= <- <-]. by left.
  - unfold getEventBySlug. destruct (findOneBySlug _ _) as [[id c]|] eqn:Hf; simpl; [|done].
    destruct (save _ _ _ _ _) as [[ev e]|] eqn:Hs; simpl; [|done].
    intros [= <- <-]. destruct mo; [right|by left].
    apply view_Writes in Hs as [-> ->].
    apply findOneBySlug_inv in Hf as (Hc & Hsl & Hp & Hd).
    eexists _, _. split; [|done]. by apply (W_getBySlug EventModel).
  - unfold postBlog, validateRequest.
    destruct (joiValidate _ body) as [value|]; simpl; [|done].
    unfold createBlog. destruct (negb (truthy _)); [done|].
    destruct (create _ _ _ _ _) as [[bl b]|] eqn:Hc; simpl; [|done].
    intros [= <- <-]. destruct mo; [by left|right].
    exists newId, b. by apply (create_Writes BlogModel _ _ _ body user) in Hc.
  - unfold patchBlog, validateRequest.
    destruct (joiValidate _ body) as [value|] eqn:Hj; simpl; [|done].
    unfold updateBlog. destruct (findById _ _ _) as [c|] eqn:Hf; simpl; [|done].
    destruct (objectAssign _ _ _) as [ed|] eqn:Ha; simpl; [|done].
    destruct (save _ _ _ _ _) as [[bl b]|] eqn:Hs; simpl; [|done].
    intros [= <- <-]. destruct mo; [by left|right].
    exists id, b.
    exact (patch_Writes BlogModel blogSchema _ body value user c ed now _ id bl b
             (or_intror eq_refl) Hj Hf Ha Hs).
  - unfold deleteBlog. destruct (findById _ _ _) as [c|] eqn:Hf; simpl; [|done].
    destruct (softDelete _ _ _ _ _) as [[bl b]|] eqn:Hs; simpl; [|done].
    intros [= <- <-]. destruct mo; [by left|right].
    exists id, b. exact (softDelete_Writes BlogModel _ _ _ _ _ _ _ Hf Hs).
  - unfold restoreBlog. destruct (findById _ _ _) as [c|] eqn:Hf; simpl; [|done].
    destruct (isDeleted c) eqn:Hd; simpl; [|done].
    destruct (restore _ _ _ _ _) as [[bl b]|] eqn:Hs; simpl; [|done].
    intros [= <- <-]. destruct mo; [by left|right].
    exists id, b. exact (restore_Writes BlogModel _ _ _ _ _ _ _ Hf Hd Hs).
  - unfold getBlog. destruct (findById _ _ _) as [c|] eqn:Hf; simpl; [|done].
    destruct (negb (bool_decide (status c = published)) && negb admin); [done|].
    case_bool_decide as Hp.
    + destruct (save _ _ _ _ _) as [[bl b]|] eqn:Hs; simpl; [|done].
      intros [= <- <-]. destruct mo; [by left|right].
      apply view_Writes in Hs as [-> ->]. apply findById_hidden in Hf as [Hc Hd].
      eexists _, _. split; [|done]. by apply (W_get BlogModel).
    + intros [= <- <-]. by left.
  - unfold getBlogBySlug. destruct (findOneBySlug _ _) as [[id c]|] eqn:Hf; simpl; [|done].
    destruct (save _ _ _ _ _) as [[bl b]|] eqn:Hs; simpl; [|done].
    intros [= <- <-]. destruct mo; [by left|right].
    apply view_Writes in Hs as [-> ->].
    apply findOneBySlug_inv in Hf as (Hc & Hsl & Hp & Hd).
    eexists _, _. split; [|done]. by apply (W_getBySlug BlogModel).
  - unfold deleteMedia. destruct (MediaModel.findById _ _) as [m|]; simpl; [|done].
    destruct (MediaModel.isInUse m); [done|]. destruct (unlink (path m)); [|done].
    intros [= <- <-]. left. by destruct mo.
Qed.

Lemma step_Writes db r mo :
  collection mo (step db r) = collection mo db
  ∨ ∃ id d, Writes mo (collection mo db) r id d
            ∧ collection mo (step db r) = <[id := d]> (collection mo db).
Proof.
  unfold step. destruct (handle db r) as [[db' resp]|] eqn:Hh; [|by left].
  by apply (handle_Writes _ _ _ resp).
Qed.

(** Events and blogs are never removed: through any sequence of requests a
    stored entity stays stored under its id, keeps its creator, and its view
    counter does not decrease. *)
Theorem content_never_removed (mo : ModelName) (db : DB) (rs : list Request)
    (k : ObjectId) (c : Content) :
  collection mo db !! k = Some c →
  ∃ c', collection mo (run db rs) !! k = Some c'
        ∧ createdBy c' = createdBy c ∧ (views c ≤ views c')%Z.
Proof.
  revert db c. induction rs as [|r rs IH]; intros db c Hk; simpl.
  - exists c. split_conj; [done|done|lia].
  - assert (∃ c1, collection mo (step db r) !! k = Some c1
                  ∧ createdBy c1 = createdBy c ∧ (views c ≤ views c1)%Z)
      as (c1 & Hk1 & Hcb & Hv).
    { destruct (step_Writes db r mo) as [->|(id & d & Hw & ->)].
      - exists c. split_conj; [done|done|lia].
      - destruct (decide (k = id)) as [->|Hne].
        + rewrite lookup_insert_eq. exists d. split; [done|].
          destruct Hw; simplify_eq; simpl; split; first [done|lia].
        + rewrite lookup_insert_ne by done. exists c. split_conj; [done|done|lia]. }
    destruct (IH _ _ Hk1) as (c' & Hk' & Hcb' & Hv').
    exists c'. split_conj; [done|congruence|lia].
Qed.

(** A soft-deleted entity is frozen: every request leaves it exactly as it
    is stored, except the restore of that entity, which clears [isDeleted]
    and [deletedAt] and nothing else. *)
Theorem soft_deleted_frozen (mo : ModelName) (db : DB) (r : Request)
    (k : ObjectId) (c : Content) :
  collection mo db !! k = Some c → isDeleted c = true →
  collection mo (step db r) !! k = Some c
  ∨ ∃ now, r = RestoreReq mo k now
           ∧ collection mo (step db r) !! k
             = Some (set_deletedAt None (set_isDeleted false c)).
Proof.
  intros Hk Hd. destruct (step_Writes db r mo) as [->|(id & d & Hw & ->)]; [by left|].
  destruct (decide (k = id)) as [->|Hne].
  - rewrite lookup_insert_eq.
    destruct Hw; simplify_eq; try congruence.
    right. eexists. split; reflexivity.
  - left. by rewrite lookup_insert_ne.
Qed.


Lemma slugTaken_false coll id s k c :
  slugTaken coll id s = false → coll !! k = Some c → k ≠ id → slug c ≠ s.
Proof.
  unfold slugTaken. intros Ht Hk Hne Hs. apply bool_decide_eq_false_1 in Ht.
  apply Ht. by exists k, c.
Qed.

Lemma uniqueSlugs_insert coll id d :
  uniqueSlugs coll →
  (∃ c, coll !! id = Some c ∧ slug d = slug c) ∨ slugTaken coll id (slug d) = false →
  uniqueSlugs (<[id := d]> coll).
Proof.
  intros Hu Hd k1 k2 c1 c2 H1 H2 Hs.
  destruct (decide (k1 = k2)) as [|Hne]; [done|exfalso].
  destruct (decide (k1 = id)) as [->|Hn1], (decide (k2 = id)) as [->|Hn2]; try done.
  - rewrite lookup_insert_eq in H1. rewrite lookup_insert_ne in H2 by done.
    injection H1 as <-. destruct Hd as [(c & Hc & Hsl)|Ht].
    + apply Hn2. apply (Hu k2 id c2 c); congruence.
    + by apply (slugTaken_false _ _ _ _ _ Ht H2).
  - rewrite lookup_insert_eq in H2. rewrite lookup_insert_ne in H1 by done.
    injection H2 as <-. destruct Hd as [(c & Hc & Hsl)|Ht].
    + apply Hn1. apply (Hu k1 id c1 c); congruence.
    + by apply (slugTaken_false _ _ _ _ _ Ht H1).
  - rewrite lookup_insert_ne in H1, H2 by done. by apply Hne, (Hu k1 k2 c1 c2).
Qed.

(** The unique slug index is kept: if no two stored events (blogs) share a
    slug, no two do after any sequence of requests, although a save checks
    the index only for a new document or a rewritten slug. *)
Theorem slugs_stay_distinct (mo : ModelName) (db : DB) (rs : list Request) :
  uniqueSlugs (collection mo db) → uniqueSlugs (collection mo (run db rs)).
Proof.
  revert db. induction rs as [|r rs IH]; intros db Hu; [done|].
  simpl. apply IH.
  destruct (step_Writes db r mo) as [->|(id & d & Hw & ->)]; [done|].
  apply uniqueSlugs_insert; [done|].
  destruct Hw; try (left; by eauto).
  - by right.
  - match goal with Hsl : _ ∨ _ |- _ => destruct Hsl; [left; by eauto|by right] end.
Qed.

(** An update must name a field: a PATCH whose body has no property the
    update schema declares (an empty body, or only properties that are
    stripped) is rejected by the validation middleware, before the entity is
    looked up. *)
Theorem patch_needs_declared_key (db : DB) (id : ObjectId) (body : Obj)
    (user : ObjectId) (now : Timestamp) :
  ((∀ k, k ∈ keys body → k ∉ declaredNames EventValidator.updateSchema) →
   patchEvent db id body user now = Err JoiRejected
   ∧ step db (PatchEvent id body user now) = db)
  ∧ ((∀ k, k ∈ keys body → k ∉ declaredNames BlogValidator.updateSchema) →
     patchBlog db id body user now = Err JoiRejected
     ∧ step db (PatchBlog id body user now) = db).
Proof.
  assert (∀ sch : JoiObject,
            (∀ k, k ∈ keys body → k ∉ declaredNames sch) →
            filter (λ kv : string * JsVal, kv.1 ∈ declaredNames sch) body = [])
    as Hstrip.
  { intros sch Hk. apply filter_none_nil, Forall_forall. intros [k v] Hin Hd.
    apply (Hk k); [|done]. unfold keys. apply list_elem_of_fmap. by exists (k, v). }
  split; intros Hk.
  - assert (patchEvent db id body user now = Err JoiRejected) as He.
    { unfold patchEvent, validateRequest, joiValidate. by rewrite (Hstrip _ Hk). }
    split; [done|]. unfold step. simpl. by rewrite He.
  - assert (patchBlog db id body user now = Err JoiRejected) as He.
    { unfold patchBlog, validateRequest, joiValidate. by rewrite (Hstrip _ Hk). }
    split; [done|]. unfold step. simpl. by rewrite He.
Qed.

End MachineFacts.

(** * The further properties at concrete inputs *)

Section MoreWitnesses.
Local Existing Instance sampleExternals.
Local Existing Instance sampleRules.
Local Existing Instance sampleEngine.
Local Existing Instance samplePathLib.
Local Existing Instance sampleSharp.

Lemma addUsage_removeUsage_roundtrip_witness :
  Forall (λ u, ¬ sameUsage EventModel 1 "heroImage" u)
    (usedIn (sampleMedia [usage EventModel 1 "gallery"] false))
  ∧ MediaModel.removeUsage EventModel 1 "heroImage"
      (MediaModel.addUsage EventModel 1 "heroImage"
         (sampleMedia [usage EventModel 1 "gallery"] false))
    = sampleMedia [usage EventModel 1 "gallery"] false.
Proof.
  assert (Forall (λ u, ¬ sameUsage EventModel 1 "heroImage" u)
            (usedIn (sampleMedia [usage EventModel 1 "gallery"] false))) as Hf.
  { apply (bool_decide_unpack _). vm_compute. reflexivity. }
  split; [exact Hf|].
  exact (proj1 (addUsage_removeUsage_roundtrip EventModel 1 "heroImage" _ Hf)).
Defined.

Lemma media_softDelete_hides_witness :
  media galaDb !! 163%N = Some (sampleMedia [] false)
  ∧ MediaModel.findById
      (<[163%N := MediaModel.softDelete 5000 (sampleMedia [] false)]> (media galaDb))
      163 = None
  ∧ deleteMedia (λ _, true)
      {| events := events galaDb; blogs := blogs galaDb;
         media := <[163%N := MediaModel.softDelete 5000 (sampleMedia [] false)]>
                    (media galaDb) |} 163
    = Err (ApiError 404 "Media not found").
Proof.
  split; [vm_compute; reflexivity|].
  destruct (media_softDelete_hides (media galaDb) (events galaDb) (blogs galaDb) 163
              (sampleMedia [] false) 5000 (λ _, true))
    as (H1 & _ & _ & H4 & _); [vm_compute; reflexivity..|].
  split; [exact H1|exact H4].
Defined.

Lemma ordinalSuffix_english_witness :
  (0 ≤ 22)%Z ∧ EventHook.ordinalSuffix 22 = "nd" ∧ EventHook.ordinalSuffix 112 = "th".
Proof.
  split; [lia|]. split.
  - exact (ordinalSuffix_english 22 ltac:(lia)).
  - exact (ordinalSuffix_english 112 ltac:(lia)).
Defined.


Lemma filename_unique_witness :
  Multer.filename 1000 42 "photo.png" ≠ Multer.filename 1001 42 "photo.png".
Proof. apply filename_unique. left. discriminate. Defined.

Lemma listing_visibility_witness :
  (1%N, set_publishedAt (Some 2000%N) (sampleEvent (Some 161%N) [162%N] published false))
    ∈ items (getEvents publishedGalaDb false firstPage)
  ∧ status (set_publishedAt (Some 2000%N)
              (sampleEvent (Some 161%N) [162%N] published false)) = published.
Proof.
  assert ((1%N, set_publishedAt (Some 2000%N)
                  (sampleEvent (Some 161%N) [162%N] published false))
            ∈ items (getEvents publishedGalaDb false firstPage)) as Hin.
  { vm_compute. apply list_elem_of_here. }
  split; [exact Hin|].
  destruct (listing_visibility publishedGalaDb false firstPage (featuredPage VNull))
    as [He _].
  destruct (He _ _ Hin) as (_ & _ & Hp & _). by apply Hp.
Defined.

Lemma events_page_bounds_witness :
  (Z.of_nat (length (items (getEvents publishedGalaDb false firstPage))) ≤ 10)%Z
  ∧ pg_pages (pagination (getEvents publishedGalaDb false firstPage)) = 1%Z.
Proof.
  destruct (events_page_bounds publishedGalaDb false firstPage)
    as (H1 & _); [simpl; lia..|].
  split; [exact H1|vm_compute; reflexivity].
Defined.


Lemma getBlogs_featured_flag_witness :
  (2%N, sampleBlog (Some 161%N) [162%N] (Some 164%N) published false)
    ∈ items (getBlogs publishedNotesDb false (featuredPage (VBool true)))
  ∧ detailHolds (FeaturedIs false)
      (sampleBlog (Some 161%N) [162%N] (Some 164%N) published false) = true.
Proof.
  assert ((2%N, sampleBlog (Some 161%N) [162%N] (Some 164%N) published false)
            ∈ items (getBlogs publishedNotesDb false (featuredPage (VBool true))))
    as Hin.
  { vm_compute. apply list_elem_of_here. }
  split; [exact Hin|].
  destruct (getBlogs_featured_flag publishedNotesDb false (featuredPage (VBool true))
              (VBool true) _ _ eq_refl Hin) as (_ & Hb & _).
  by apply (Hb true).
Defined.

Lemma getMedia_unused_filter_witness :
  (161%N, sampleMedia [usage EventModel 1 "heroImage"] false)
    ∈ findMedia (media galaDb) (mediaConds (mediaPage (VBool true))) "-createdAt".
Proof.
  destruct (getMedia_unused_filter galaDb (mediaPage (VBool true))) as (_ & H2 & _).
  apply (H2 true); vm_compute; reflexivity.
Defined.

Lemma getCategories_published_witness :
  "news" ∈ getCategories withdrawnNotesDb.
Proof.
  destruct (getCategories_published withdrawnNotesDb) as (_ & _ & H3).
  apply (H3 2%N (sampleBlog (Some 161%N) [162%N] (Some 164%N) published true));
    vm_compute; reflexivity.
Defined.

Lemma deleteUnusedMedia_spec_witness :
  media (deleteUnusedMedia (λ _, true) galaDb).1 !! 161%N
  = Some (sampleMedia [usage EventModel 1 "heroImage"] false)
  ∧ media (deleteUnusedMedia (λ _, true) galaDb).1 !! 163%N = None.
Proof.
  destruct (deleteUnusedMedia_spec (λ _, true) galaDb) as (_ & _ & _ & H4 & H5 & _).
  split.
  - apply H5; [vm_compute; reflexivity|discriminate].
  - rewrite (H4 163%N (sampleMedia [] false)); vm_compute; reflexivity.
Defined.

Lemma uploadFiles_spec_witness :
  (∃ db' r, uploadFiles emptyDb [(200%N, sampleFile)] = (db', Ok r)
            ∧ upr_code r = 201%nat
            ∧ media db' !! 161%N = Some (sampleMedia [] false))
  ∧ (∃ db', uploadFiles emptyDb [(200%N, sampleFile); (201%N, namelessFile)]
            = (db', Err ValidationError)
            ∧ media db' !! 200%N = Some (up_doc (mediaData 200 sampleFile))).
Proof.
  split.
  - destruct (uploadFiles_spec emptyDb [(200%N, sampleFile)]) as (_ & H2 & _).
    destruct H2 as (db' & r & Hu & Hc & _ & _ & _ & Hold & _).
    + discriminate.
    + apply (bool_decide_unpack _). vm_compute. reflexivity.
    + intros k Hk. apply elem_of_cons in Hk as [->|Hk]; [vm_compute; reflexivity|].
      by apply elem_of_nil in Hk.
    + apply List.Forall_cons; [vm_compute; reflexivity|apply List.Forall_nil].
    + exists db', r. split; [exact Hu|]. split; [exact Hc|].
      apply Hold. vm_compute. reflexivity.
  - destruct (uploadFiles_spec emptyDb [(200%N, sampleFile); (201%N, namelessFile)])
      as (_ & _ & H3).
    destruct (H3 [(200%N, sampleFile)] 201%N namelessFile []) as (db' & Hu & _ & _ & Hnew & _).
    + reflexivity.
    + apply (bool_decide_unpack _). vm_compute. reflexivity.
    + intros k Hk. apply elem_of_cons in Hk as [->|Hk]; [vm_compute; reflexivity|].
      by apply elem_of_nil in Hk.
    + apply List.Forall_cons; [vm_compute; reflexivity|apply List.Forall_nil].
    + vm_compute. reflexivity.
    + exists db'. split; [exact Hu|]. apply Hnew. apply list_elem_of_here.
Defined.

Lemma upload_then_delete_witness :
  ∃ db1 r1 r2,
    uploadFiles emptyDb [(200%N, sampleFile)] = (db1, Ok r1)
    ∧ deleteMedia (λ _, true) db1 200 = Ok (emptyDb, r2).
Proof.
  apply (upload_then_delete emptyDb 200 sampleFile (λ _, true)); vm_compute; reflexivity.
Defined.



Lemma postEvent_attaches_witness :
  ∃ db' r e,
    postEvent emptyGalleryDb galaBody 7 1 1000 = Ok (db', r)
    ∧ r = {| code := 201; message := "Event created successfully"; data := Some e |}
    ∧ createdBy e = Some 7%N ∧ views e = 0%Z ∧ isDeleted e = false.
Proof.
  assert (∃ db' r, postEvent emptyGalleryDb galaBody 7 1 1000 = Ok (db', r))
    as (db' & r & Hp).
  { do 2 eexists. vm_compute. reflexivity. }
  destruct (postEvent_attaches emptyGalleryDb galaBody 7 1 1000 db' r Hp)
    as (e & Hr & _ & _ & _ & Hc & _ & Hv & Hd & _).
  exists db', r, e. split_conj; assumption.
Defined.

Lemma slugs_differ_across_milliseconds_witness :
  ∃ db1 r1 db2 r2 e1 e2,
    createEvent emptyDb galaBody 7 1 1000 = Ok (db1, r1)
    ∧ createEvent db1 galaBody 7 2 1001 = Ok (db2, r2)
    ∧ data r1 = Some e1 ∧ data r2 = Some e2
    ∧ title e1 = title e2 ∧ slug e1 ≠ slug e2.
Proof.
  assert (∃ db1 r1 db2 r2, createEvent emptyDb galaBody 7 1 1000 = Ok (db1, r1)
                           ∧ createEvent db1 galaBody 7 2 1001 = Ok (db2, r2))
    as (db1 & r1 & db2 & r2 & H1 & H2).
  { do 4 eexists. split; vm_compute; reflexivity. }
  destruct (slugs_differ_across_milliseconds emptyDb galaBody 7 1 2 1000 1001
              db1 db2 r1 r2 H1 H2 ltac:(discriminate))
    as (e1 & e2 & Hd1 & Hd2 & _ & _ & Ht & Hs).
  exists db1, r1, db2, r2, e1, e2. split_conj; assumption.
Defined.

Lemma in_use_never_removed_witness :
  ∃ m', media (step galaDb (DeleteMedia (λ _, true) 161)) !! 161%N = Some m'
        ∧ setUsedIn [usage EventModel 1 "heroImage"] m'
          = sampleMedia [usage EventModel 1 "heroImage"] false.
Proof.
  destruct (in_use_never_removed galaDb (DeleteMedia (λ _, true) 161) 161)
    as (H1 & _).
  apply (H1 (sampleMedia [usage EventModel 1 "heroImage"] false)).
  - vm_compute. reflexivity.
  - left. discriminate.
Defined.

Lemma assets_change_only_in_usedIn_witness :
  media (run galaDb [PatchEvent 1 heroBody 7 2000]) !! 163%N
  = Some (sampleMedia [usage EventModel 1 "heroImage"] false)
  ∧ ∃ m, media galaDb !! 163%N = Some m
         ∧ path (sampleMedia [usage EventModel 1 "heroImage"] false) = path m
         ∧ m_isDeleted (sampleMedia [usage EventModel 1 "heroImage"] false)
           = m_isDeleted m.
Proof.
  assert (media (run galaDb [PatchEvent 1 heroBody 7 2000]) !! 163%N
          = Some (sampleMedia [usage EventModel 1 "heroImage"] false)) as Hr.
  { vm_compute. reflexivity. }
  split; [exact Hr|].
  destruct (assets_change_only_in_usedIn galaDb _ _ _ Hr)
    as (m & Hm & _ & Hp & _ & Hd & _).
  exists m. split_conj; assumption.
Defined.

Lemma content_never_removed_witness :
  ∃ c', collection EventModel
          (run galaDb [DeleteEvent 1 3000; DeleteMedia (λ _, true) 163;
                       PatchEvent 1 heroBody 7 4000]) !! 1%N = Some c'
        ∧ createdBy c' = Some 7%N ∧ (0 ≤ views c')%Z.
Proof.
  apply (content_never_removed EventModel galaDb _ 1
           (sampleEvent (Some 161%N) [162%N] draft false)).
  vm_compute. reflexivity.
Defined.

Lemma soft_deleted_frozen_witness :
  collection EventModel deletedGalaDb !! 1%N
  = Some (sampleEvent (Some 161%N) [162%N] draft true)
  ∧ collection EventModel
      (step deletedGalaDb (PatchEvent 1 (statusBody published) 7 4000)) !! 1%N
    = Some (sampleEvent (Some 161%N) [162%N] draft true).
Proof.
  split; [vm_compute; reflexivity|].
  destruct (soft_deleted_frozen EventModel deletedGalaDb
              (PatchEvent 1 (statusBody published) 7 4000) 1
              (sampleEvent (Some 161%N) [162%N] draft true))
    as [Hs|(now & Hr & _)]; [vm_compute; reflexivity..|exact Hs|discriminate Hr].
Defined.


Lemma slugs_stay_distinct_witness :
  uniqueSlugs (collection EventModel galaDb)
  ∧ uniqueSlugs (collection EventModel
                   (run galaDb [PostEvent galaBody 7 2 1000; PostEvent galaBody 7 3 2000])).
Proof.
  assert (uniqueSlugs (collection EventModel galaDb)) as Hu.
  { intros k1 k2 c1 c2 H1 H2 _. unfold collection, galaDb in H1, H2.
    cbn [events] in H1, H2.
    apply lookup_singleton_Some in H1 as [<- _].
    by apply lookup_singleton_Some in H2 as [<- _]. }
  split; [exact Hu|]. by apply slugs_stay_distinct.
Defined.

Lemma patch_needs_declared_key_witness :
  patchEvent galaDb 1 [("views", VNum 1000)] 7 2000 = Err JoiRejected
  ∧ patchEvent galaDb 1 [] 7 2000 = Err JoiRejected.
Proof.
  split.
  - destruct (patch_needs_declared_key galaDb 1 [("views", VNum 1000)] 7 2000)
      as [He _].
    apply He. intros k Hk. apply elem_of_cons in Hk as [->|Hk].
    + apply (bool_decide_unpack _). vm_compute. reflexivity.
    + by apply elem_of_nil in Hk.
  - destruct (patch_needs_declared_key galaDb 1 [] 7 2000) as [He _].
    apply He. intros k Hk. by apply elem_of_nil in Hk.
Defined.

End MoreWitnesses.
